(** * gfagraphs: a shallow embedding of [gfagraphs.py]

    The Python module parses GFA text lines into records (a kind, a style and
    a [datas] dictionary), groups them in a [Graph], edits the graph
    ([split_segments], [merge_segments]) and writes it back ([save_graph]).

    Conventions of the embedding:
    - a Python [str] is a [string]; every [ascii] is one character (code
      points 0..255), characters above 255 are outside the model;
    - a Python [int] is a [Z], a [float] is a binary64 [spec_float];
    - a [dict] is an association list in insertion order;
    - a raised exception is the [Raise] case of [res]; methods that mutate the
      graph return the graph as it stands when they return or raise. *)

From Stdlib Require Import ZArith List String Ascii Bool Lia.
From Stdlib Require Import Decimal DecimalString DecimalZ.
From Stdlib Require Import SpecFloat Sorted.
Import ListNotations.

Local Open Scope string_scope.
Local Open Scope Z_scope.

(** ** Exceptions and results *)

(** The exception classes the module can raise.  [JSONDecodeError] is the
    [ValueError] subclass of [json.loads].  [OutOfModel] is not a Python
    exception: it marks an input the model does not cover (a text that needs
    a character above code point 255, a JSON text nested deeper than the
    scanner's fuel, a ['path'] value whose items unpack without being steps,
    a file of more lines than a list can hold). *)
Inductive exn : Type :=
| ValueError
| KeyError (key : string)
| IndexError
| AttributeError
| TypeError
| NotImplementedError
| OverflowError
| JSONDecodeError
| OutOfModel.

Inductive res (A : Type) : Type :=
| Ok (a : A)
| Raise (e : exn).

Arguments Ok {A} a.
Arguments Raise {A} e.

Definition bind {A B : Type} (c : res A) (k : A -> res B) : res B :=
  match c with
  | Ok a => k a
  | Raise e => Raise e
  end.

Notation "x <- c ;; k" := (bind c (fun x => k))
  (at level 61, c at next level, right associativity).

Definition is_ok {A : Type} (c : res A) : bool :=
  match c with Ok _ => true | Raise _ => false end.

(** [[f(x) for x in l]]: the first exception stops the comprehension. *)
Fixpoint mapM {A B : Type} (f : A -> res B) (l : list A) : res (list B) :=
  match l with
  | [] => Ok []
  | x :: tl => y <- f x ;; ys <- mapM f tl ;; Ok (y :: ys)
  end.

(** ** Sequences: indexing and slicing *)

(** [l[i]], negative [i] counts from the end. *)
Definition py_getitem {A : Type} (l : list A) (i : Z) : res A :=
  let n := Z.of_nat (List.length l) in
  let j := if i <? 0 then n + i else i in
  if j <? 0 then Raise IndexError
  else match nth_error l (Z.to_nat j) with
       | Some x => Ok x
       | None => Raise IndexError
       end.

(** A slice bound brought into [0, len]. *)
Definition clamp_index (len i : Z) : Z :=
  if i <? 0 then Z.max 0 (len + i) else Z.min i len.

(** [l[lo:hi]]; [None] is an omitted bound. *)
Definition py_slice {A : Type} (l : list A) (lo hi : option Z) : list A :=
  let n := Z.of_nat (List.length l) in
  let a := match lo with Some i => clamp_index n i | None => 0 end in
  let b := match hi with Some j => clamp_index n j | None => n end in
  firstn (Z.to_nat (b - a)) (skipn (Z.to_nat a) l).

(** [list(enumerate(l))], counting from [i]. *)
Fixpoint enumerate_from {A : Type} (i : nat) (l : list A) : list (nat * A) :=
  match l with
  | [] => []
  | x :: tl => (i, x) :: enumerate_from (S i) tl
  end.

Definition enumerate {A : Type} (l : list A) : list (nat * A) :=
  enumerate_from 0 l.

(** ** Strings *)

Definition chars (s : string) : list ascii := list_ascii_of_string s.
Definition text (l : list ascii) : string := string_of_list_ascii l.

Definition str_len (s : string) : Z := Z.of_nat (String.length s).

(** [s[lo:hi]] and [s[i]] (a one-character string). *)
Definition str_slice (s : string) (lo hi : option Z) : string :=
  text (py_slice (chars s) lo hi).

Definition str_getitem (s : string) (i : Z) : res string :=
  c <- py_getitem (chars s) i ;; Ok (String c EmptyString).

(** [c * n]: the character repeated, empty when [n <= 0]. *)
Definition str_repeat (c : ascii) (n : Z) : string :=
  text (List.repeat c (Z.to_nat n)).

(** [sep.join(l)] *)
Fixpoint str_join (sep : string) (l : list string) : string :=
  match l with
  | [] => ""
  | [s] => s
  | s :: tl => s ++ sep ++ str_join sep tl
  end.

(** [s.split(sep)] for a one-character separator: never empty. *)
Fixpoint str_split (sep : ascii) (s : string) : list string :=
  match s with
  | EmptyString => [""]
  | String c rest =>
      if Ascii.eqb c sep then "" :: str_split sep rest
      else match str_split sep rest with
           | hd :: tl => String c hd :: tl
           | [] => [String c ""]
           end
  end.

(** [s.strip(c)] for a one-character set. *)
Fixpoint str_lstrip (c : ascii) (s : string) : string :=
  match s with
  | EmptyString => ""
  | String a rest => if Ascii.eqb a c then str_lstrip c rest else s
  end.

Fixpoint str_rstrip (c : ascii) (s : string) : string :=
  match s with
  | EmptyString => ""
  | String a rest =>
      match str_rstrip c rest with
      | EmptyString => if Ascii.eqb a c then "" else String a ""
      | r => String a r
      end
  end.

Definition str_strip (c : ascii) (s : string) : string :=
  str_rstrip c (str_lstrip c s).

(** [s.replace(c, by)] for a one-character pattern. *)
Fixpoint str_replace (c : ascii) (by_ : string) (s : string) : string :=
  match s with
  | EmptyString => ""
  | String a rest =>
      if Ascii.eqb a c then by_ ++ str_replace c by_ rest
      else String a (str_replace c by_ rest)
  end.

Definition str_startswith (p s : string) : bool := String.prefix p s.

Definition is_digit (c : ascii) : bool :=
  let n := nat_of_ascii c in (48 <=? n)%nat && (n <=? 57)%nat.

Definition is_upper (c : ascii) : bool :=
  let n := nat_of_ascii c in (65 <=? n)%nat && (n <=? 90)%nat.

Definition is_lower (c : ascii) : bool :=
  let n := nat_of_ascii c in (97 <=? n)%nat && (n <=? 122)%nat.

Definition is_alpha (c : ascii) : bool := is_upper c || is_lower c.

(** [re.sub('\D', '', s)]: among the code points 0..255 the class [\d] holds
    the ten ASCII digits only. *)
Fixpoint sub_nondigits (s : string) : string :=
  match s with
  | EmptyString => ""
  | String a rest =>
      if is_digit a then String a (sub_nondigits rest) else sub_nondigits rest
  end.

(** ** Numbers from and to text *)

(** Blank characters for [int(s)] and [float(s)]: the ASCII blanks, which
    the parser skips at both ends, and the Unicode blanks above 127, which
    the interpreter maps to a space beforehand (among 128..255 these are 133
    and 160).  The separators 28..31 are no blanks here. *)
Definition is_space_ascii (c : ascii) : bool :=
  let n := nat_of_ascii c in
  ((9 <=? n)%nat && (n <=? 13)%nat) || (n =? 32)%nat.

Definition is_space_num (c : ascii) : bool :=
  let n := nat_of_ascii c in
  is_space_ascii c || (n =? 133)%nat || (n =? 160)%nat.

Fixpoint lstrip_by (p : ascii -> bool) (l : list ascii) : list ascii :=
  match l with
  | [] => []
  | c :: tl => if p c then lstrip_by p tl else l
  end.

Definition strip_by (p : ascii -> bool) (l : list ascii) : list ascii :=
  List.rev (lstrip_by p (List.rev (lstrip_by p l))).

(** [digit (["_"] digit)*]: the digits with the underscores dropped, [None]
    when the text is not of that form. *)
Fixpoint digitpart_from (after_digit : bool) (l : list ascii)
  : option (list ascii) :=
  match l with
  | [] => if after_digit then Some [] else None
  | c :: tl =>
      if is_digit c then option_map (cons c) (digitpart_from true tl)
      else if Ascii.eqb c "_" && after_digit then digitpart_from false tl
      else None
  end.

Definition digitpart (l : list ascii) : option (list ascii) :=
  digitpart_from false l.

(** The number a list of decimal digits writes. *)
Definition digits_value (ds : list ascii) : option Z :=
  option_map Z.of_uint (NilEmpty.uint_of_string (text ds)).

(** A leading sign: [(negative, rest)]. *)
Definition split_sign (l : list ascii) : bool * list ascii :=
  match l with
  | c :: tl =>
      if Ascii.eqb c "-" then (true, tl)
      else if Ascii.eqb c "+" then (false, tl)
      else (false, l)
  | [] => (false, l)
  end.

(** [sys.maxsize]: the largest length a list or a text can have. *)
Definition sys_maxsize : Z := 2 ^ 63 - 1.

(** The interpreter's limit on the digits of a number read from or written
    to a decimal text ([sys.get_int_max_str_digits()], 4300 by default). *)
Definition max_str_digits : nat := 4300.

(** [int(s)] in base ten: [ValueError] for a text that is no number and
    for one of more than [max_str_digits] digits (leading zeros count,
    blanks, sign and underscores do not). *)
Definition py_int (s : string) : res Z :=
  let l := chars s in
  let '(neg, body) := split_sign (strip_by is_space_num l) in
  match digitpart body with
  | Some ds =>
      if (max_str_digits <? List.length ds)%nat then Raise ValueError
      else
        match digits_value ds with
        | Some v => Ok (if neg then - v else v)
        | None => Raise ValueError
        end
  | None => Raise ValueError
  end.

(** The decimal text of an integer. *)
Definition int_text (n : Z) : string :=
  NilZero.string_of_int (Z.to_int n).

(** The number of digits of that text. *)
Definition int_digits (n : Z) : nat :=
  Decimal.nb_digits (Decimal.abs (Z.to_int n)).

(** [str(n)] for an [int]: [ValueError] when the text would have more than
    [max_str_digits] digits. *)
Definition py_str_int (n : Z) : res string :=
  if (max_str_digits <? int_digits n)%nat then Raise ValueError
  else Ok (int_text n).

(** *** Floats *)

Definition prec : Z := 53.
Definition emax : Z := 1024.

(** The binary64 nearest to [m * 10^e] (ties to even), [m > 0]. *)
Definition float_of_decimal (neg : bool) (m : Z) (e : Z) : spec_float :=
  match m with
  | Zpos p =>
      if 0 <=? e then
        binary_round prec emax neg (Pos.mul p (Z.to_pos (10 ^ e))) 0
      else
        let '(q, eq, loc) := SFdiv_core_binary prec emax m 0 (10 ^ (- e)) 0 in
        binary_round_aux prec emax neg q eq loc
  | _ => S754_zero neg
  end.

Definition lower (c : ascii) : ascii :=
  if is_upper c then ascii_of_nat (nat_of_ascii c + 32) else c.

(** Underscores are legal only between two digits. *)
Fixpoint underscores_ok (prev : option ascii) (l : list ascii) : bool :=
  match l with
  | [] => match prev with Some "_"%char => false | _ => true end
  | c :: tl =>
      let after_digit := match prev with Some p => is_digit p | None => false end in
      let after_under := match prev with Some "_"%char => true | _ => false end in
      if Ascii.eqb c "_" then after_digit && underscores_ok (Some c) tl
      else if after_under && negb (is_digit c) then false
      else underscores_ok (Some c) tl
  end.

Fixpoint span_digits (l : list ascii) : list ascii * list ascii :=
  match l with
  | c :: tl =>
      if is_digit c then let '(ds, r) := span_digits tl in (c :: ds, r)
      else ([], l)
  | [] => ([], [])
  end.

(** [[digits][.[digits]][(e|E)[sign]digits]] with a digit in the mantissa:
    [(mantissa digits, decimal exponent)]. *)
Definition parse_decimal (l : list ascii) : option (list ascii * Z) :=
  let '(ip, r1) := span_digits l in
  let '(fp, r2) :=
    match r1 with
    | c :: tl => if Ascii.eqb c "." then span_digits tl else ([], r1)
    | [] => ([], r1)
    end in
  match ip, fp with
  | [], [] => None
  | _, _ =>
      let shift := - Z.of_nat (List.length fp) in
      match r2 with
      | [] => Some ((ip ++ fp)%list, shift)
      | c :: tl =>
          if Ascii.eqb (lower c) "e" then
            let '(eneg, r3) := split_sign tl in
            let '(ed, r4) := span_digits r3 in
            match ed, r4, digits_value ed with
            | _ :: _, [], Some x =>
                Some ((ip ++ fp)%list, shift + (if eneg then - x else x))
            | _, _, _ => None
            end
          else None
      end
  end.

(** [float(s)] *)
Definition py_float (s : string) : res spec_float :=
  let l := chars s in
  let body := strip_by is_space_num l in
  if negb (underscores_ok None body) then Raise ValueError
  else
    let '(neg, r) := split_sign (List.filter (fun c => negb (Ascii.eqb c "_")) body) in
    let w := text (List.map lower r) in
    if String.eqb w "inf" || String.eqb w "infinity" then Ok (S754_infinity neg)
    else if String.eqb w "nan" then Ok S754_nan
    else
      match parse_decimal r with
      | Some (ds, e) =>
          match digits_value ds with
          | Some m => Ok (float_of_decimal neg m e)
          | None => Raise ValueError
          end
      | None => Raise ValueError
      end.

(** [int(x)] for a float: truncation toward zero. *)
Definition float_trunc (f : spec_float) : res Z :=
  match f with
  | S754_zero _ => Ok 0
  | S754_infinity _ => Raise OverflowError
  | S754_nan => Raise ValueError
  | S754_finite s m e =>
      let a := if 0 <=? e then Z.pos m * 2 ^ e else Z.pos m / 2 ^ (- e) in
      Ok (if s then - a else a)
  end.

(** [float(n)] for an [int]: nearest binary64, [OverflowError] beyond. *)
Definition float_of_int (n : Z) : res spec_float :=
  match binary_normalize prec emax n 0 false with
  | S754_infinity _ => Raise OverflowError
  | f => Ok f
  end.

(** ** Values and dictionaries *)

Inductive Orientation : Type := FORWARD | REVERSE.

Definition Orientation_value (o : Orientation) : string :=
  match o with FORWARD => "+" | REVERSE => "-" end.

(** [Orientation(s)]: look-up of an enum member by value. *)
Definition Orientation_of (s : string) : res Orientation :=
  if String.eqb s "+" then Ok FORWARD
  else if String.eqb s "-" then Ok REVERSE
  else Raise ValueError.

(** The Python values a [datas] dictionary can hold: what the field parsers
    store, what [json.loads] builds, and the [(name, orientation)] lists of
    paths and walks. *)
#[local] Set Warnings "-register-all".

Inductive PyVal : Type :=
| PNone
| PBool (b : bool)
| PInt (z : Z)
| PFloat (f : spec_float)
| PStr (s : string)
| PList (l : list PyVal)
| PDict (d : list (string * PyVal))
| PPath (p : list (string * Orientation)).

Definition dict : Type := list (string * PyVal).

Fixpoint dict_get (d : dict) (k : string) : option PyVal :=
  match d with
  | [] => None
  | (k', v) :: tl => if String.eqb k' k then Some v else dict_get tl k
  end.

(** [k in d] *)
Definition dict_contains (d : dict) (k : string) : bool :=
  match dict_get d k with Some _ => true | None => false end.

(** [d[k]] *)
Definition dict_getitem (d : dict) (k : string) : res PyVal :=
  match dict_get d k with
  | Some v => Ok v
  | None => Raise (KeyError k)
  end.

(** [d[k] = v]: a known key keeps its place, a new key goes last. *)
Fixpoint dict_set (d : dict) (k : string) (v : PyVal) : dict :=
  match d with
  | [] => [(k, v)]
  | (k', v') :: tl =>
      if String.eqb k' k then (k', v) :: tl else (k', v') :: dict_set tl k v
  end.

(** [{**d1, **d2}] *)
Definition dict_merge (d1 d2 : dict) : dict :=
  List.fold_left (fun d kv => dict_set d (fst kv) (snd kv)) d2 d1.

(** [v == s] for a [str] [s]. *)
Definition val_eq_str (v : PyVal) (s : string) : bool :=
  match v with PStr t => String.eqb t s | _ => false end.

(** ** [json.loads] *)

Definition is_json_ws (c : ascii) : bool :=
  let n := nat_of_ascii c in
  (n =? 32)%nat || (n =? 9)%nat || (n =? 10)%nat || (n =? 13)%nat.

Definition json_ws (l : list ascii) : list ascii := lstrip_by is_json_ws l.

Definition hex_value (c : ascii) : option nat :=
  let n := nat_of_ascii c in
  if is_digit c then Some (n - 48)%nat
  else if (97 <=? n)%nat && (n <=? 102)%nat then Some (n - 87)%nat
  else if (65 <=? n)%nat && (n <=? 70)%nat then Some (n - 55)%nat
  else None.

(** The double quote character. *)
Definition dquote : ascii := ascii_of_nat 34.

Definition json_escape (c : ascii) : option ascii :=
  match c with
  | "\"%char | "/"%char => Some c
  | "b"%char => Some (ascii_of_nat 8)
  | "f"%char => Some (ascii_of_nat 12)
  | "n"%char => Some (ascii_of_nat 10)
  | "r"%char => Some (ascii_of_nat 13)
  | "t"%char => Some (ascii_of_nat 9)
  | _ => if Ascii.eqb c dquote then Some c else None
  end.

(** The body of a string literal, after its opening quote. *)
Fixpoint json_string (l : list ascii) : res (string * list ascii) :=
  match l with
  | [] => Raise JSONDecodeError
  | c :: tl =>
      if Ascii.eqb c dquote then Ok ("", tl)
      else if Ascii.eqb c "\" then
        match tl with
        | "u"%char :: h1 :: h2 :: h3 :: h4 :: tl' =>
            match hex_value h1, hex_value h2, hex_value h3, hex_value h4 with
            | Some a, Some b, Some c', Some d =>
                if ((a =? 0) && (b =? 0))%nat then
                  r <- json_string tl' ;;
                  Ok (String (ascii_of_nat (16 * c' + d)) (fst r), snd r)
                else Raise OutOfModel
            | _, _, _, _ => Raise JSONDecodeError
            end
        | e :: tl' =>
            match json_escape e with
            | Some x => r <- json_string tl' ;; Ok (String x (fst r), snd r)
            | None => Raise JSONDecodeError
            end
        | [] => Raise JSONDecodeError
        end
      else if (nat_of_ascii c <? 32)%nat then Raise JSONDecodeError
      else r <- json_string tl ;; Ok (String c (fst r), snd r)
  end.

(** The longest prefix that is a JSON number (an optional minus, [0] or a
    digit string without leading zero, an optional fraction with a digit, an
    optional exponent with a digit): [(lexeme, is_float, rest)]. *)
Definition json_number (l : list ascii)
  : option (list ascii * bool * list ascii) :=
  let '(sg, r0) :=
    match l with
    | "-"%char :: tl => (["-"%char], tl)
    | _ => ([], l)
    end in
  let '(ip, r1) :=
    match r0 with
    | "0"%char :: tl => (["0"%char], tl)
    | _ => span_digits r0
    end in
  match ip with
  | [] => None
  | _ =>
      let '(fp, r2) :=
        match r1 with
        | "."%char :: tl =>
            match span_digits tl with
            | ([], _) => ([], r1)
            | (ds, r) => ("."%char :: ds, r)
            end
        | _ => ([], r1)
        end in
      let '(ep, r3) :=
        match r2 with
        | c :: tl =>
            if Ascii.eqb (lower c) "e" then
              let '(sg', tl') :=
                match tl with
                | "+"%char :: t => (["+"%char], t)
                | "-"%char :: t => (["-"%char], t)
                | _ => ([], tl)
                end in
              match span_digits tl' with
              | ([], _) => ([], r2)
              | (ds, r) => ((c :: sg') ++ ds, r)%list
              end
            else ([], r2)
        | [] => ([], r2)
        end in
      Some ((sg ++ ip ++ fp ++ ep)%list,
            match fp, ep with [], [] => false | _, _ => true end, r3)
  end.

(** [l] starts with the characters of [w]: the rest. *)
Fixpoint eat (w : list ascii) (l : list ascii) : option (list ascii) :=
  match w, l with
  | [], _ => Some l
  | a :: w', b :: l' => if Ascii.eqb a b then eat w' l' else None
  | _ :: _, [] => None
  end.

(** [null], [true], [false], the three float constants, or a number. *)
Definition json_atom (l : list ascii) : res (PyVal * list ascii) :=
  match eat (chars "null") l with
  | Some r => Ok (PNone, r)
  | None =>
  match eat (chars "true") l with
  | Some r => Ok (PBool true, r)
  | None =>
  match eat (chars "false") l with
  | Some r => Ok (PBool false, r)
  | None =>
  match eat (chars "NaN") l with
  | Some r => Ok (PFloat S754_nan, r)
  | None =>
  match eat (chars "Infinity") l with
  | Some r => Ok (PFloat (S754_infinity false), r)
  | None =>
  match eat (chars "-Infinity") l with
  | Some r => Ok (PFloat (S754_infinity true), r)
  | None =>
  match json_number l with
  | Some (lexeme, true, r) => f <- py_float (text lexeme) ;; Ok (PFloat f, r)
  | Some (lexeme, false, r) => n <- py_int (text lexeme) ;; Ok (PInt n, r)
  | None => Raise JSONDecodeError
  end end end end end end end.

(** One JSON value at the head of [l], and the rest of the text.  [fuel]
    bounds the recursion; [json_loads] gives two units per character, more
    than a text can use.  The interpreter's recursion limit is not part of
    the model. *)
Fixpoint json_scan (fuel : nat) (l : list ascii) {struct fuel}
  : res (PyVal * list ascii) :=
  match fuel with
  | O => Raise OutOfModel
  | S n =>
      match l with
      | "{"%char :: tl =>
          match json_ws tl with
          | "}"%char :: r => Ok (PDict [], r)
          | r => json_members n [] r
          end
      | "["%char :: tl =>
          match json_ws tl with
          | "]"%char :: r => Ok (PList [], r)
          | r => json_items n [] r
          end
      | c :: tl =>
          if Ascii.eqb c dquote then
            r <- json_string tl ;; Ok (PStr (fst r), snd r)
          else json_atom l
      | [] => json_atom l
      end
  end

with json_items (fuel : nat) (acc : list PyVal) (l : list ascii) {struct fuel}
  : res (PyVal * list ascii) :=
  match fuel with
  | O => Raise OutOfModel
  | S n =>
      r <- json_scan n l ;;
      let acc' := (acc ++ [fst r])%list in
      match json_ws (snd r) with
      | "]"%char :: r' => Ok (PList acc', r')
      | ","%char :: r' => json_items n acc' (json_ws r')
      | _ => Raise JSONDecodeError
      end
  end

with json_members (fuel : nat) (acc : dict) (l : list ascii) {struct fuel}
  : res (PyVal * list ascii) :=
  match fuel with
  | O => Raise OutOfModel
  | S n =>
      match l with
      | c :: tl =>
          if negb (Ascii.eqb c dquote) then Raise JSONDecodeError
          else
            k <- json_string tl ;;
            match json_ws (snd k) with
            | ":"%char :: r1 =>
                v <- json_scan n (json_ws r1) ;;
                let acc' := dict_set acc (fst k) (fst v) in
                match json_ws (snd v) with
                | "}"%char :: r' => Ok (PDict acc', r')
                | ","%char :: r' => json_members n acc' (json_ws r')
                | _ => Raise JSONDecodeError
                end
            | _ => Raise JSONDecodeError
            end
      | [] => Raise JSONDecodeError
      end
  end.

(** [json.loads(s)]: one value, blanks allowed around it, nothing after. *)
Definition json_loads (s : string) : res PyVal :=
  let l := chars s in
  r <- json_scan (2 * List.length l + 2) (json_ws l) ;;
  match json_ws (snd r) with
  | [] => Ok (fst r)
  | _ => Raise JSONDecodeError
  end.

(** Whether an [int] has a decimal text within the digit limit. *)
Definition int_str_ok (n : Z) : bool :=
  negb (max_str_digits <? int_digits n)%nat.

(** [json.dumps(v)] returns: it raises [TypeError] when [v] holds an object
    that is no JSON value (here an [Orientation] inside a path list) and
    [ValueError] when [v] holds an [int] beyond the digit limit; [dtype]
    turns the first into [ValueError] and lets the second pass. *)
Fixpoint json_dumps_ok (v : PyVal) : bool :=
  match v with
  | PInt n => int_str_ok n
  | PList l => List.forallb json_dumps_ok l
  | PDict d => List.forallb (fun kv => json_dumps_ok (snd kv)) d
  | PPath p => match p with [] => true | _ :: _ => false end
  | _ => true
  end.

(** ** Rendering values: [str] and [repr] *)

Definition hex_char (n : nat) : ascii :=
  List.nth n (chars "0123456789abcdef") "0"%char.

(** [repr] of one character inside quotes [q]. *)
Definition repr_char (q c : ascii) : list ascii :=
  let n := nat_of_ascii c in
  if Ascii.eqb c q || Ascii.eqb c "\" then ["\"%char; c]
  else if (n =? 9)%nat then chars "\t"
  else if (n =? 10)%nat then chars "\n"
  else if (n =? 13)%nat then chars "\r"
  else if (n <? 32)%nat || (n =? 127)%nat
          || ((128 <=? n)%nat && (n <=? 160)%nat) || (n =? 173)%nat
       then ["\"%char; "x"%char; hex_char (n / 16); hex_char (n mod 16)]
  else [c].

(** [repr(s)]: single quotes, unless [s] holds one and no double quote. *)
Definition repr_str (s : string) : string :=
  let l := chars s in
  let has c := List.existsb (Ascii.eqb c) l in
  let q := if has "'"%char && negb (has dquote) then dquote else "'"%char in
  text (q :: List.flat_map (repr_char q) l ++ [q])%list.

Definition repr_Orientation (o : Orientation) : string :=
  match o with
  | FORWARD => "<Orientation.FORWARD: '+'>"
  | REVERSE => "<Orientation.REVERSE: '-'>"
  end.

Section Rendering.

(** [repr] of a float (the shortest decimal text that reads back as the
    same float) is a parameter of the model. *)
Variable float_repr : spec_float -> string.

Fixpoint py_repr (v : PyVal) : string :=
  match v with
  | PNone => "None"
  | PBool b => if b then "True" else "False"
  | PInt z => int_text z
  | PFloat f => float_repr f
  | PStr s => repr_str s
  | PList l => "[" ++ str_join ", " (List.map py_repr l) ++ "]"
  | PDict d =>
      "{" ++ str_join ", "
        (List.map (fun kv => repr_str (fst kv) ++ ": " ++ py_repr (snd kv)) d)
      ++ "}"
  | PPath p =>
      "[" ++ str_join ", "
        (List.map (fun no => "(" ++ repr_str (fst no) ++ ", "
                             ++ repr_Orientation (snd no) ++ ")") p)
      ++ "]"
  end.

(** The text of [str(v)].  [py_repr] and [py_str] give the text that
    [repr] and [str] return when they return; [format_value] below is the
    call itself, with the digit limit. *)
Definition py_str (v : PyVal) : string :=
  match v with
  | PStr s => s
  | _ => py_repr v
  end.

(** Every [int] inside [v] has a decimal text within the digit limit. *)
Fixpoint str_ok (v : PyVal) : bool :=
  match v with
  | PInt n => int_str_ok n
  | PList l => List.forallb str_ok l
  | PDict d => List.forallb (fun kv => str_ok (snd kv)) d
  | _ => true
  end.

(** [str(v)], also what an f-string field [{v}] does: [ValueError] when an
    [int] to write is beyond the digit limit. *)
Definition format_value (v : PyVal) : res string :=
  if str_ok v then Ok (py_str v) else Raise ValueError.

End Rendering.

(** ** The tag codec *)

(** [gtype]: the cast for a tag type letter. *)
Definition gtype (tag_type : string) : res (string -> res PyVal) :=
  if String.eqb tag_type "i" then
    Ok (fun s => n <- py_int s ;; Ok (PInt n))
  else if String.eqb tag_type "f" then
    Ok (fun s => f <- py_float s ;; Ok (PFloat f))
  else if String.eqb tag_type "A" || String.eqb tag_type "Z" then
    Ok (fun s => Ok (PStr s))
  else if String.eqb tag_type "J" then
    Ok json_loads
  else if String.eqb tag_type "H" || String.eqb tag_type "B" then
    Raise NotImplementedError
  else Raise ValueError.

(** [dtype]: the tag type letter of a value ([bool] is an [int]). *)
Definition dtype (data : PyVal) : res string :=
  match data with
  | PInt _ | PBool _ => Ok "i"
  | PFloat _ => Ok "f"
  | PStr _ => Ok "Z"
  | _ => if json_dumps_ok data then Ok "J" else Raise ValueError
  end.

(** [re.match('[A-Z]{2}:[a-zA-Z]{1}:', s)] succeeds. *)
Definition tag_match (s : string) : bool :=
  match chars s with
  | k1 :: k2 :: c1 :: t :: c2 :: _ =>
      is_upper k1 && is_upper k2 && Ascii.eqb c1 ":" && is_alpha t
      && Ascii.eqb c2 ":"
  | _ => false
  end.

(** The loop of [supplementary_datas] over the trailing tokens. *)
Fixpoint extra_fields (tokens : list string) (mapping : dict) (nargs : Z)
  : res dict :=
  match tokens with
  | [] => Ok mapping
  | additional_tag :: tl =>
      if tag_match additional_tag then
        letter <- str_getitem additional_tag 3 ;;
        cast <- gtype letter ;;
        v <- cast (str_slice additional_tag (Some 5) None) ;;
        extra_fields tl
          (dict_set mapping (str_slice additional_tag None (Some 2)) v) nargs
      else
        n <- py_str_int nargs ;;
        extra_fields tl (dict_set mapping ("ARG" ++ n) (PStr additional_tag))
          (nargs + 1)
  end.

Definition supplementary_datas (datas : list string) (length_condition : Z)
  : res dict :=
  if length_condition <? Z.of_nat (List.length datas) then
    extra_fields (py_slice datas (Some length_condition) None) []
      length_condition
  else Ok [].

(** ** Styles, line types and records *)

Inductive GfaStyle : Type := RGFA | GFA1 | GFA1_1 | GFA1_2 | GFA2 | UNK.

Definition GfaStyle_value (s : GfaStyle) : string :=
  match s with
  | RGFA => "rGFA"
  | GFA1 => "GFA1"
  | GFA1_1 => "GFA1.1"
  | GFA1_2 => "GFA1.2"
  | GFA2 => "GFA2"
  | UNK => "unknown"
  end.

Definition GfaStyle_eqb (a b : GfaStyle) : bool :=
  String.eqb (GfaStyle_value a) (GfaStyle_value b).

(** [GfaStyle(gfa_type)]: look-up of an enum member by value. *)
Definition GfaStyle_of (gfa_type : string) : res GfaStyle :=
  match List.find (fun s => String.eqb (GfaStyle_value s) gfa_type)
          [RGFA; GFA1; GFA1_1; GFA1_2; GFA2; UNK] with
  | Some s => Ok s
  | None => Raise ValueError
  end.

(** The classes a record is given by [LineType]. *)
Inductive LineClass : Type :=
| Header | Segment | Line | Containment | Path | Walk | Jump | Other.

Definition LineClass_eqb (a b : LineClass) : bool :=
  match a, b with
  | Header, Header | Segment, Segment | Line, Line
  | Containment, Containment | Path, Path | Walk, Walk
  | Jump, Jump | Other, Other => true
  | _, _ => false
  end.

(** The keyword arguments of the field parsers: [ws] when given. *)
Record kwargs : Type := { ws : option bool }.

Definition kwargs_ws (kw : kwargs) : res bool :=
  match ws kw with
  | Some b => Ok b
  | None => Raise (KeyError "ws")
  end.

Definition tab : ascii := ascii_of_nat 9.
Definition newline : ascii := ascii_of_nat 10.

(** *** The field parsers *)

Definition default (datas : list string) (gfa_style : GfaStyle) (kw : kwargs)
  : res dict :=
  if GfaStyle_eqb gfa_style RGFA then Raise ValueError
  else supplementary_datas datas 0.

Definition header (datas : list string) (gfa_style : GfaStyle) (kw : kwargs)
  : res dict :=
  if GfaStyle_eqb gfa_style RGFA then Raise ValueError
  else supplementary_datas datas 1.

Definition segment (datas : list string) (gfa_style : GfaStyle) (kw : kwargs)
  : res dict :=
  d1 <- py_getitem datas 1 ;;
  let line_datas := dict_set [] "name" (PStr (sub_nondigits d1)) in
  d2 <- py_getitem datas 2 ;;
  let line_datas := dict_set line_datas "length" (PInt (str_len d2)) in
  with_seq <- kwargs_ws kw ;;
  line_datas <-
    (if with_seq then
       d2' <- py_getitem datas 2 ;; Ok (dict_set line_datas "seq" (PStr d2'))
     else Ok line_datas) ;;
  extra <- supplementary_datas datas 3 ;;
  Ok (dict_merge line_datas extra).

Definition line (datas : list string) (gfa_style : GfaStyle) (kw : kwargs)
  : res dict :=
  d1 <- py_getitem datas 1 ;;
  let line_datas := dict_set [] "start" (PStr (sub_nondigits d1)) in
  d3 <- py_getitem datas 3 ;;
  let line_datas := dict_set line_datas "end" (PStr (sub_nondigits d3)) in
  d2 <- py_getitem datas 2 ;;
  d4 <- py_getitem datas 4 ;;
  let line_datas :=
    dict_set line_datas "orientation" (PStr (d2 ++ "/" ++ d4)) in
  extra <- supplementary_datas datas 5 ;;
  Ok (dict_merge line_datas extra).

Definition containment (datas : list string) (gfa_style : GfaStyle)
  (kw : kwargs) : res dict :=
  if GfaStyle_eqb gfa_style RGFA then Raise ValueError
  else supplementary_datas datas 1.

(** One step of a P-line: [(node[:-1], Orientation(node[-1]))]. *)
Definition path_node (node : string) : res (string * Orientation) :=
  let name := str_slice node None (Some (-1)) in
  last <- str_getitem node (-1) ;;
  o <- Orientation_of last ;;
  Ok (name, o).

Definition path (datas : list string) (gfa_style : GfaStyle) (kw : kwargs)
  : res dict :=
  if GfaStyle_eqb gfa_style RGFA then Raise ValueError
  else
    d1 <- py_getitem datas 1 ;;
    let line_datas := dict_set [] "name" (PStr d1) in
    d2 <- py_getitem datas 2 ;;
    nodes <- mapM path_node (str_split "," d2) ;;
    let line_datas := dict_set line_datas "path" (PPath nodes) in
    extra <- supplementary_datas datas 7 ;;
    Ok (dict_merge line_datas extra).

(** One step of a W-line: [(node[1:], Orientation(node[0]))]. *)
Definition walk_node (node : string) : res (string * Orientation) :=
  let name := str_slice node (Some 1) None in
  first <- str_getitem node 0 ;;
  o <- Orientation_of first ;;
  Ok (name, o).

Definition walk (datas : list string) (gfa_style : GfaStyle) (kw : kwargs)
  : res dict :=
  if GfaStyle_eqb gfa_style RGFA || GfaStyle_eqb gfa_style GFA1 then
    Raise ValueError
  else
    d3 <- py_getitem datas 3 ;;
    let line_datas := dict_set [] "id" (PStr d3) in
    d2 <- py_getitem datas 2 ;;
    origin <- py_int d2 ;;
    let line_datas := dict_set line_datas "origin" (PInt origin) in
    d1 <- py_getitem datas 1 ;;
    let line_datas := dict_set line_datas "name" (PStr d1) in
    d4 <- py_getitem datas 4 ;;
    let line_datas := dict_set line_datas "start_offset" (PStr d4) in
    d5 <- py_getitem datas 5 ;;
    let line_datas := dict_set line_datas "stop_offset" (PStr d5) in
    d6 <- py_getitem datas 6 ;;
    let steps :=
      str_slice (str_replace "<" ",-" (str_replace ">" ",+" d6)) (Some 1) None in
    nodes <- mapM walk_node (str_split "," steps) ;;
    let line_datas := dict_set line_datas "path" (PPath nodes) in
    extra <- supplementary_datas datas 7 ;;
    Ok (dict_merge line_datas extra).

Definition jump (datas : list string) (gfa_style : GfaStyle) (kw : kwargs)
  : res dict :=
  if GfaStyle_eqb gfa_style RGFA || GfaStyle_eqb gfa_style GFA1
     || GfaStyle_eqb gfa_style GFA1_1 then Raise ValueError
  else supplementary_datas datas 1.

(** [LineType(key)]: the parser and the class for a leading character. *)
Definition LineType (key : string)
  : (list string -> GfaStyle -> kwargs -> res dict) * LineClass :=
  if String.eqb key "H" then (header, Header)
  else if String.eqb key "S" then (segment, Segment)
  else if String.eqb key "L" then (line, Line)
  else if String.eqb key "C" then (containment, Containment)
  else if String.eqb key "P" then (path, Path)
  else if String.eqb key "W" then (walk, Walk)
  else if String.eqb key "J" then (jump, Jump)
  else (default, Other).

(** A record object: its class and its field dictionary, and the style
    [Record.__init__] sets ([None] on an object that has no such attribute,
    as one made by calling the class). *)
Record GfaRecord : Type := {
  gfastyle : option GfaStyle;
  linetype : LineClass;
  datas : dict
}.

Definition set_datas (r : GfaRecord) (d : dict) : GfaRecord :=
  {| gfastyle := gfastyle r; linetype := linetype r; datas := d |}.

(** [Record(gfa_data_line, gfa_type, kwargs)] *)
Definition Record_init (gfa_data_line gfa_type : string) (kw : kwargs)
  : res GfaRecord :=
  let fields := str_split tab (str_strip newline gfa_data_line) in
  style <- GfaStyle_of gfa_type ;;
  key <- str_getitem gfa_data_line 0 ;;
  let '(func, cls) := LineType key in
  d <- func fields style kw ;;
  Ok {| gfastyle := Some style; linetype := cls; datas := d |}.

(** ** Dynamic operations on field values *)

(** [len(v)] *)
Definition py_len (v : PyVal) : res Z :=
  match v with
  | PStr s => Ok (str_len s)
  | PList l => Ok (Z.of_nat (List.length l))
  | PDict d => Ok (Z.of_nat (List.length d))
  | PPath p => Ok (Z.of_nat (List.length p))
  | _ => Raise TypeError
  end.

(** ['N' * v] *)
Definition repeat_N (v : PyVal) : res PyVal :=
  match v with
  | PInt n => Ok (PStr (str_repeat "N" n))
  | PBool b => Ok (PStr (str_repeat "N" (if b then 1 else 0)))
  | _ => Raise TypeError
  end.

(** [v[lo:hi]] *)
Definition val_slice (v : PyVal) (lo hi : option Z) : res PyVal :=
  match v with
  | PStr s => Ok (PStr (str_slice s lo hi))
  | PList l => Ok (PList (py_slice l lo hi))
  | PPath p => Ok (PPath (py_slice p lo hi))
  | _ => Raise TypeError
  end.

(** [int(v)] *)
Definition val_int (v : PyVal) : res Z :=
  match v with
  | PInt n => Ok n
  | PBool b => Ok (if b then 1 else 0)
  | PFloat f => float_trunc f
  | PStr s => py_int s
  | _ => Raise TypeError
  end.

(** [v + n] for an [int] [n]. *)
Definition val_add_int (v : PyVal) (n : Z) : res PyVal :=
  match v with
  | PInt m => Ok (PInt (m + n))
  | PBool b => Ok (PInt ((if b then 1 else 0) + n))
  | PFloat f => g <- float_of_int n ;; Ok (PFloat (SFadd prec emax f g))
  | _ => Raise TypeError
  end.

(** [''.join(l)]: every item must be a [str]. *)
Fixpoint join_vals (l : list PyVal) : res string :=
  match l with
  | [] => Ok ""
  | PStr s :: tl => r <- join_vals tl ;; Ok (s ++ r)
  | _ :: _ => Raise TypeError
  end.

(** [v.split('/')]: only a [str] has the method. *)
Definition val_split (v : PyVal) : res (list string) :=
  match v with
  | PStr s => Ok (str_split "/" s)
  | _ => Raise AttributeError
  end.

(** How many items an unpacking [(a, b) = item] finds: [None] for an item
    that cannot be iterated. *)
Definition unpack_size (item : PyVal) : option nat :=
  match item with
  | PStr s => Some (String.length s)
  | PList l => Some (List.length l)
  | PDict d => Some (List.length d)
  | PPath p => Some (List.length p)
  | PNone | PBool _ | PInt _ | PFloat _ => None
  end.

(** The first round of a loop [for (a, b) in v], when [v] is no list of
    steps: [TypeError] for an item that cannot be unpacked, [ValueError] for
    one that has not two items; an item that unpacks is outside the model. *)
Definition first_unpack (item : PyVal) : exn :=
  match unpack_size item with
  | None => TypeError
  | Some n => if (n =? 2)%nat then OutOfModel else ValueError
  end.

(** The steps the loops [for ..., (node, _) in enumerate(v)] and
    [for node_name, orient in v] run over, for the value [v] of a ['path']
    field.  The parsers store a list of [(name, orientation)] pairs.  An
    empty text, list or dictionary gives no round; a number, [None] or a
    boolean cannot be iterated ([TypeError]); the items of a text are its
    characters (one item each, where two are needed) and those of a
    dictionary its keys, which are texts.  What the first round raises
    otherwise is in [first_unpack]. *)
Definition val_path (v : PyVal) : res (list (string * Orientation)) :=
  match v with
  | PPath p => Ok p
  | PNone | PBool _ | PInt _ | PFloat _ => Raise TypeError
  | PStr "" | PList [] | PDict [] => Ok []
  | PStr (String _ _) => Raise ValueError
  | PList (item :: _) => Raise (first_unpack item)
  | PDict ((k, _) :: _) => Raise (first_unpack (PStr k))
  end.

(** The [str] a ['name'] field holds once it compared equal to a [str]. *)
Definition val_str (v : PyVal) : res string :=
  match v with
  | PStr s => Ok s
  | _ => Raise TypeError
  end.

(** ** Writing records back *)

Definition TAB : string := String tab "".
Definition NL : string := String newline "".

Section Writing.

(** [repr] of a float, as in [py_repr]. *)
Variable float_repr : spec_float -> string.

(** [f"{key}:{dtype(value)}:{value}" if not key.startswith('ARG') else
    str(value)] *)
Definition tag_text (kv : string * PyVal) : res string :=
  let '(key, value) := kv in
  if negb (str_startswith "ARG" key) then
    t <- dtype value ;;
    s <- format_value float_repr value ;;
    Ok (key ++ ":" ++ t ++ ":" ++ s)
  else format_value float_repr value.

(** The tab-joined tags of [d], the keys of [skip] left out. *)
Definition tags_text (skip : list string) (d : dict) : res string :=
  l <- mapM tag_text
         (List.filter
            (fun kv => negb (List.existsb (String.eqb (fst kv)) skip)) d) ;;
  Ok (str_join TAB l).

Definition write_path (way : GfaRecord) (gfa_format : GfaStyle)
  (line_number : Z) : res string :=
  if GfaStyle_eqb gfa_format GFA1 then
    v <- dict_getitem (datas way) "path" ;;
    p <- val_path v ;;
    let strpath :=
      str_join ","
        (List.map (fun no => fst no ++ match snd no with
                                       | FORWARD => "+"
                                       | REVERSE => "-"
                                       end) p) in
    name <- dict_getitem (datas way) "name" ;;
    name <- format_value float_repr name ;;
    Ok ("P" ++ TAB ++ name ++ TAB ++ strpath ++ TAB ++ "*")
  else if GfaStyle_eqb gfa_format GFA1_1 || GfaStyle_eqb gfa_format GFA1_2
          || GfaStyle_eqb gfa_format GFA2 then
    let offset_start :=
      match dict_get (datas way) "start_offset" with
      | Some x => x
      | None => PStr "?"
      end in
    let offset_stop :=
      match dict_get (datas way) "stop_offset" with
      | Some x => x
      | None => PStr "?"
      end in
    v <- dict_getitem (datas way) "path" ;;
    p <- val_path v ;;
    let strpath :=
      str_join ""
        (List.map (fun no => match snd no with
                             | FORWARD => ">"
                             | REVERSE => "<"
                             end ++ fst no) p) in
    name <- dict_getitem (datas way) "name" ;;
    let origin :=
      match dict_get (datas way) "origin" with
      | Some x => x
      | None => PInt line_number
      end in
    name <- format_value float_repr name ;;
    origin <- format_value float_repr origin ;;
    offset_start <- format_value float_repr offset_start ;;
    offset_stop <- format_value float_repr offset_stop ;;
    Ok ("W" ++ TAB ++ name ++ TAB ++ origin ++ TAB ++ name ++ TAB
        ++ offset_start ++ TAB ++ offset_stop ++ TAB ++ strpath ++ TAB ++ "*"
        ++ NL)
  else Ok "".

End Writing.

(** ** The graph *)

Module Graph.

(** The attributes of a [Graph] the text methods use (the [networkx]
    object and the colours of the display are left out). *)
Record t : Type := {
  version : GfaStyle;
  headers : list GfaRecord;
  segments : list GfaRecord;
  lines : list GfaRecord;
  containment : list GfaRecord;
  paths : list GfaRecord;
  walks : list GfaRecord;
  jumps : list GfaRecord;
  others : list GfaRecord
}.

Definition isinstance (cls : LineClass) (rec : GfaRecord) : bool :=
  LineClass_eqb (linetype rec) cls.

(** [Graph(gfa_file, gfa_type, with_sequence)]; [gfa_file] stands for the
    lines the opened file yields, each with its line end.  The records are
    gathered in one list, and a list holds at most [sys_maxsize] items: a
    longer file is outside the model. *)
Definition init (gfa_file : list string) (gfa_type : string)
  (with_sequence : bool) : res t :=
  style <- GfaStyle_of gfa_type ;;
  _ <- (if sys_maxsize <? Z.of_nat (List.length gfa_file)
        then Raise OutOfModel else Ok tt) ;;
  gfa_lines <-
    mapM (fun gfa_line =>
            Record_init gfa_line gfa_type {| ws := Some with_sequence |})
         gfa_file ;;
  Ok {| version := style;
        headers := List.filter (isinstance Header) gfa_lines;
        segments := List.filter (isinstance Segment) gfa_lines;
        lines := List.filter (isinstance Line) gfa_lines;
        containment := List.filter (isinstance Containment) gfa_lines;
        paths := List.filter (isinstance Path) gfa_lines;
        walks := List.filter (isinstance Walk) gfa_lines;
        jumps := List.filter (isinstance Jump) gfa_lines;
        others := List.filter (isinstance Other) gfa_lines |}.

Definition set_version (g : t) (v : GfaStyle) : t :=
  {| version := v; headers := headers g; segments := segments g;
     lines := lines g; containment := containment g; paths := paths g;
     walks := walks g; jumps := jumps g; others := others g |}.

Definition set_segments (g : t) (l : list GfaRecord) : t :=
  {| version := version g; headers := headers g; segments := l;
     lines := lines g; containment := containment g; paths := paths g;
     walks := walks g; jumps := jumps g; others := others g |}.

Definition set_lines (g : t) (l : list GfaRecord) : t :=
  {| version := version g; headers := headers g; segments := segments g;
     lines := l; containment := containment g; paths := paths g;
     walks := walks g; jumps := jumps g; others := others g |}.

Definition set_paths (g : t) (l : list GfaRecord) : t :=
  {| version := version g; headers := headers g; segments := segments g;
     lines := lines g; containment := containment g; paths := l;
     walks := walks g; jumps := jumps g; others := others g |}.

Definition set_walks (g : t) (l : list GfaRecord) : t :=
  {| version := version g; headers := headers g; segments := segments g;
     lines := lines g; containment := containment g; paths := paths g;
     walks := l; jumps := jumps g; others := others g |}.

(** *** Look-ups *)

(** The first position whose record satisfies [p], or the first error
    met on the way. *)
Fixpoint find_position (p : GfaRecord -> res bool) (i : nat)
  (l : list GfaRecord) : res (option nat) :=
  match l with
  | [] => Ok None
  | rec :: tl =>
      b <- p rec ;;
      if b then Ok (Some i) else find_position p (S i) tl
  end.

Definition name_is (node : string) (rec : GfaRecord) : res bool :=
  v <- dict_getitem (datas rec) "name" ;; Ok (val_eq_str v node).

Definition get_segment_position (g : t) (node : string) : res nat :=
  r <- find_position (name_is node) 0 (segments g) ;;
  match r with
  | Some i => Ok i
  | None => Raise ValueError
  end.

Definition get_segment (g : t) (node : string) : res GfaRecord :=
  i <- get_segment_position g node ;;
  match List.nth_error (segments g) i with
  | Some seg => Ok seg
  | None => Raise ValueError
  end.

Definition get_path_list (g : t) : list GfaRecord :=
  (paths g ++ walks g)%list.

Definition get_path (g : t) (name : string) : res GfaRecord :=
  r <- find_position (name_is name) 0 (get_path_list g) ;;
  match r with
  | Some i =>
      match List.nth_error (get_path_list g) i with
      | Some gpath => Ok gpath
      | None => Raise ValueError
      end
  | None => Raise ValueError
  end.

Definition assert_format (g : t) : GfaStyle * t :=
  let ver := version g in
  let ver :=
    if (0 <? List.length (others g))%nat then GFA2
    else if (0 <? List.length (jumps g))%nat then GFA1_2
    else if (0 <? List.length (walks g))%nat then GFA1_1
    else if ((0 <? List.length (headers g))%nat
             || (0 <? List.length (paths g))%nat) then GFA1
    else RGFA in
  (ver, set_version g ver).

(** [node == edge.datas['start'] or node == edge.datas['stop']] *)
Definition touches (node : string) (edge : GfaRecord) : res bool :=
  a <- dict_getitem (datas edge) "start" ;;
  if val_eq_str a node then Ok true
  else b <- dict_getitem (datas edge) "stop" ;; Ok (val_eq_str b node).

Fixpoint filterM {A : Type} (p : A -> res bool) (l : list A)
  : res (list A) :=
  match l with
  | [] => Ok []
  | x :: tl =>
      b <- p x ;;
      r <- filterM p tl ;;
      Ok (if b then x :: r else r)
  end.

Definition get_edges (g : t) (node : string) : res (list GfaRecord) :=
  filterM (touches node) (lines g).

Definition get_edges_positions (g : t) (node : string) : res (list nat) :=
  r <- filterM (fun ie => touches node (snd ie)) (enumerate (lines g)) ;;
  Ok (List.map fst r).

(** *** Methods that change the graph

    A method that mutates [self] is a function from the graph to a result
    and the graph as the call leaves it, also when it raises.  A record
    held in a Python variable is referred to by its position in its list. *)

Definition M (A : Type) : Type := t -> res A * t.

Definition ret {A : Type} (a : A) : M A := fun g => (Ok a, g).

Definition raise {A : Type} (e : exn) : M A := fun g => (Raise e, g).

Definition lift {A : Type} (c : res A) : M A := fun g => (c, g).

Definition read {A : Type} (f : t -> res A) : M A := fun g => (f g, g).

Definition bindM {A B : Type} (c : M A) (k : A -> M B) : M B :=
  fun g =>
    match c g with
    | (Ok a, g') => k a g'
    | (Raise e, g') => (Raise e, g')
    end.

Notation "x <~ c ;; k" := (bindM c (fun x => k))
  (at level 61, c at next level, right associativity).

Notation "c ;;; k" := (bindM c (fun _ => k))
  (at level 61, right associativity).

(** [for x in l: body(x)] *)
Fixpoint for_each {A : Type} (l : list A) (body : A -> M unit) : M unit :=
  match l with
  | [] => ret tt
  | x :: tl => body x ;;; for_each tl body
  end.

Fixpoint list_update {A : Type} (l : list A) (i : nat) (x : A) : list A :=
  match l, i with
  | [], _ => []
  | _ :: tl, O => x :: tl
  | y :: tl, S j => y :: list_update tl j x
  end.

Definition record_at (l : list GfaRecord) (i : nat) : res GfaRecord :=
  match List.nth_error l i with
  | Some rec => Ok rec
  | None => Raise IndexError
  end.

Definition segment_at (i : nat) : M GfaRecord :=
  read (fun g => record_at (segments g) i).

Definition line_at (i : nat) : M GfaRecord :=
  read (fun g => record_at (lines g) i).

(** [self.segments[i].datas[k] = v] *)
Definition set_segment_field (i : nat) (k : string) (v : PyVal) : M unit :=
  fun g =>
    match List.nth_error (segments g) i with
    | Some seg =>
        (Ok tt,
         set_segments g
           (list_update (segments g) i
              (set_datas seg (dict_set (datas seg) k v))))
    | None => (Raise IndexError, g)
    end.

(** [self.lines[i].datas[k] = v] *)
Definition set_line_field (i : nat) (k : string) (v : PyVal) : M unit :=
  fun g =>
    match List.nth_error (lines g) i with
    | Some edge =>
        (Ok tt,
         set_lines g
           (list_update (lines g) i
              (set_datas edge (dict_set (datas edge) k v))))
    | None => (Raise IndexError, g)
    end.

(** [self.segments.append(rec)] and [self.lines.append(rec)] *)
Definition append_segment (rec : GfaRecord) : M unit :=
  fun g => (Ok tt, set_segments g (segments g ++ [rec])%list).

Definition append_line (rec : GfaRecord) : M unit :=
  fun g => (Ok tt, set_lines g (lines g ++ [rec])%list).

(** The records of [l] rewritten in order by [f]; an exception leaves the
    records before it rewritten and the others as they were. *)
Fixpoint each_record (f : GfaRecord -> res GfaRecord) (l : list GfaRecord)
  : res unit * list GfaRecord :=
  match l with
  | [] => (Ok tt, [])
  | rec :: tl =>
      match f rec with
      | Ok rec' =>
          let '(r, tl') := each_record f tl in (r, rec' :: tl')
      | Raise e => (Raise e, rec :: tl)
      end
  end.

(** [for ipath in self.get_path_list(): ipath.datas['path'] = f(...)]:
    the paths, then the walks. *)
Definition each_path (f : GfaRecord -> res GfaRecord) : M unit :=
  fun g =>
    match each_record f (paths g) with
    | (Ok _, ps) =>
        let '(r, ws) := each_record f (walks (set_paths g ps)) in
        (r, set_walks (set_paths g ps) ws)
    | (Raise e, ps) => (Raise e, set_paths g ps)
    end.

(** The loop body over one path: [f] reads [rec.datas['path']] and gives
    the list to assign to it, [None] when the body assigns nothing. *)
Definition on_path
  (f : list (string * Orientation)
       -> res (option (list (string * Orientation))))
  (rec : GfaRecord) : res GfaRecord :=
  v <- dict_getitem (datas rec) "path" ;;
  p <- val_path v ;;
  r <- f p ;;
  match r with
  | Some p' => Ok (set_datas rec (dict_set (datas rec) "path" (PPath p')))
  | None => Ok rec
  end.

(** *** [split_segments] *)

(** [future_segment_name] is a [str] or a list of [str]; both are
    iterable, so a [str] is used as it is: its items are its characters. *)
Inductive names_arg : Type :=
| NameStr (s : string)
| NameList (l : list string).

Definition names_items (a : names_arg) : list string :=
  match a with
  | NameStr s => List.map (fun c => String c "") (chars s)
  | NameList l => l
  end.

(** [position_to_split] is an [int] (not iterable: wrapped in a list) or a
    list of [int]. *)
Inductive positions_arg : Type :=
| PosInt (z : Z)
| PosList (l : list Z).

Definition positions_items (a : positions_arg) : list Z :=
  match a with
  | PosInt z => [z]
  | PosList l => l
  end.

(** An instance made by calling a line class with no argument, as in
    [Segment()] and [Line()].  These classes only annotate [datas],
    [gfastyle] and [linetype]: a new instance has none of the attributes. *)
Record instance : Type := {
  inst_class : LineClass;
  inst_datas : option dict
}.

Definition new_instance (cls : LineClass) : instance :=
  {| inst_class := cls; inst_datas := None |}.

(** [obj.datas] *)
Definition getattr_datas (obj : instance) : res dict :=
  match inst_datas obj with
  | Some d => Ok d
  | None => Raise AttributeError
  end.

(** The first loop: the edges of the node, by position.  [orient] is
    the value the variable holds so far. *)
Fixpoint split_edges (segment_name : string) (future_segment_name : list string)
  (edges_of_node : list nat) (orient : string) : M string :=
  match edges_of_node with
  | [] => ret orient
  | e :: tl =>
      edge <~ line_at e ;;
      st <~ lift (dict_getitem (datas edge) "start") ;;
      if val_eq_str st segment_name then
        orient' <~ lift (v <- dict_getitem (datas edge) "orientation" ;;
                         parts <- val_split v ;;
                         py_getitem parts 0) ;;
        last <~ lift (py_getitem future_segment_name (-1)) ;;
        set_line_field e "start" (PStr last) ;;;
        split_edges segment_name future_segment_name tl orient'
      else
        orient' <~ lift (v <- dict_getitem (datas edge) "orientation" ;;
                         parts <- val_split v ;;
                         py_getitem parts (-1)) ;;
        split_edges segment_name future_segment_name tl orient'
  end.

(** The inner loop over one path: [items] is the enumeration of the list
    the loop started on, [cur] the list [ipath.datas['path']] holds now
    ([None] while nothing was assigned). *)
Fixpoint split_path_loop (segment_name : string)
  (future_segment_name : list string) (orient : string)
  (items : list (nat * (string * Orientation)))
  (start : list (string * Orientation))
  (cur : option (list (string * Orientation)))
  : res (option (list (string * Orientation))) :=
  match items with
  | [] => Ok cur
  | (posx, (node, _)) :: tl =>
      if String.eqb node segment_name then
        let now := match cur with Some p => p | None => start end in
        let before := py_slice now None (Some (Z.of_nat posx)) in
        inserted <- mapM (fun nname =>
                            o <- Orientation_of orient ;; Ok (nname, o))
                         future_segment_name ;;
        let after := py_slice now (Some (Z.of_nat posx)) None in
        split_path_loop segment_name future_segment_name orient tl start
          (Some (before ++ inserted ++ after)%list)
      else
        split_path_loop segment_name future_segment_name orient tl start cur
  end.

Definition split_path (segment_name : string)
  (future_segment_name : list string) (orient : string)
  (p : list (string * Orientation))
  : res (option (list (string * Orientation))) :=
  split_path_loop segment_name future_segment_name orient (enumerate p) p
    None.

(** The body of the main loop, for index [i] and position [pos1]. *)
Definition split_step (segment_name : string)
  (future_segment_name : list string) (sequence : PyVal) (orient : string)
  (positions : list Z) (ipos : nat * Z) : M unit :=
  let '(i, pos1) := ipos in
  pos2 <~ lift (py_getitem positions (Z.of_nat i + 1)) ;;
  let new_seg := new_instance Segment in
  name_i <~ lift (py_getitem future_segment_name (Z.of_nat i)) ;;
  d <~ lift (getattr_datas new_seg) ;;
  let d := dict_set d "name" (PStr name_i) in
  piece <~ lift (val_slice sequence (Some pos1) (Some pos2)) ;;
  let d := dict_set d "seq" piece in
  n <~ lift (v <- dict_getitem d "seq" ;; py_len v) ;;
  let d := dict_set d "length" (PInt n) in
  append_segment {| gfastyle := None; linetype := Segment; datas := d |} ;;;
  let new_edge := new_instance Line in
  name_i <~ lift (py_getitem future_segment_name (Z.of_nat i)) ;;
  e <~ lift (getattr_datas new_edge) ;;
  let e := dict_set e "start" (PStr name_i) in
  name_j <~ lift (py_getitem future_segment_name (Z.of_nat i + 1)) ;;
  let e := dict_set e "stop" (PStr name_j) in
  let e := dict_set e "orientation" (PStr (orient ++ "/" ++ orient)) in
  append_line {| gfastyle := None; linetype := Line; datas := e |} ;;;
  each_path (on_path (split_path segment_name future_segment_name orient)).

(** [split_segments(segment_name, future_segment_name, position_to_split)].
    [node_to_split] is the position [get_segment] finds the segment at, and
    [edges_of_node] the positions of the records [get_edges] returns (see
    [get_edges_by_position]): the loops below mutate these records in place.
    The main loop raises in its first round ([split_step]); its body is
    written out to the end all the same. *)
Definition split_segments (segment_name : string)
  (future_segment_name : names_arg) (position_to_split : positions_arg)
  : M unit :=
  node_to_split <~ read (fun g => get_segment_position g segment_name) ;;
  let future_segment_name := names_items future_segment_name in
  let position_to_split := positions_items position_to_split in
  if negb (List.length future_segment_name =? List.length position_to_split)%nat
  then raise ValueError
  else
    sequence <~
      (node <~ segment_at node_to_split ;;
       lift (if dict_contains (datas node) "seq"
             then dict_getitem (datas node) "seq"
             else n <- dict_getitem (datas node) "length" ;; repeat_N n)) ;;
    edges_of_node <~ read (fun g => get_edges_positions g segment_name) ;;
    orient <~ split_edges segment_name future_segment_name edges_of_node "" ;;
    first <~
      (node <~ segment_at node_to_split ;;
       lift (if dict_contains (datas node) "seq"
             then s <- dict_getitem (datas node) "seq" ;;
                  p0 <- py_getitem position_to_split 0 ;;
                  val_slice s None (Some p0)
             else p0 <- py_getitem position_to_split 0 ;;
                  Ok (PStr (str_repeat "N" p0)))) ;;
    set_segment_field node_to_split "seq" first ;;;
    n <~ lift (py_len sequence) ;;
    let positions := (position_to_split ++ [n])%list in
    for_each (enumerate (py_slice positions None (Some (-1))))
      (split_step segment_name future_segment_name sequence orient positions).

(** *** [merge_segments] *)

(** [sorted(segs, key=lambda x: int(x))]: the keys are computed first, the
    sort is stable. *)
Fixpoint insert_by_key (x : Z * string) (l : list (Z * string))
  : list (Z * string) :=
  match l with
  | [] => [x]
  | y :: tl => if fst x <=? fst y then x :: l else y :: insert_by_key x tl
  end.

Definition sorted_by_int (segs : list string) : res (list string) :=
  keys <- mapM py_int segs ;;
  Ok (List.map snd (List.fold_right insert_by_key [] (List.combine keys segs))).

(** The scan of one path: the last position of each name, [0] to start. *)
Fixpoint merge_path_scan (left_most_name right_most_name : string)
  (items : list (nat * (string * Orientation))) (start_pos end_pos : nat)
  : nat * nat :=
  match items with
  | [] => (start_pos, end_pos)
  | (i, (name, _)) :: tl =>
      if String.eqb name left_most_name then
        merge_path_scan left_most_name right_most_name tl i end_pos
      else if String.eqb name right_most_name then
        merge_path_scan left_most_name right_most_name tl start_pos i
      else merge_path_scan left_most_name right_most_name tl start_pos end_pos
  end.

Definition merge_path (left_most_name right_most_name : string)
  (p : list (string * Orientation))
  : option (list (string * Orientation)) :=
  let '(start_pos, end_pos) :=
    merge_path_scan left_most_name right_most_name (enumerate p) 0 0 in
  if negb (start_pos =? 0)%nat && negb (end_pos =? 0)%nat then
    Some (py_slice p None (Some (Z.of_nat (Nat.min start_pos end_pos)))
          ++ py_slice p (Some (Z.of_nat (Nat.max start_pos end_pos))) None)%list
  else None.

Definition segment_name_at (g : t) (i : nat) : res string :=
  seg <- record_at (segments g) i ;;
  v <- dict_getitem (datas seg) "name" ;;
  val_str v.

Definition not_in (l : list nat) (i : nat) : bool :=
  negb (List.existsb (Nat.eqb i) l).

Definition keep_positions {A : Type} (dropped : list nat) (l : list A)
  : list A :=
  List.map snd (List.filter (fun ix => not_in dropped (fst ix)) (enumerate l)).

(** [merge_segments( *segs )].  [left_most] and [right_most] are positions
    in [self.segments]; both names were matched against a [str] by
    [get_segment_position], so they are [str] values. *)
Definition merge_segments (segs : list string) : M string :=
  ordered <~ lift (sorted_by_int segs) ;;
  segments_positions <~
    read (fun g => mapM (get_segment_position g) ordered) ;;
  left_most <~ lift (py_getitem segments_positions 0) ;;
  right_most <~ lift (py_getitem segments_positions (-1)) ;;
  old <~ (seg <~ segment_at left_most ;;
          lift (dict_getitem (datas seg) "length")) ;;
  lengths <~
    read (fun g =>
            mapM (fun i => seg <- record_at (segments g) i ;;
                           v <- dict_getitem (datas seg) "length" ;;
                           val_int v)
                 (py_slice segments_positions (Some 1) None)) ;;
  total <~ lift (val_add_int old (List.fold_left Z.add lengths 0)) ;;
  set_segment_field left_most "length" total ;;;
  seg <~ segment_at left_most ;;
  (if dict_contains (datas seg) "seq" then
     seqs <~
       read (fun g =>
               mapM (fun i => s <- record_at (segments g) i ;;
                              dict_getitem (datas s) "seq")
                    segments_positions) ;;
     joined <~ lift (join_vals seqs) ;;
     set_segment_field left_most "seq" (PStr joined)
   else ret tt) ;;;
  right_most_name <~ read (fun g => segment_name_at g right_most) ;;
  edges_to_edit <~ read (fun g => get_edges_positions g right_most_name) ;;
  left_most_name <~ read (fun g => segment_name_at g left_most) ;;
  for_each edges_to_edit
    (fun edge_pos =>
       edge <~ line_at edge_pos ;;
       st <~ lift (dict_getitem (datas edge) "start") ;;
       if val_eq_str st right_most_name
       then set_line_field edge_pos "start" (PStr left_most_name)
       else set_line_field edge_pos "stop" (PStr left_most_name)) ;;;
  edges_to_delete <~
    read (fun g =>
            r <- mapM (fun node_pos =>
                         name <- segment_name_at g node_pos ;;
                         get_edges_positions g name)
                      (py_slice segments_positions (Some 1) (Some (-1))) ;;
            Ok (List.concat r)) ;;
  each_path
    (on_path (fun p => Ok (merge_path left_most_name right_most_name p))) ;;;
  (fun g =>
     (Ok tt,
      set_lines
        (set_segments g
           (keep_positions (py_slice segments_positions (Some 1) (Some (-1)))
              (segments g)))
        (keep_positions edges_to_delete (lines g)))) ;;;
  ret left_most_name.

(** *** [save_graph] *)

Section Saving.

Variable float_repr : spec_float -> string.

Definition header_text (head : GfaRecord) : res string :=
  tags <- tags_text float_repr [] (datas head) ;;
  Ok ("H" ++ TAB ++ tags ++ NL).

Definition segment_text (seg : GfaRecord) : res string :=
  name <- dict_getitem (datas seg) "name" ;;
  name <- format_value float_repr name ;;
  sequence <-
    (if dict_contains (datas seg) "seq" then dict_getitem (datas seg) "seq"
     else n <- dict_getitem (datas seg) "length" ;; repeat_N n) ;;
  sequence <- format_value float_repr sequence ;;
  tags <- tags_text float_repr ["length"; "seq"; "name"] (datas seg) ;;
  Ok ("S" ++ TAB ++ name ++ TAB ++ sequence ++ TAB ++ tags ++ NL).

Definition line_text (lin : GfaRecord) : res string :=
  o <- dict_getitem (datas lin) "orientation" ;;
  parts <- val_split o ;;
  match parts with
  | [ori1; ori2] =>
      a <- dict_getitem (datas lin) "start" ;;
      a <- format_value float_repr a ;;
      b <- dict_getitem (datas lin) "end" ;;
      b <- format_value float_repr b ;;
      tags <- tags_text float_repr ["orientation"; "start"; "end"]
                (datas lin) ;;
      Ok ("L" ++ TAB ++ a ++ TAB ++ ori1 ++ TAB ++ b ++ TAB ++ ori2 ++ TAB
          ++ tags ++ NL)
  | _ => Raise ValueError
  end.

(** [save_graph(output_path, output_format)]: the texts written to the
    file, in order. *)
Definition save_graph (g : t) (output_format : option GfaStyle)
  : res (list string) :=
  let output_format :=
    match output_format with Some f => f | None => version g end in
  hs <- (if (0 <? List.length (headers g))%nat
            && negb (GfaStyle_eqb output_format RGFA)
         then mapM header_text (headers g) else Ok []) ;;
  ss <- mapM segment_text (segments g) ;;
  ls <- mapM line_text (lines g) ;;
  ps <- mapM (fun np => write_path float_repr (snd np) output_format
                          (Z.of_nat (fst np)))
          (enumerate (get_path_list g)) ;;
  Ok (hs ++ ss ++ ls ++ ps)%list.

End Saving.

End Graph.

(** ** Sample inputs *)

(** A segment record as the S-line of [name] and [seq] loads under
    [style] with the sequence kept. *)
Definition sample_segment (style : GfaStyle) (name seq : string) : GfaRecord :=
  {| gfastyle := Some style; linetype := Segment;
     datas := [("name", PStr name); ("length", PInt (str_len seq));
               ("seq", PStr seq)] |}.

(** A path record as a P-line loads. *)
Definition sample_path (style : GfaStyle) (name : string)
  (p : list (string * Orientation)) : GfaRecord :=
  {| gfastyle := Some style; linetype := Path;
     datas := [("name", PStr name); ("path", PPath p)] |}.

(** An edge record as an L-line with the overlap field [*] loads. *)
Definition sample_line (style : GfaStyle) (a oa b ob : string) : GfaRecord :=
  {| gfastyle := Some style; linetype := Line;
     datas := [("start", PStr a); ("end", PStr b);
               ("orientation", PStr (oa ++ "/" ++ ob)); ("ARG5", PStr "*")] |}.

Definition sample_graph (style : GfaStyle) (segs edges ps : list GfaRecord)
  : Graph.t :=
  {| Graph.version := style; Graph.headers := []; Graph.segments := segs;
     Graph.lines := edges; Graph.containment := []; Graph.paths := ps;
     Graph.walks := []; Graph.jumps := []; Graph.others := [] |}.

(** The file of the round-trip scenario: two segments and one edge. *)
Definition two_segments_file : list string :=
  ["S" ++ TAB ++ "1" ++ TAB ++ "ACGT" ++ NL;
   "S" ++ TAB ++ "2" ++ TAB ++ "GGTT" ++ NL;
   "L" ++ TAB ++ "1" ++ TAB ++ "+" ++ TAB ++ "2" ++ TAB ++ "+" ++ TAB ++ "*"
   ++ NL].

(** The graph that file loads as, under GFA1 with the sequences kept. *)
Definition two_segments_graph : Graph.t :=
  sample_graph GFA1
    [sample_segment GFA1 "1" "ACGT"; sample_segment GFA1 "2" "GGTT"]
    [sample_line GFA1 "1" "+" "2" "+"] [].

(** One segment [1] with sequence [ACGT], traversed by one path. *)
Definition one_segment_graph : Graph.t :=
  sample_graph GFA1 [sample_segment GFA1 "1" "ACGT"] []
    [sample_path GFA1 "p" [("1", FORWARD)]].

(** Three segments in a row and two paths through them. *)
Definition three_segments_graph : Graph.t :=
  sample_graph GFA1
    [sample_segment GFA1 "1" "AC"; sample_segment GFA1 "2" "GT";
     sample_segment GFA1 "3" "TT"]
    []
    [sample_path GFA1 "p"
       [("4", FORWARD); ("1", FORWARD); ("2", FORWARD); ("3", FORWARD);
        ("5", FORWARD)];
     sample_path GFA1 "q" [("1", FORWARD); ("2", FORWARD); ("3", FORWARD)]].

(** ** Vocabulary of the properties *)

(** The style the populated kinds call for, read off the five lists. *)
Definition minimal_style (g : Graph.t) : GfaStyle :=
  match Graph.others g, Graph.jumps g, Graph.walks g, Graph.headers g,
        Graph.paths g with
  | _ :: _, _, _, _, _ => GFA2
  | [], _ :: _, _, _, _ => GFA1_2
  | [], [], _ :: _, _, _ => GFA1_1
  | [], [], [], _ :: _, _ => GFA1
  | [], [], [], [], _ :: _ => GFA1
  | [], [], [], [], [] => RGFA
  end.

(** The keys [supplementary_datas] can store: two characters cut from a
    tag, or [ARG] followed by a number. *)
Definition extra_key (k : string) : Prop :=
  String.length k = 2%nat \/ String.prefix "ARG" k = true.

(** The record holds the fields the parser [line] returns for some line. *)
Definition parsed_edge (rec : GfaRecord) : Prop :=
  exists fields style kw, line fields style kw = Ok (datas rec).

(** Whether the edge starts at [name]. *)
Definition starts_at (name : string) (edge : GfaRecord) : Prop :=
  dict_get (datas edge) "start" = Some (PStr name).

(** The number of tokens before position [j] that are no tags. *)
Definition unmatched_before (tokens : list string) (j : nat) : Z :=
  Z.of_nat (List.length
              (List.filter (fun tok => negb (tag_match tok))
                 (List.firstn j tokens))).

(** The key a tag token is stored under. *)
Definition tag_key (tok : string) : string := str_slice tok None (Some 2).

(** The tokens of [fields] from index [n] on are all accounted for in [d]:
    a token that matches the tag syntax was decoded by the cast [gtype]
    gives for its type letter, and its two-letter key maps to the decoded
    value (unless a later tag token has the same key); any other token is
    stored as it is under [ARG<m>], where [m] is [n] plus the number of
    earlier unmatched tokens, so that tag tokens do not advance it. *)
Definition trailing_tokens_stored (fields : list string) (n : Z) (d : dict)
  : Prop :=
  forall (j : nat) (tok : string),
    List.nth_error (py_slice fields (Some n) None) j = Some tok ->
    (tag_match tok = true ->
     exists letter cast v,
       str_getitem tok 3 = Ok letter
       /\ gtype letter = Ok cast
       /\ cast (str_slice tok (Some 5) None) = Ok v
       /\ ((forall tok',
              List.In tok' (List.skipn (S j) (py_slice fields (Some n) None)) ->
              tag_match tok' = true -> tag_key tok' <> tag_key tok) ->
           dict_get d (tag_key tok) = Some v))
    /\ (tag_match tok = false ->
        dict_get d
          ("ARG" ++ int_text
                      (n + unmatched_before (py_slice fields (Some n) None) j))
        = Some (PStr tok)).

(** The index the trailing tokens of a line begin at, for each kind of
    line: the count its parser passes to [supplementary_datas]. *)
Definition length_condition_of (cls : LineClass) : Z :=
  match cls with
  | Other => 0
  | Header | Containment | Jump => 1
  | Segment => 3
  | Line => 5
  | Path | Walk => 7
  end.

(** The same index by the table of fixed fields of the specification: one
    for the leading letter plus the number of fixed fields of the kind (a
    path has two, its name and its list of steps). *)
Definition spec_fixed_count (cls : LineClass) : Z :=
  match cls with
  | Other => 0
  | Header | Containment | Jump => 1
  | Segment => 3
  | Line => 5
  | Path => 3
  | Walk => 7
  end.

(** [c] raises no [ValueError]. *)
Definition quiet {A : Type} (c : res A) : Prop := c <> Raise ValueError.

(** The method step [c] raises no [ValueError], whatever the graph. *)
Definition quietM {A : Type} (c : Graph.M A) : Prop :=
  forall g, fst (c g) <> Raise ValueError.

(** The method step [c] leaves the graph as it is. *)
Definition readonly {A : Type} (c : Graph.M A) : Prop :=
  forall g, snd (c g) = g.

(** When [c] raises [ValueError] the graph is as before the call. *)
Definition clean_on_ValueError {A : Type} (c : Graph.M A) : Prop :=
  forall g, fst (c g) = Raise ValueError -> snd (c g) = g.

(** [rec.datas['path']], when the record has the key, is a list of (name,
    orientation) pairs, as the parsers [path] and [walk] store it. *)
Definition holds_steps (rec : GfaRecord) : bool :=
  match dict_get (datas rec) "path" with
  | Some (PPath _) | None => true
  | Some _ => false
  end.

(** Every path and every walk of the graph does. *)
Definition paths_hold_steps (g : Graph.t) : bool :=
  List.forallb holds_steps (Graph.get_path_list g).

(** From a graph that satisfies [P], the method step [c] raises no
    [ValueError], and the graph it returns with satisfies [Q]. *)
Definition quiet_from {A : Type} (P Q : Graph.t -> Prop) (c : Graph.M A)
  : Prop :=
  forall g, P g -> match c g with
                   | (Ok _, g') => Q g'
                   | (Raise e, _) => e <> ValueError
                   end.

(** The method step [c] leaves the paths and the walks as they are. *)
Definition keeps_paths {A : Type} (c : Graph.M A) : Prop :=
  forall g, Graph.paths (snd (c g)) = Graph.paths g
            /\ Graph.walks (snd (c g)) = Graph.walks g.

(** Two segments and a path record whose ['path'] was set to the [str]
    [ab]. *)
Definition str_path_graph : Graph.t :=
  sample_graph GFA1
    [sample_segment GFA1 "1" "ACGT"; sample_segment GFA1 "2" "GGTT"] []
    [{| gfastyle := Some GFA1; linetype := Path;
        datas := [("name", PStr "p"); ("path", PStr "ab")] |}].

(** What [c] raises, if it raises, is a Python exception: the call is
    within the model. *)
Definition modelled {A : Type} (c : res A) : Prop := c <> Raise OutOfModel.

(** The same for a method step, whatever the graph. *)
Definition modelledM {A : Type} (c : Graph.M A) : Prop :=
  forall g, fst (c g) <> Raise OutOfModel.

(** The method step [c] raises, whatever the graph. *)
Definition failing {A : Type} (c : Graph.M A) : Prop :=
  forall g, is_ok (fst (c g)) = false.

(** [one_segment_graph] as the call [split_segments("1", ["10"], [2])]
    leaves it: the stored sequence of segment [1] is cut, nothing else
    changed. *)
Definition one_segment_graph_after_split : Graph.t :=
  sample_graph GFA1
    [{| gfastyle := Some GFA1; linetype := Segment;
        datas := [("name", PStr "1"); ("length", PInt 4); ("seq", PStr "AC")] |}]
    []
    [sample_path GFA1 "p" [("1", FORWARD)]].

(** The record's ['length'] is the length of its ['seq'], when it has one. *)
Definition length_matches_seq (rec : GfaRecord) : Prop :=
  forall s, dict_get (datas rec) "seq" = Some (PStr s) ->
            dict_get (datas rec) "length" = Some (PInt (str_len s)).

(** The step [c] keeps a property of every segment record. *)
Definition keeps {A : Type} (P : GfaRecord -> Prop) (c : Graph.M A) : Prop :=
  forall g, List.Forall P (Graph.segments g) ->
            List.Forall P (Graph.segments (snd (c g))).

(** The first character of [line] is one of the characters of [cs]. *)
Definition starts_with_one_of (cs : string) (line : string) : bool :=
  match line with
  | String c _ => List.existsb (Ascii.eqb c) (chars cs)
  | EmptyString => false
  end.

(** The number of records the eight lists of a graph hold. *)
Definition record_count (g : Graph.t) : nat :=
  (List.length (Graph.headers g) + List.length (Graph.segments g)
   + List.length (Graph.lines g) + List.length (Graph.containment g)
   + List.length (Graph.paths g) + List.length (Graph.walks g)
   + List.length (Graph.jumps g) + List.length (Graph.others g))%nat.

(** The fields of a segment as an S-line gives them: a name of digits, the
    length of the sequence text, and that text when sequences are kept. *)
Definition loaded_segment (with_seq : bool) (rec : GfaRecord) : Prop :=
  exists name sequence,
    dict_get (datas rec) "name" = Some (PStr name)
    /\ List.Forall (fun c => is_digit c = true) (chars name)
    /\ dict_get (datas rec) "length" = Some (PInt (str_len sequence))
    /\ dict_get (datas rec) "seq"
       = if with_seq then Some (PStr sequence) else None.

(** The fields of an edge as an L-line gives them. *)
Definition loaded_edge (rec : GfaRecord) : Prop :=
  exists a b oa ob,
    dict_get (datas rec) "start" = Some (PStr a)
    /\ dict_get (datas rec) "end" = Some (PStr b)
    /\ dict_get (datas rec) "orientation" = Some (PStr (oa ++ "/" ++ ob))
    /\ dict_get (datas rec) "stop" = None
    /\ List.Forall (fun c => is_digit c = true) (chars a)
    /\ List.Forall (fun c => is_digit c = true) (chars b).

(** The fields of a path or walk record: a name and a list of steps that
    is not empty. *)
Definition loaded_path (rec : GfaRecord) : Prop :=
  exists name step steps,
    dict_get (datas rec) "name" = Some (PStr name)
    /\ dict_get (datas rec) "path" = Some (PPath (step :: steps)).

(** The record has a ['name'] field; its ['name'] is the string [node]. *)
Definition has_name (rec : GfaRecord) : Prop :=
  exists v, dict_get (datas rec) "name" = Some v.

Definition named (node : string) (rec : GfaRecord) : Prop :=
  dict_get (datas rec) "name" = Some (PStr node).

(** The styles in the order of what they allow. *)
Definition style_rank (s : GfaStyle) : nat :=
  match s with
  | RGFA => 0
  | GFA1 => 1
  | GFA1_1 => 2
  | GFA1_2 => 3
  | GFA2 => 4
  | UNK => 5
  end.

(** The text [s] ends with [suffix]. *)
Definition ends_with (suffix s : string) : Prop :=
  exists body, s = body ++ suffix.

(** The number of occurrences of the character [c] in [s]. *)
Fixpoint count_char (c : ascii) (s : string) : nat :=
  match s with
  | EmptyString => 0
  | String a rest => (if Ascii.eqb a c then 1 else 0) + count_char c rest
  end.

(** The ['orientation'] field is a text with exactly one [/]. *)
Definition one_slash (rec : GfaRecord) : Prop :=
  exists o, dict_get (datas rec) "orientation" = Some (PStr o)
            /\ count_char "/" o = 1%nat.

(** The texts [save_graph] is found to write: one per header (none under
    rGFA), segment and edge, each ending with a line end, then one per path
    and walk, whose ending depends on the output style. *)
Definition saved_shape (g : Graph.t) (output_format : option GfaStyle)
  (out : list string) : Prop :=
  exists hs ss ls ps,
    out = (hs ++ ss ++ ls ++ ps)%list
    /\ List.length hs
       = match output_format, Graph.version g with
         | Some RGFA, _ | None, RGFA => 0%nat
         | _, _ => List.length (Graph.headers g)
         end
    /\ List.length ss = List.length (Graph.segments g)
    /\ List.length ls = List.length (Graph.lines g)
    /\ List.length ps
       = (List.length (Graph.paths g) + List.length (Graph.walks g))%nat
    /\ List.Forall (ends_with NL) (hs ++ ss ++ ls)%list
    /\ List.Forall
         (fun s =>
            match match output_format with
                  | Some f => f
                  | None => Graph.version g
                  end with
            | GFA1 => ends_with "*" s
            | GFA1_1 | GFA1_2 | GFA2 => ends_with NL s
            | RGFA | UNK => s = ""
            end) ps.

(** Every value of the dictionary is one [json.dumps] accepts. *)
Definition storable (d : dict) : bool :=
  List.forallb (fun kv => json_dumps_ok (snd kv)) d.

(** Every value of the dictionary under a key outside [skip] is one
    [json.dumps] accepts. *)
Definition writable (skip : list string) (d : dict) : bool :=
  List.forallb
    (fun kv => List.existsb (String.eqb (fst kv)) skip
               || json_dumps_ok (snd kv)) d.

(** The fields hold no tab and no line end, as the fields of one line of
    a tab-separated file. *)
Definition field_texts (fields : list string) : Prop :=
  List.Forall (fun s => count_char tab s = 0%nat
                        /\ count_char newline s = 0%nat) fields.

(** The line of a file that holds these fields. *)
Definition gfa_line_of (fields : list string) : string :=
  str_join TAB fields ++ NL.

(** A text made of digits only. *)
Definition digits_only (s : string) : Prop :=
  List.Forall (fun c => is_digit c = true) (chars s).

(** The ['name'] field of a record, if it has one. *)
Definition record_name (rec : GfaRecord) : option PyVal :=
  dict_get (datas rec) "name".

(** [g1] has the segment names of [g2], in the same order, and as many
    edges. *)
Definition same_names (g1 g2 : Graph.t) : Prop :=
  List.map record_name (Graph.segments g1)
  = List.map record_name (Graph.segments g2)
  /\ List.length (Graph.lines g1) = List.length (Graph.lines g2).

(** The step [c] renames no segment, adds or removes none, and keeps the
    number of edges. *)
Definition stable {A : Type} (c : Graph.M A) : Prop :=
  forall g, same_names (snd (c g)) g.

(** * Properties *)

(** ** The format classifier *)

(** C9. [assert_format] returns GFA2 when Other records are present, else
    GFA1.2 when Jump records are, else GFA1.1 when Walk records are, else
    GFA1 when Header or Path records are, else rGFA; the style declared at
    load time plays no part; the result becomes the recorded style and no
    record list changes; a graph holding only segments and edges (and
    containments) infers rGFA. *)
Theorem assert_format_minimal_style (g : Graph.t) :
  fst (Graph.assert_format g) = minimal_style g
  /\ (forall declared,
        fst (Graph.assert_format (Graph.set_version g declared))
        = fst (Graph.assert_format g))
  /\ snd (Graph.assert_format g) = Graph.set_version g (minimal_style g)
  /\ Graph.version (snd (Graph.assert_format g)) = fst (Graph.assert_format g)
  /\ (forall declared segs edges conts,
        fst (Graph.assert_format
               {| Graph.version := declared; Graph.headers := [];
                  Graph.segments := segs; Graph.lines := edges;
                  Graph.containment := conts; Graph.paths := [];
                  Graph.walks := []; Graph.jumps := [];
                  Graph.others := [] |}) = RGFA).
Proof.
  assert (E : fst (Graph.assert_format g) = minimal_style g).
  { unfold Graph.assert_format, minimal_style; cbn [fst].
    destruct (Graph.others g), (Graph.jumps g), (Graph.walks g),
      (Graph.headers g), (Graph.paths g); reflexivity. }
  split; [exact E | split; [| split; [| split]]].
  - intros declared. reflexivity.
  - unfold Graph.assert_format in *; cbn [fst snd] in *. now rewrite E.
  - reflexivity.
  - intros; reflexivity.
Qed.

(** ** Basic facts: results, slices, dictionaries *)

Lemma bind_Ok_inv {A B : Type} (c : res A) (k : A -> res B) (b : B) :
  bind c k = Ok b -> exists a, c = Ok a /\ k a = Ok b.
Proof.
  destruct c as [a | e]; cbn [bind]; [eauto | discriminate].
Qed.

Lemma bind_Raise_inv {A B : Type} (c : res A) (k : A -> res B) (e : exn) :
  bind c k = Raise e -> c = Raise e \/ exists a, c = Ok a /\ k a = Raise e.
Proof.
  destruct c as [a | e']; cbn [bind]; [eauto | intros [= ->]; now left].
Qed.

(** Splits a hypothesis [bind c k = Ok _] into its two steps. *)
Ltac inv_bind H :=
  let a := fresh "a" in
  let Ha := fresh "Ha" in
  apply bind_Ok_inv in H; destruct H as (a & Ha & H).

Lemma py_slice_from {A : Type} (l : list A) (k : Z) :
  0 <= k -> py_slice l (Some k) None = List.skipn (Z.to_nat k) l.
Proof.
  intros Hk. unfold py_slice, clamp_index.
  destruct (k <? 0) eqn:E; [apply Z.ltb_lt in E; lia |].
  set (n := Z.of_nat (List.length l)).
  destruct (Z.le_gt_cases k n) as [Hle | Hgt].
  - rewrite Z.min_l by exact Hle.
    rewrite List.firstn_all2; [reflexivity |].
    rewrite List.length_skipn. subst n. lia.
  - rewrite Z.min_r by lia.
    replace (Z.to_nat (n - n)) with 0%nat by lia. cbn [List.firstn].
    symmetry. apply List.skipn_all2. subst n. lia.
Qed.

Lemma py_slice_to {A : Type} (l : list A) (k : Z) :
  0 <= k -> py_slice l None (Some k) = List.firstn (Z.to_nat k) l.
Proof.
  intros Hk. unfold py_slice, clamp_index.
  destruct (k <? 0) eqn:E; [apply Z.ltb_lt in E; lia |].
  set (n := Z.of_nat (List.length l)).
  cbn [Z.to_nat List.skipn]. rewrite Z.sub_0_r.
  destruct (Z.le_gt_cases k n) as [Hle | Hgt].
  - now rewrite Z.min_l by exact Hle.
  - rewrite Z.min_r by lia.
    rewrite !List.firstn_all2; [reflexivity | subst n; lia | subst n; lia].
Qed.

Lemma py_slice_drop_last {A : Type} (l : list A) (x : A) :
  py_slice (l ++ [x]) None (Some (-1)) = l.
Proof.
  unfold py_slice, clamp_index. cbn [Z.ltb Z.compare].
  rewrite List.length_app. cbn [List.length].
  replace (Z.max 0 (Z.of_nat (List.length l + 1) + -1))
    with (Z.of_nat (List.length l)) by lia.
  cbn [Z.to_nat List.skipn]. rewrite Z.sub_0_r, Nat2Z.id.
  rewrite List.firstn_app, Nat.sub_diag, List.firstn_all. cbn [List.firstn].
  apply List.app_nil_r.
Qed.

Lemma py_getitem_nat {A : Type} (l : list A) (i : nat) :
  py_getitem l (Z.of_nat i)
  = match List.nth_error l i with Some x => Ok x | None => Raise IndexError end.
Proof.
  unfold py_getitem.
  destruct (Z.of_nat i <? 0) eqn:E; [apply Z.ltb_lt in E; lia |].
  rewrite E. now rewrite Nat2Z.id.
Qed.

Lemma dict_get_set (d : dict) (k k' : string) (v : PyVal) :
  dict_get (dict_set d k v) k'
  = if String.eqb k k' then Some v else dict_get d k'.
Proof.
  induction d as [| [k0 v0] d IH]; cbn [dict_set dict_get].
  - destruct (String.eqb k k'); reflexivity.
  - destruct (String.eqb k0 k) eqn:E0; cbn [dict_get].
    + apply String.eqb_eq in E0; subst k0.
      destruct (String.eqb k k'); reflexivity.
    + rewrite IH. destruct (String.eqb k k') eqn:E1; [| reflexivity].
      apply String.eqb_eq in E1; subst k'. now rewrite E0.
Qed.

Lemma dict_get_set_other (d : dict) (k k' : string) (v : PyVal) :
  k <> k' -> dict_get (dict_set d k v) k' = dict_get d k'.
Proof.
  intros H. rewrite dict_get_set.
  destruct (String.eqb_spec k k'); [contradiction | reflexivity].
Qed.

(** A key that [d2] does not hold reads in [{**d1, **d2}] as in [d1]. *)
Lemma dict_get_merge_absent (d2 d1 : dict) (k : string) :
  (forall kv, List.In kv d2 -> fst kv <> k) ->
  dict_get (dict_merge d1 d2) k = dict_get d1 k.
Proof.
  unfold dict_merge. revert d1.
  induction d2 as [| kv d2 IH]; intros d1 H; cbn [List.fold_left].
  - reflexivity.
  - rewrite IH by (intros kv' Hin; apply H; now right).
    apply dict_get_set_other, H. now left.
Qed.

(** ** The keys of the extra fields *)

Lemma tag_match_chars (s : string) :
  tag_match s = true ->
  exists k1 k2 t rest,
    s = String k1 (String k2 (String ":" (String t (String ":" rest))))
    /\ is_upper k1 = true /\ is_upper k2 = true /\ is_alpha t = true.
Proof.
  unfold tag_match, chars.
  destruct s as [| k1 [| k2 [| c1 [| t [| c2 rest]]]]];
    cbn [list_ascii_of_string]; try discriminate.
  intros H.
  apply andb_prop in H as [H E2]. apply andb_prop in H as [H Ht].
  apply andb_prop in H as [H E1]. apply andb_prop in H as [Hk1 Hk2].
  apply Ascii.eqb_eq in E1, E2. subst c1 c2.
  exists k1, k2, t, rest. repeat split; assumption.
Qed.

Lemma text_chars (s : string) : text (chars s) = s.
Proof. apply string_of_list_ascii_of_string. Qed.

Lemma chars_text (l : list ascii) : chars (text l) = l.
Proof. apply list_ascii_of_string_of_list_ascii. Qed.

Lemma tag_key_slice (k1 k2 : ascii) (rest : string) :
  str_slice (String k1 (String k2 rest)) None (Some 2)
  = String k1 (String k2 "").
Proof.
  unfold str_slice. rewrite py_slice_to by lia. reflexivity.
Qed.

Lemma tag_match_key_length (s : string) :
  tag_match s = true ->
  String.length (str_slice s None (Some 2)) = 2%nat.
Proof.
  intros H. apply tag_match_chars in H.
  destruct H as (k1 & k2 & t & rest & -> & _).
  now rewrite tag_key_slice.
Qed.

Lemma dict_set_In (d : dict) (k k0 : string) (v v0 : PyVal) :
  List.In (k, v) (dict_set d k0 v0) -> List.In (k, v) d \/ k = k0.
Proof.
  induction d as [| [k1 v1] d IH]; cbn [dict_set].
  - intros [[= <- <-] | []]. now right.
  - destruct (String.eqb_spec k1 k0) as [-> | Hne]; cbn [List.In].
    + intros [[= <- <-] | H]; [now right | left; now right].
    + intros [H | H]; [left; now left |].
      destruct (IH H) as [H' | H']; [left; now right | now right].
Qed.

Lemma extra_fields_keys (tokens : list string) :
  forall (mapping : dict) (nargs : Z) (m : dict),
    extra_fields tokens mapping nargs = Ok m ->
    forall k v, List.In (k, v) m ->
                (exists v', List.In (k, v') mapping) \/ extra_key k.
Proof.
  induction tokens as [| tok tl IH]; intros mapping nargs m H k v Hin;
    cbn [extra_fields] in H.
  - injection H as <-. left. eauto.
  - destruct (tag_match tok) eqn:Et.
    + inv_bind H. inv_bind H. inv_bind H.
      destruct (IH _ _ _ H k v Hin) as [[v' Hv'] | Hk]; [| now right].
      apply dict_set_In in Hv'. destruct Hv' as [Hv' | ->]; [left; eauto |].
      right. left. now apply tag_match_key_length.
    + apply bind_Ok_inv in H as (n & Hn & H).
      destruct (IH _ _ _ H k v Hin) as [[v' Hv'] | Hk]; [| now right].
      apply dict_set_In in Hv'. destruct Hv' as [Hv' | ->]; [left; eauto |].
      right. right. cbn. now destruct n.
Qed.

Lemma supplementary_datas_keys (fields : list string) (n : Z) (m : dict) :
  supplementary_datas fields n = Ok m ->
  forall kv, List.In kv m -> extra_key (fst kv).
Proof.
  unfold supplementary_datas.
  destruct (n <? Z.of_nat (List.length fields)).
  - intros H [k v] Hin.
    destruct (extra_fields_keys _ _ _ _ H k v Hin) as [[v' []] | Hk].
    exact Hk.
  - intros [= <-] kv [].
Qed.

(** ** Edges loaded from L-lines *)

Lemma parsed_edge_fields (rec : GfaRecord) :
  parsed_edge rec ->
  dict_get (datas rec) "stop" = None
  /\ exists s, dict_get (datas rec) "start" = Some (PStr s).
Proof.
  intros (fields & style & kw & H). unfold line in H.
  inv_bind H. inv_bind H. inv_bind H. inv_bind H. inv_bind H.
  injection H as H. rewrite <- H.
  pose proof (supplementary_datas_keys _ _ _ Ha3) as Hk.
  split.
  - rewrite dict_get_merge_absent; [reflexivity |].
    intros kv Hin E. destruct (Hk kv Hin) as [Hl | Hp]; rewrite E in *;
      discriminate.
  - rewrite dict_get_merge_absent; [cbn; eauto |].
    intros kv Hin E. destruct (Hk kv Hin) as [Hl | Hp]; rewrite E in *;
      discriminate.
Qed.

Lemma touches_parsed (node : string) (rec : GfaRecord) :
  parsed_edge rec ->
  Graph.touches node rec
  = if match dict_get (datas rec) "start" with
       | Some v => val_eq_str v node
       | None => false
       end
    then Ok true else Raise (KeyError "stop").
Proof.
  intros H. apply parsed_edge_fields in H. destruct H as (Hstop & s & Hs).
  unfold Graph.touches, dict_getitem. rewrite Hs, Hstop. cbn [bind].
  destruct (val_eq_str (PStr s) node); reflexivity.
Qed.

Lemma val_eq_str_true (v : PyVal) (s : string) :
  val_eq_str v s = true <-> v = PStr s.
Proof.
  destruct v; cbn [val_eq_str]; try (split; [discriminate | discriminate]).
  rewrite String.eqb_eq. split; [now intros -> | now intros [= ->]].
Qed.

Section FilterM.

Context {A : Type} (p : A -> res bool).

Lemma filterM_all (l : list A) :
  List.Forall (fun x => p x = Ok true) l -> Graph.filterM p l = Ok l.
Proof.
  induction 1 as [| x l Hx _ IH]; cbn [Graph.filterM]; [reflexivity |].
  rewrite Hx, IH. reflexivity.
Qed.

Lemma filterM_raise (e : exn) (l : list A) :
  List.Forall (fun x => p x = Ok true \/ p x = Raise e) l ->
  List.Exists (fun x => p x = Raise e) l ->
  Graph.filterM p l = Raise e.
Proof.
  induction 1 as [| x l Hx Hl IH]; intros Hex; cbn [Graph.filterM].
  - inversion Hex.
  - destruct Hx as [Hx | Hx]; rewrite Hx; cbn [bind]; [| reflexivity].
    inversion Hex as [? ? Hx' | ? ? Hl']; subst; [congruence |].
    now rewrite IH.
Qed.

End FilterM.

Lemma enumerate_from_fst {A : Type} (l : list A) (i : nat) :
  List.map fst (enumerate_from i l) = List.seq i (List.length l).
Proof.
  revert i; induction l as [| x l IH]; intros i; cbn; [reflexivity |].
  now rewrite IH.
Qed.

Lemma enumerate_from_Forall {A : Type} (P : A -> Prop) (l : list A) (i : nat) :
  List.Forall P l -> List.Forall (fun ix => P (snd ix)) (enumerate_from i l).
Proof.
  intros H; revert i; induction H; intros i; cbn; constructor; auto.
Qed.

Lemma enumerate_from_Exists {A : Type} (P : A -> Prop) (l : list A) (i : nat) :
  List.Exists P l -> List.Exists (fun ix => P (snd ix)) (enumerate_from i l).
Proof.
  intros H; revert i; induction H; intros i; cbn;
    [now apply List.Exists_cons_hd | apply List.Exists_cons_tl; auto].
Qed.

Lemma touches_parsed_cases (name : string) (edge : GfaRecord) :
  parsed_edge edge ->
  (starts_at name edge /\ Graph.touches name edge = Ok true)
  \/ (~ starts_at name edge
      /\ Graph.touches name edge = Raise (KeyError "stop")).
Proof.
  intros H. rewrite (touches_parsed name edge H).
  destruct (parsed_edge_fields edge H) as (_ & s & Hs).
  unfold starts_at. rewrite Hs. cbn [val_eq_str].
  destruct (String.eqb_spec s name) as [-> | Hne]; [left | right]; split;
    try reflexivity.
  intros [= E]. contradiction.
Qed.

(** C5. On a graph whose edges were parsed from L-lines (the second
    endpoint is stored under ['end'], never under ['stop']), [get_edges] and
    [get_edges_positions] raise [KeyError('stop')] as soon as one edge does
    not start at the queried name; they return (every edge, every position)
    when all edges start at it, and in no other case. *)
Theorem get_edges_on_parsed_lines (g : Graph.t) (name : string) :
  List.Forall parsed_edge (Graph.lines g) ->
  (List.Exists (fun edge => ~ starts_at name edge) (Graph.lines g) ->
   Graph.get_edges g name = Raise (KeyError "stop")
   /\ Graph.get_edges_positions g name = Raise (KeyError "stop"))
  /\ (List.Forall (starts_at name) (Graph.lines g) ->
      Graph.get_edges g name = Ok (Graph.lines g)
      /\ Graph.get_edges_positions g name
         = Ok (List.seq 0 (List.length (Graph.lines g))))
  /\ (is_ok (Graph.get_edges g name) = true ->
      List.Forall (starts_at name) (Graph.lines g))
  /\ (is_ok (Graph.get_edges_positions g name) = true ->
      List.Forall (starts_at name) (Graph.lines g)).
Proof.
  intros Hp.
  assert (Hcases : List.Forall
            (fun edge => Graph.touches name edge = Ok true
                         \/ Graph.touches name edge = Raise (KeyError "stop"))
            (Graph.lines g)).
  { eapply List.Forall_impl; [| exact Hp]. intros edge He.
    destruct (touches_parsed_cases name edge He) as [[_ H] | [_ H]]; auto. }
  assert (Hraise : List.Exists (fun edge => ~ starts_at name edge)
                     (Graph.lines g) ->
                   List.Exists (fun edge => Graph.touches name edge
                                            = Raise (KeyError "stop"))
                     (Graph.lines g)).
  { intros Hex. apply List.Exists_exists in Hex. destruct Hex as (edge & Hin & Hn).
    apply List.Exists_exists. exists edge. split; [exact Hin |].
    rewrite List.Forall_forall in Hp.
    destruct (touches_parsed_cases name edge (Hp edge Hin)) as [[H _] | [_ H]];
      [contradiction | exact H]. }
  assert (Hfirst : List.Exists (fun edge => ~ starts_at name edge)
                     (Graph.lines g) ->
                   Graph.get_edges g name = Raise (KeyError "stop")
                   /\ Graph.get_edges_positions g name
                      = Raise (KeyError "stop")).
  { intros Hex. apply Hraise in Hex. split.
    - now apply filterM_raise.
    - unfold Graph.get_edges_positions, enumerate.
      rewrite (filterM_raise _ (KeyError "stop")); [reflexivity | |].
      + now apply (enumerate_from_Forall
                     (fun edge => Graph.touches name edge = Ok true
                                  \/ Graph.touches name edge
                                     = Raise (KeyError "stop"))).
      + now apply (enumerate_from_Exists
                     (fun edge => Graph.touches name edge
                                  = Raise (KeyError "stop"))). }
  assert (Hdec : List.Forall (starts_at name) (Graph.lines g)
                 \/ List.Exists (fun edge => ~ starts_at name edge)
                      (Graph.lines g)).
  { clear Hcases Hraise Hfirst.
    induction Hp as [| edge l He _ IH]; [left; constructor |].
    destruct (touches_parsed_cases name edge He) as [[H _] | [H _]].
    - destruct IH as [IH | IH]; [left; now constructor |].
      right. now apply List.Exists_cons_tl.
    - right. now apply List.Exists_cons_hd. }
  split; [exact Hfirst | split; [| split]].
  - intros Hall.
    assert (Ht : List.Forall (fun edge => Graph.touches name edge = Ok true)
                   (Graph.lines g)).
    { rewrite List.Forall_forall in *. intros edge Hin.
      destruct (touches_parsed_cases name edge (Hp edge Hin))
        as [[_ H] | [H _]]; [exact H | now specialize (Hall edge Hin)]. }
    split; [now apply filterM_all |].
    unfold Graph.get_edges_positions, enumerate.
    rewrite filterM_all.
    + cbn [bind]. now rewrite enumerate_from_fst.
    + now apply (enumerate_from_Forall
                   (fun edge => Graph.touches name edge = Ok true)).
  - intros Hok. destruct Hdec as [H | H]; [exact H |].
    destruct (Hfirst H) as [E _]. rewrite E in Hok. discriminate.
  - intros Hok. destruct Hdec as [H | H]; [exact H |].
    destruct (Hfirst H) as [_ E]. rewrite E in Hok. discriminate.
Qed.

(** The L-line [1 + 2 +] is queried for its end point [2]: both look-ups
    raise. *)
Lemma get_edges_on_parsed_lines_witness :
  Graph.get_edges
    (sample_graph GFA1 [] [sample_line GFA1 "1" "+" "2" "+"] []) "2"
  = Raise (KeyError "stop")
  /\ Graph.get_edges_positions
       (sample_graph GFA1 [] [sample_line GFA1 "1" "+" "2" "+"] []) "2"
     = Raise (KeyError "stop").
Proof.
  refine (proj1 (get_edges_on_parsed_lines
                   (sample_graph GFA1 [] [sample_line GFA1 "1" "+" "2" "+"] [])
                   "2" _) _).
  - constructor; [| constructor].
    exists ["L"; "1"; "+"; "2"; "+"; "*"], GFA1, {| ws := None |}.
    reflexivity.
  - apply List.Exists_cons_hd. unfold starts_at. cbn. discriminate.
Defined.

(** ** The extra fields of a line *)

Lemma int_text_inj (a b : Z) : int_text a = int_text b -> a = b.
Proof.
  unfold int_text. intros H.
  assert (Hn : forall z, Z.to_int z <> Pos Nil /\ Z.to_int z <> Neg Nil).
  { intros [| p | p]; cbn; split; try discriminate;
      intros [= E]; now apply DecimalPos.Unsigned.to_uint_nonnil in E. }
  apply (f_equal NilZero.int_of_string) in H.
  rewrite !NilZero.isi in H by apply Hn.
  injection H as H. now apply DecimalZ.to_int_inj.
Qed.

Lemma py_str_int_Ok_inv (n : Z) (s : string) :
  py_str_int n = Ok s -> s = int_text n /\ int_str_ok n = true.
Proof.
  unfold py_str_int, int_str_ok.
  destruct (max_str_digits <? int_digits n)%nat; [discriminate |].
  now intros [= <-].
Qed.

Lemma py_str_int_of_ok (n : Z) :
  int_str_ok n = true -> py_str_int n = Ok (int_text n).
Proof.
  unfold py_str_int, int_str_ok.
  now destruct (max_str_digits <? int_digits n)%nat.
Qed.

Lemma ARG_key_inj (a b : Z) :
  "ARG" ++ int_text a = "ARG" ++ int_text b -> a = b.
Proof.
  cbn. intros [= H]. now apply int_text_inj.
Qed.

Lemma ARG_key_length (a : Z) (k : string) :
  String.length k = 2%nat -> "ARG" ++ int_text a <> k.
Proof.
  intros Hk E. rewrite <- E in Hk. cbn in Hk. discriminate.
Qed.

(** A key that no token of the list writes keeps its value. *)
Lemma extra_fields_frame (tokens : list string) :
  forall (mapping : dict) (nargs : Z) (m : dict) (k : string),
    extra_fields tokens mapping nargs = Ok m ->
    (forall tok, List.In tok tokens -> tag_match tok = true ->
                 tag_key tok <> k) ->
    (forall i, 0 <= i -> "ARG" ++ int_text (nargs + i) <> k) ->
    dict_get m k = dict_get mapping k.
Proof.
  induction tokens as [| tok tl IH]; intros mapping nargs m k H Htag Harg;
    cbn [extra_fields] in H.
  - now injection H as <-.
  - destruct (tag_match tok) eqn:Et.
    + inv_bind H. inv_bind H. inv_bind H.
      rewrite (IH _ _ _ k H).
      * apply dict_get_set_other. apply Htag; [now left | exact Et].
      * intros tok' Hin. apply Htag. now right.
      * exact Harg.
    + inv_bind H. apply py_str_int_Ok_inv in Ha as [-> _].
      rewrite (IH _ _ _ k H).
      * apply dict_get_set_other. specialize (Harg 0).
        rewrite Z.add_0_r in Harg. apply Harg. lia.
      * intros tok' Hin. apply Htag. now right.
      * intros i Hi. replace (nargs + 1 + i) with (nargs + (1 + i)) by lia.
        apply Harg. lia.
Qed.

Lemma extra_fields_spec (tokens : list string) :
  forall (mapping : dict) (nargs : Z) (m : dict),
    extra_fields tokens mapping nargs = Ok m ->
    forall (j : nat) (tok : string),
      List.nth_error tokens j = Some tok ->
      (tag_match tok = true ->
       exists letter cast v,
         str_getitem tok 3 = Ok letter
         /\ gtype letter = Ok cast
         /\ cast (str_slice tok (Some 5) None) = Ok v
         /\ ((forall tok', List.In tok' (List.skipn (S j) tokens) ->
                           tag_match tok' = true ->
                           tag_key tok' <> tag_key tok) ->
             dict_get m (tag_key tok) = Some v))
      /\ (tag_match tok = false ->
          dict_get m ("ARG" ++ int_text (nargs + unmatched_before tokens j))
          = Some (PStr tok)).
Proof.
  induction tokens as [| tok0 tl IH]; intros mapping nargs m H j tok Hj.
  - destruct j; discriminate.
  - cbn [extra_fields] in H. destruct j as [| j]; cbn [List.nth_error] in Hj.
    + injection Hj as ->. split; intros Et; rewrite Et in H.
      * inv_bind H. inv_bind H. inv_bind H.
        exists a, a0, a1. repeat (split; [assumption |]).
        intros Hlater. cbn [List.skipn] in Hlater.
        rewrite (extra_fields_frame _ _ _ _ _ H).
        -- rewrite dict_get_set. now rewrite String.eqb_refl.
        -- exact Hlater.
        -- intros i _. apply ARG_key_length.
           now apply tag_match_key_length.
      * inv_bind H. apply py_str_int_Ok_inv in Ha as [-> _].
        unfold unmatched_before. cbn [List.firstn List.filter List.length].
        rewrite Z.add_0_r.
        rewrite (extra_fields_frame _ _ _ _ _ H).
        -- rewrite dict_get_set. now rewrite String.eqb_refl.
        -- intros tok' _ Et' E. symmetry in E. revert E.
           apply ARG_key_length. now apply tag_match_key_length.
        -- intros i Hi E. apply ARG_key_inj in E. lia.
    + destruct (tag_match tok0) eqn:Et0.
      * inv_bind H. inv_bind H. inv_bind H.
        destruct (IH _ _ _ H j tok Hj) as [Ht Hu]. split.
        -- exact Ht.
        -- intros Et. specialize (Hu Et).
           unfold unmatched_before in *. cbn [List.firstn List.filter].
           now rewrite Et0.
      * inv_bind H.
        destruct (IH _ _ _ H j tok Hj) as [Ht Hu]. split.
        -- exact Ht.
        -- intros Et. specialize (Hu Et).
           unfold unmatched_before in *. cbn [List.firstn List.filter].
           rewrite Et0. cbn [negb List.length].
           rewrite Nat2Z.inj_succ.
           replace (nargs + Z.succ
                      (Z.of_nat
                         (List.length
                            (List.filter (fun tok1 => negb (tag_match tok1))
                               (List.firstn j tl)))))
             with (nargs + 1
                   + Z.of_nat
                       (List.length
                          (List.filter (fun tok1 => negb (tag_match tok1))
                             (List.firstn j tl)))) by lia.
           exact Hu.
Qed.

Lemma supplementary_datas_trailing_tokens
  (fields : list string) (length_condition : Z) (mapping : dict) :
  supplementary_datas fields length_condition = Ok mapping ->
  trailing_tokens_stored fields length_condition mapping.
Proof.
  unfold supplementary_datas, trailing_tokens_stored.
  destruct (length_condition <? Z.of_nat (List.length fields)) eqn:E.
  - intros H j tok Hj. exact (extra_fields_spec _ _ _ _ H j tok Hj).
  - intros _ j tok Hj. exfalso.
    apply Z.ltb_ge in E.
    assert (Hnil : py_slice fields (Some length_condition) None = []).
    { rewrite py_slice_from by lia. apply List.skipn_all2. lia. }
    rewrite Hnil in Hj. destruct j; discriminate.
Qed.

(** The keys of the mapping [supplementary_datas] returns are distinct,
    so in [{**line_datas, **extra}] each of them reads as in [extra]. *)
Lemma dict_set_keys_NoDup (d : dict) (k : string) (v : PyVal) :
  List.NoDup (List.map fst d) -> List.NoDup (List.map fst (dict_set d k v)).
Proof.
  induction d as [| [k1 v1] d IH]; cbn [dict_set List.map fst]; intros H.
  - constructor; [intros [] | constructor].
  - inversion H as [| ? ? Hnot Hd]; subst.
    destruct (String.eqb_spec k1 k) as [-> | Hne]; cbn [List.map fst].
    + now constructor.
    + constructor; [| now apply IH].
      intros Hin. apply List.in_map_iff in Hin.
      destruct Hin as ([k' v'] & Hk & Hin). cbn [fst] in Hk. subst k'.
      apply dict_set_In in Hin. destruct Hin as [Hin | ->];
        [| contradiction].
      apply Hnot. apply List.in_map_iff. now exists (k1, v').
Qed.

Lemma extra_fields_NoDup (tokens : list string) :
  forall (mapping : dict) (nargs : Z) (m : dict),
    extra_fields tokens mapping nargs = Ok m ->
    List.NoDup (List.map fst mapping) -> List.NoDup (List.map fst m).
Proof.
  induction tokens as [| tok tl IH]; intros mapping nargs m H Hm;
    cbn [extra_fields] in H.
  - now injection H as <-.
  - destruct (tag_match tok).
    + inv_bind H. inv_bind H. inv_bind H.
      apply (IH _ _ _ H). now apply dict_set_keys_NoDup.
    + inv_bind H. apply (IH _ _ _ H). now apply dict_set_keys_NoDup.
Qed.

Lemma supplementary_datas_NoDup (fields : list string) (n : Z) (m : dict) :
  supplementary_datas fields n = Ok m -> List.NoDup (List.map fst m).
Proof.
  unfold supplementary_datas. destruct (_ <? _).
  - intros H. apply (extra_fields_NoDup _ _ _ _ H). constructor.
  - intros [= <-]. constructor.
Qed.

Lemma dict_get_merge_extra (d2 d1 : dict) (k : string) (v : PyVal) :
  List.NoDup (List.map fst d2) -> dict_get d2 k = Some v ->
  dict_get (dict_merge d1 d2) k = Some v.
Proof.
  revert d1. induction d2 as [| [k0 v0] d2 IH]; intros d1 Hnd H;
    [discriminate |].
  cbn [List.map fst] in Hnd. inversion Hnd as [| ? ? Hnot Hnd']; subst.
  change (dict_merge d1 ((k0, v0) :: d2))
    with (dict_merge (dict_set d1 k0 v0) d2).
  cbn [dict_get] in H. destruct (String.eqb_spec k0 k) as [-> | Hne].
  - injection H as ->. rewrite dict_get_merge_absent.
    + rewrite dict_get_set. now rewrite String.eqb_refl.
    + intros kv Hin E. apply Hnot. rewrite <- E. now apply List.in_map.
  - now apply IH.
Qed.

Lemma trailing_tokens_stored_merge (fields : list string) (n : Z)
  (base extra : dict) :
  supplementary_datas fields n = Ok extra ->
  trailing_tokens_stored fields n (dict_merge base extra).
Proof.
  intros H. pose proof (supplementary_datas_NoDup _ _ _ H) as Hnd.
  apply supplementary_datas_trailing_tokens in H.
  intros j tok Hj. destruct (H j tok Hj) as [Ht Hu]. split.
  - intros Et. destruct (Ht Et) as (letter & cast & v & H1 & H2 & H3 & H4).
    exists letter, cast, v. repeat (split; [assumption |]).
    intros Hlater. apply dict_get_merge_extra; auto.
  - intros Et. apply dict_get_merge_extra; auto.
Qed.

(** ** Errors and partial mutation *)

Create HintDb quiet.

Lemma quiet_Ok {A : Type} (a : A) : quiet (Ok a).
Proof. discriminate. Qed.

Lemma quiet_bind {A B : Type} (c : res A) (k : A -> res B) :
  quiet c -> (forall a, quiet (k a)) -> quiet (bind c k).
Proof.
  intros Hc Hk. destruct c as [a | e]; cbn [bind]; [apply Hk |].
  intros [= ->]. now apply Hc.
Qed.

Lemma quiet_dict_getitem (d : dict) (k : string) : quiet (dict_getitem d k).
Proof. unfold quiet, dict_getitem. destruct (dict_get d k); discriminate. Qed.

Lemma quiet_py_getitem {A : Type} (l : list A) (i : Z) : quiet (py_getitem l i).
Proof.
  unfold quiet, py_getitem.
  destruct (_ <? 0); [discriminate |]. destruct (List.nth_error _ _); discriminate.
Qed.

Lemma quiet_record_at (l : list GfaRecord) (i : nat) :
  quiet (Graph.record_at l i).
Proof.
  unfold quiet, Graph.record_at. destruct (List.nth_error l i); discriminate.
Qed.

Lemma quiet_val_slice (v : PyVal) (lo hi : option Z) : quiet (val_slice v lo hi).
Proof. unfold quiet; destruct v; discriminate. Qed.

Lemma quiet_val_split (v : PyVal) : quiet (val_split v).
Proof. unfold quiet; destruct v; discriminate. Qed.

Lemma quiet_val_str (v : PyVal) : quiet (val_str v).
Proof. unfold quiet; destruct v; discriminate. Qed.

Lemma quiet_py_len (v : PyVal) : quiet (py_len v).
Proof. unfold quiet; destruct v; discriminate. Qed.

Lemma quiet_repeat_N (v : PyVal) : quiet (repeat_N v).
Proof. unfold quiet; destruct v; discriminate. Qed.

Lemma quiet_join_vals (l : list PyVal) : quiet (join_vals l).
Proof.
  induction l as [| v l IH]; cbn [join_vals]; [apply quiet_Ok |].
  destruct v; try discriminate.
  apply quiet_bind; [exact IH | intros; apply quiet_Ok].
Qed.

#[local] Hint Resolve quiet_Ok quiet_dict_getitem quiet_py_getitem
  quiet_record_at quiet_val_slice quiet_val_split quiet_val_str
  quiet_py_len quiet_repeat_N quiet_join_vals : quiet.

Lemma quiet_mapM {A B : Type} (f : A -> res B) (l : list A) :
  (forall x, quiet (f x)) -> quiet (mapM f l).
Proof.
  intros Hf. induction l as [| x l IH]; cbn [mapM]; [apply quiet_Ok |].
  apply quiet_bind; [apply Hf | intros].
  apply quiet_bind; [exact IH | intros; apply quiet_Ok].
Qed.

Lemma quiet_filterM {A : Type} (p : A -> res bool) (l : list A) :
  (forall x, quiet (p x)) -> quiet (Graph.filterM p l).
Proof.
  intros Hp. induction l as [| x l IH]; cbn [Graph.filterM]; [apply quiet_Ok |].
  apply quiet_bind; [apply Hp | intros].
  apply quiet_bind; [exact IH | intros; apply quiet_Ok].
Qed.

Lemma quiet_touches (node : string) (edge : GfaRecord) :
  quiet (Graph.touches node edge).
Proof.
  unfold Graph.touches. apply quiet_bind; [auto with quiet | intros a].
  destruct (val_eq_str a node); [apply quiet_Ok |].
  apply quiet_bind; [auto with quiet | intros; apply quiet_Ok].
Qed.

Lemma quiet_get_edges_positions (g : Graph.t) (node : string) :
  quiet (Graph.get_edges_positions g node).
Proof.
  unfold Graph.get_edges_positions.
  apply quiet_bind; [| intros; apply quiet_Ok].
  apply quiet_filterM. intros; apply quiet_touches.
Qed.

Lemma quiet_segment_name_at (g : Graph.t) (i : nat) :
  quiet (Graph.segment_name_at g i).
Proof.
  unfold Graph.segment_name_at.
  repeat (apply quiet_bind; [auto with quiet | intros]). auto with quiet.
Qed.

#[local] Hint Resolve quiet_touches quiet_get_edges_positions
  quiet_segment_name_at : quiet.

Lemma quietM_ret {A : Type} (a : A) : quietM (Graph.ret a).
Proof. intros g. discriminate. Qed.

Lemma quietM_lift {A : Type} (c : res A) : quiet c -> quietM (Graph.lift c).
Proof. intros H g. exact H. Qed.

Lemma quietM_read {A : Type} (f : Graph.t -> res A) :
  (forall g, quiet (f g)) -> quietM (Graph.read f).
Proof. intros H g. apply H. Qed.

Lemma quietM_bind {A B : Type} (c : Graph.M A) (k : A -> Graph.M B) :
  quietM c -> (forall a, quietM (k a)) -> quietM (Graph.bindM c k).
Proof.
  intros Hc Hk g. unfold Graph.bindM. specialize (Hc g).
  destruct (c g) as [[a | e] g']; cbn [fst] in *; [apply Hk |].
  intros [= ->]. now apply Hc.
Qed.

Lemma quietM_for_each {A : Type} (l : list A) (body : A -> Graph.M unit) :
  (forall x, quietM (body x)) -> quietM (Graph.for_each l body).
Proof.
  intros Hb. induction l as [| x l IH]; cbn [Graph.for_each].
  - apply quietM_ret.
  - apply quietM_bind; [apply Hb | intros _; exact IH].
Qed.

Lemma quietM_segment_at (i : nat) : quietM (Graph.segment_at i).
Proof. apply quietM_read. intros; apply quiet_record_at. Qed.

Lemma quietM_line_at (i : nat) : quietM (Graph.line_at i).
Proof. apply quietM_read. intros; apply quiet_record_at. Qed.

Lemma quietM_set_segment_field (i : nat) (k : string) (v : PyVal) :
  quietM (Graph.set_segment_field i k v).
Proof.
  intros g. unfold Graph.set_segment_field.
  destruct (List.nth_error _ _); discriminate.
Qed.

Lemma quietM_set_line_field (i : nat) (k : string) (v : PyVal) :
  quietM (Graph.set_line_field i k v).
Proof.
  intros g. unfold Graph.set_line_field.
  destruct (List.nth_error _ _); discriminate.
Qed.

Lemma each_record_quiet (f : GfaRecord -> res GfaRecord) (l : list GfaRecord) :
  (forall rec, quiet (f rec)) -> fst (Graph.each_record f l) <> Raise ValueError.
Proof.
  intros Hf. induction l as [| rec l IH]; cbn [Graph.each_record].
  - discriminate.
  - specialize (Hf rec). destruct (f rec) as [rec' | e].
    + destruct (Graph.each_record f l). exact IH.
    + cbn [fst]. intros [= ->]. now apply Hf.
Qed.

Lemma quietM_each_path (f : GfaRecord -> res GfaRecord) :
  (forall rec, quiet (f rec)) -> quietM (Graph.each_path f).
Proof.
  intros Hf g. unfold Graph.each_path.
  pose proof (each_record_quiet f (Graph.paths g) Hf) as H1.
  destruct (Graph.each_record f (Graph.paths g)) as [[[] | e] ps]; cbn [fst] in *.
  - pose proof (each_record_quiet f
                  (Graph.walks (Graph.set_paths g ps)) Hf) as H2.
    destruct (Graph.each_record f (Graph.walks (Graph.set_paths g ps))).
    exact H2.
  - exact H1.
Qed.

(** The loop body over a record that holds a list of steps raises
    [ValueError] only if [f] does. *)
Lemma quiet_on_path
  (f : list (string * Orientation)
       -> res (option (list (string * Orientation)))) (rec : GfaRecord) :
  holds_steps rec = true -> (forall p, quiet (f p)) ->
  quiet (Graph.on_path f rec).
Proof.
  intros Hrec Hf. unfold Graph.on_path, holds_steps, dict_getitem in *.
  destruct (dict_get (datas rec) "path") as [v |]; cbn [bind];
    [| discriminate].
  destruct v; try discriminate. cbn [val_path bind].
  specialize (Hf p). destruct (f p) as [[p' |] | e]; cbn [bind];
    try discriminate.
  intros [= ->]. now apply Hf.
Qed.

Lemma each_record_quiet_in (f : GfaRecord -> res GfaRecord)
  (l : list GfaRecord) :
  (forall rec, List.In rec l -> quiet (f rec)) ->
  fst (Graph.each_record f l) <> Raise ValueError.
Proof.
  induction l as [| rec l IH]; intros Hf; cbn [Graph.each_record].
  - discriminate.
  - pose proof (Hf rec (or_introl eq_refl)) as Hrec.
    destruct (f rec) as [rec' | e].
    + specialize (IH (fun r Hr => Hf r (or_intror Hr))).
      destruct (Graph.each_record f l). exact IH.
    + cbn [fst]. intros [= ->]. now apply Hrec.
Qed.

Lemma readonly_lift {A : Type} (c : res A) : readonly (Graph.lift c).
Proof. intros g; reflexivity. Qed.

Lemma readonly_read {A : Type} (f : Graph.t -> res A) : readonly (Graph.read f).
Proof. intros g; reflexivity. Qed.

Lemma readonly_raise {A : Type} (e : exn) : readonly (@Graph.raise A e).
Proof. intros g; reflexivity. Qed.

Lemma readonly_bind {A B : Type} (c : Graph.M A) (k : A -> Graph.M B) :
  readonly c -> (forall a, readonly (k a)) -> readonly (Graph.bindM c k).
Proof.
  intros Hc Hk g. unfold Graph.bindM. specialize (Hc g).
  destruct (c g) as [[a | e] g']; cbn [snd] in *; subst g'; [apply Hk |].
  reflexivity.
Qed.

Lemma clean_of_quiet {A : Type} (c : Graph.M A) :
  quietM c -> clean_on_ValueError c.
Proof. intros H g E. now apply H in E. Qed.

Lemma clean_of_readonly {A : Type} (c : Graph.M A) :
  readonly c -> clean_on_ValueError c.
Proof. intros H g _. apply H. Qed.

Lemma clean_bind {A B : Type} (c : Graph.M A) (k : A -> Graph.M B) :
  readonly c -> (forall a, clean_on_ValueError (k a)) ->
  clean_on_ValueError (Graph.bindM c k).
Proof.
  intros Hc Hk g. unfold Graph.bindM. specialize (Hc g).
  destruct (c g) as [[a | e] g']; cbn [snd] in *; subst g'; [apply Hk |].
  reflexivity.
Qed.

(** One step of a proof that a chain of method steps is quiet. *)
Ltac quiet_step :=
  lazymatch goal with
  | |- quietM (if ?b then _ else _) => destruct b
  | |- quiet (if ?b then _ else _) => destruct b
  | |- quietM (Graph.ret _) => apply quietM_ret
  | |- quietM (Graph.segment_at _) => apply quietM_segment_at
  | |- quietM (Graph.line_at _) => apply quietM_line_at
  | |- quietM (Graph.set_segment_field _ _ _) => apply quietM_set_segment_field
  | |- quietM (Graph.set_line_field _ _ _) => apply quietM_set_line_field
  | |- quietM (Graph.bindM _ _) => apply quietM_bind; [| intros]
  | |- quietM (Graph.lift _) => apply quietM_lift
  | |- quietM (Graph.read _) => apply quietM_read; intros
  | |- quiet (bind _ _) => apply quiet_bind; [| intros]
  | |- quiet _ => solve [auto with quiet]
  end.

Lemma quietM_split_edges (segment_name : string) (names : list string)
  (edges : list nat) :
  forall orient, quietM (Graph.split_edges segment_name names edges orient).
Proof.
  induction edges as [| e tl IH]; intros orient; cbn [Graph.split_edges].
  - apply quietM_ret.
  - repeat quiet_step; apply IH.
Qed.

Lemma quietM_split_step (segment_name : string) (names : list string)
  (sequence : PyVal) (orient : string) (positions : list Z) (ipos : nat * Z) :
  quietM (Graph.split_step segment_name names sequence orient positions ipos).
Proof.
  destruct ipos as [i pos1]. unfold Graph.split_step.
  apply quietM_bind; [repeat quiet_step | intros pos2].
  apply quietM_bind; [repeat quiet_step | intros name_i].
  intros g. cbn. discriminate.
Qed.

Ltac quiet_chain :=
  repeat first
    [ quiet_step
    | apply quietM_split_edges
    | apply quietM_split_step
    | apply quietM_for_each; intros
    | apply quiet_mapM; intros ].

Lemma clean_split_segments (segment_name : string)
  (names : Graph.names_arg) (positions : Graph.positions_arg) :
  clean_on_ValueError (Graph.split_segments segment_name names positions).
Proof.
  unfold Graph.split_segments.
  apply clean_bind; [apply readonly_read | intros node].
  destruct (negb _); [apply clean_of_readonly, readonly_raise |].
  apply clean_of_quiet. quiet_chain.
Qed.

(** *** [merge_segments] on paths that hold steps *)

Lemma keeps_paths_ret {A : Type} (a : A) : keeps_paths (Graph.ret a).
Proof. intros g; split; reflexivity. Qed.

Lemma keeps_paths_lift {A : Type} (c : res A) : keeps_paths (Graph.lift c).
Proof. intros g; split; reflexivity. Qed.

Lemma keeps_paths_read {A : Type} (f : Graph.t -> res A) :
  keeps_paths (Graph.read f).
Proof. intros g; split; reflexivity. Qed.

Lemma keeps_paths_set_segment_field (i : nat) (k : string) (v : PyVal) :
  keeps_paths (Graph.set_segment_field i k v).
Proof.
  intros g. unfold Graph.set_segment_field.
  destruct (List.nth_error _ _); split; reflexivity.
Qed.

Lemma keeps_paths_set_line_field (i : nat) (k : string) (v : PyVal) :
  keeps_paths (Graph.set_line_field i k v).
Proof.
  intros g. unfold Graph.set_line_field.
  destruct (List.nth_error _ _); split; reflexivity.
Qed.

Lemma keeps_paths_bind {A B : Type} (c : Graph.M A) (k : A -> Graph.M B) :
  keeps_paths c -> (forall a, keeps_paths (k a)) ->
  keeps_paths (Graph.bindM c k).
Proof.
  intros Hc Hk g. unfold Graph.bindM. specialize (Hc g).
  destruct (c g) as [[a | e] g']; cbn [snd] in *; [| exact Hc].
  destruct (Hk a g') as [H1 H2]. destruct Hc as [H3 H4].
  split; congruence.
Qed.

Lemma keeps_paths_for_each {A : Type} (l : list A)
  (body : A -> Graph.M unit) :
  (forall x, keeps_paths (body x)) -> keeps_paths (Graph.for_each l body).
Proof.
  intros Hb. induction l as [| x l IH]; cbn [Graph.for_each].
  - apply keeps_paths_ret.
  - apply keeps_paths_bind; [apply Hb | intros _; exact IH].
Qed.

Ltac keeps_chain :=
  repeat first
    [ apply keeps_paths_ret
    | apply keeps_paths_lift
    | apply keeps_paths_read
    | apply keeps_paths_set_segment_field
    | apply keeps_paths_set_line_field
    | apply keeps_paths_bind; [| intros]
    | apply keeps_paths_for_each; intros
    | match goal with
      | |- keeps_paths (if ?b then _ else _) => destruct b
      end ].

Lemma quiet_from_bind {A B : Type} (P Q R : Graph.t -> Prop)
  (c : Graph.M A) (k : A -> Graph.M B) :
  quiet_from P Q c -> (forall a, quiet_from Q R (k a)) ->
  quiet_from P R (Graph.bindM c k).
Proof.
  intros Hc Hk g HP. unfold Graph.bindM. specialize (Hc g HP).
  destruct (c g) as [[a | e] g']; [exact (Hk a g' Hc) | exact Hc].
Qed.

Lemma quiet_from_keeps {A : Type} (c : Graph.M A) :
  quietM c -> keeps_paths c ->
  quiet_from (fun g => paths_hold_steps g = true)
             (fun g => paths_hold_steps g = true) c.
Proof.
  intros Hq Hk g HP. specialize (Hq g). destruct (Hk g) as [H1 H2].
  destruct (c g) as [[a | e] g']; cbn [fst snd] in *.
  - unfold paths_hold_steps, Graph.get_path_list in *. now rewrite H1, H2.
  - intros ->. now apply Hq.
Qed.

Lemma quiet_from_each_path
  (f : list (string * Orientation)
       -> res (option (list (string * Orientation)))) :
  (forall p, quiet (f p)) ->
  quiet_from (fun g => paths_hold_steps g = true) (fun _ => True)
             (Graph.each_path (Graph.on_path f)).
Proof.
  intros Hf g HP. unfold paths_hold_steps, Graph.get_path_list in HP.
  rewrite List.forallb_app in HP. apply Bool.andb_true_iff in HP as [Hp Hw].
  rewrite List.forallb_forall in Hp, Hw.
  unfold Graph.each_path.
  pose proof (each_record_quiet_in (Graph.on_path f) (Graph.paths g)
                (fun rec Hin => quiet_on_path f rec (Hp rec Hin) Hf)) as H1.
  destruct (Graph.each_record (Graph.on_path f) (Graph.paths g))
    as [[[] | e] ps]; cbn [fst] in H1.
  - pose proof (each_record_quiet_in (Graph.on_path f)
                  (Graph.walks (Graph.set_paths g ps))
                  (fun rec Hin => quiet_on_path f rec (Hw rec Hin) Hf)) as H2.
    destruct (Graph.each_record (Graph.on_path f)
                (Graph.walks (Graph.set_paths g ps))) as [[[] | e] ws];
      cbn [fst] in H2; [exact I | congruence].
  - congruence.
Qed.

Lemma clean_from_quiet {A : Type} (P Q : Graph.t -> Prop) (c : Graph.M A) :
  quiet_from P Q c ->
  forall g, P g -> fst (c g) = Raise ValueError -> snd (c g) = g.
Proof.
  intros H g HP E. specialize (H g HP).
  destruct (c g) as [[a | e] g']; cbn [fst] in E; [discriminate |].
  injection E as ->. now contradiction H.
Qed.

Lemma clean_from_bind {A B : Type} (P : Graph.t -> Prop)
  (c : Graph.M A) (k : A -> Graph.M B) :
  readonly c ->
  (forall a g, P g -> fst (k a g) = Raise ValueError -> snd (k a g) = g) ->
  forall g, P g ->
            fst (Graph.bindM c k g) = Raise ValueError ->
            snd (Graph.bindM c k g) = g.
Proof.
  intros Hc Hk g HP. unfold Graph.bindM. specialize (Hc g).
  destruct (c g) as [[a | e] g']; cbn [snd] in *; subst g';
    [now apply Hk | reflexivity].
Qed.

Lemma clean_merge_segments (segs : list string) (g : Graph.t) :
  paths_hold_steps g = true ->
  fst (Graph.merge_segments segs g) = Raise ValueError ->
  snd (Graph.merge_segments segs g) = g.
Proof.
  revert g. unfold Graph.merge_segments.
  apply clean_from_bind; [apply readonly_lift | intros ordered].
  apply clean_from_bind; [apply readonly_read | intros positions].
  apply clean_from_bind; [apply readonly_lift | intros left_most].
  apply clean_from_bind; [apply readonly_lift | intros right_most].
  apply clean_from_bind;
    [apply readonly_bind; [apply readonly_read | intros; apply readonly_lift]
    | intros old].
  apply clean_from_bind; [apply readonly_read | intros lengths].
  apply clean_from_bind; [apply readonly_lift | intros total].
  apply (clean_from_quiet _ (fun _ => True)).
  repeat (apply (quiet_from_bind _ (fun g => paths_hold_steps g = true));
          [apply quiet_from_keeps; [solve [quiet_chain] | solve [keeps_chain]]
          | intros]).
  apply (quiet_from_bind _ (fun _ => True));
    [apply quiet_from_each_path; intros; apply quiet_Ok | intros].
  apply (quiet_from_bind _ (fun _ => True)); intros; intros g' _; exact I.
Qed.

(** C3, as amended.  A call to [split_segments] that raises [ValueError]
    (a segment name that is not in the graph, two argument lists of
    different lengths) leaves the graph exactly as it was.  So does a call
    to [merge_segments] that raises [ValueError] (a name [int] rejects, a
    name that is not in the graph, a length [int] rejects), when every path
    and every walk of the graph holds under ['path'] the list of (name,
    orientation) pairs the parsers store there.  Nothing is said of a call
    that raises another exception. *)
Theorem editor_ValueError_leaves_graph (g : Graph.t) :
  (forall segment_name names positions,
      fst (Graph.split_segments segment_name names positions g)
      = Raise ValueError ->
      snd (Graph.split_segments segment_name names positions g) = g)
  /\ (paths_hold_steps g = true ->
      forall segs,
        fst (Graph.merge_segments segs g) = Raise ValueError ->
        snd (Graph.merge_segments segs g) = g).
Proof.
  split.
  - intros segment_name names positions. apply clean_split_segments.
  - intros Hg segs. now apply clean_merge_segments.
Qed.

(** Two calls on the graph of one segment and one path that raise
    [ValueError]: a split with two names for one position, a merge that
    names a segment the graph does not hold. *)
Lemma editor_ValueError_leaves_graph_witness :
  (fst (Graph.split_segments "1" (Graph.NameList ["10"; "11"])
          (Graph.PosList [2]) one_segment_graph) = Raise ValueError
   /\ snd (Graph.split_segments "1" (Graph.NameList ["10"; "11"])
             (Graph.PosList [2]) one_segment_graph) = one_segment_graph)
  /\ (paths_hold_steps one_segment_graph = true
      /\ fst (Graph.merge_segments ["1"; "9"] one_segment_graph)
         = Raise ValueError
      /\ snd (Graph.merge_segments ["1"; "9"] one_segment_graph)
         = one_segment_graph).
Proof.
  split; [split; [reflexivity |] | split; [reflexivity | split;
                                                         [reflexivity |]]].
  - apply (proj1 (editor_ValueError_leaves_graph one_segment_graph)).
    reflexivity.
  - apply (proj2 (editor_ValueError_leaves_graph one_segment_graph));
      reflexivity.
Defined.

(** The condition on the paths is needed: on a graph whose path record
    holds the [str] [ab] under ['path'], the loop over the paths unpacks the
    one-character item [a] and raises [ValueError] after the length and the
    sequence of segment [1] were rewritten. *)
Lemma merge_ValueError_after_mutation :
  paths_hold_steps str_path_graph = false
  /\ fst (Graph.merge_segments ["1"; "2"] str_path_graph) = Raise ValueError
  /\ Graph.segments (snd (Graph.merge_segments ["1"; "2"] str_path_graph))
     = [{| gfastyle := Some GFA1; linetype := Segment;
           datas := [("name", PStr "1"); ("length", PInt 8);
                     ("seq", PStr "ACGTGGTT")] |};
        sample_segment GFA1 "2" "GGTT"].
Proof. repeat split. Qed.

(** C3 fails as stated.  Splitting segment [1] (sequence [ACGT]) at 2 raises
    [AttributeError] after the stored sequence was cut to [AC]; merging the
    two segments of the loaded two-segment file raises [KeyError('stop')]
    after the length and the sequence of segment [1] were rewritten. *)
Lemma editor_error_after_mutation :
  (fst (Graph.split_segments "1" (Graph.NameList ["10"]) (Graph.PosList [2])
          one_segment_graph) = Raise AttributeError
   /\ Graph.segments
        (snd (Graph.split_segments "1" (Graph.NameList ["10"])
                (Graph.PosList [2]) one_segment_graph))
      = [{| gfastyle := Some GFA1; linetype := Segment;
            datas := [("name", PStr "1"); ("length", PInt 4);
                      ("seq", PStr "AC")] |}]
   /\ Graph.segments
        (snd (Graph.split_segments "1" (Graph.NameList ["10"])
                (Graph.PosList [2]) one_segment_graph))
      <> Graph.segments one_segment_graph)
  /\ (Graph.init two_segments_file "GFA1" true = Ok two_segments_graph
      /\ fst (Graph.merge_segments ["1"; "2"] two_segments_graph)
         = Raise (KeyError "stop")
      /\ Graph.segments (snd (Graph.merge_segments ["1"; "2"] two_segments_graph))
         = [{| gfastyle := Some GFA1; linetype := Segment;
               datas := [("name", PStr "1"); ("length", PInt 8);
                         ("seq", PStr "ACGTGGTT")] |};
            sample_segment GFA1 "2" "GGTT"]
      /\ Graph.segments (snd (Graph.merge_segments ["1"; "2"] two_segments_graph))
         <> Graph.segments two_segments_graph).
Proof.
  repeat split; try reflexivity; vm_compute; discriminate.
Qed.

(** ** [split_segments] never completes *)

Lemma failing_bind_l {A B : Type} (c : Graph.M A) (k : A -> Graph.M B) :
  failing c -> failing (Graph.bindM c k).
Proof.
  intros Hc g. unfold Graph.bindM. specialize (Hc g).
  destruct (c g) as [[a | e] g']; cbn in *; [discriminate | reflexivity].
Qed.

Lemma failing_bind_r {A B : Type} (c : Graph.M A) (k : A -> Graph.M B) :
  (forall a, failing (k a)) -> failing (Graph.bindM c k).
Proof.
  intros Hk g. unfold Graph.bindM.
  destruct (c g) as [[a | e] g']; cbn; [apply Hk | reflexivity].
Qed.

Lemma is_ok_bind_r {A B : Type} (c : res A) (k : A -> res B) :
  (forall a, is_ok (k a) = false) -> is_ok (bind c k) = false.
Proof.
  intros Hk. destruct c; cbn; [apply Hk | reflexivity].
Qed.

Lemma failing_split_step (segment_name : string) (names : list string)
  (sequence : PyVal) (orient : string) (positions : list Z) (ipos : nat * Z) :
  failing (Graph.split_step segment_name names sequence orient positions ipos).
Proof.
  destruct ipos as [i pos1]. unfold Graph.split_step.
  apply failing_bind_r; intros pos2.
  apply failing_bind_r; intros name_i.
  apply failing_bind_l. intros g. reflexivity.
Qed.

Lemma split_segments_fails (segment_name : string)
  (names : Graph.names_arg) (positions : Graph.positions_arg) :
  failing (Graph.split_segments segment_name names positions).
Proof.
  unfold Graph.split_segments.
  apply failing_bind_r; intros node.
  destruct (negb _); [intros g; reflexivity |].
  apply failing_bind_r; intros sequence.
  apply failing_bind_r; intros edges.
  apply failing_bind_r; intros orient.
  destruct (Graph.positions_items positions) as [| p0 rest].
  - apply failing_bind_l. apply failing_bind_r; intros seg.
    intros g. cbn [Graph.lift fst].
    destruct (dict_contains _ _); [apply is_ok_bind_r; intros |]; reflexivity.
  - apply failing_bind_r; intros first. apply failing_bind_r; intros _.
    apply failing_bind_r; intros n.
    rewrite py_slice_drop_last. cbn [enumerate enumerate_from Graph.for_each].
    apply failing_bind_l, failing_split_step.
Qed.

(** *** What it raises is a Python exception *)

Lemma modelled_Ok {A : Type} (a : A) : modelled (Ok a).
Proof. discriminate. Qed.

Lemma modelled_bind {A B : Type} (c : res A) (k : A -> res B) :
  modelled c -> (forall a, modelled (k a)) -> modelled (bind c k).
Proof.
  intros Hc Hk. destruct c as [a | e]; cbn [bind]; [apply Hk |].
  intros [= ->]. now apply Hc.
Qed.

Lemma modelled_dict_getitem (d : dict) (k : string) :
  modelled (dict_getitem d k).
Proof.
  unfold modelled, dict_getitem. destruct (dict_get d k); discriminate.
Qed.

Lemma modelled_py_getitem {A : Type} (l : list A) (i : Z) :
  modelled (py_getitem l i).
Proof.
  unfold modelled, py_getitem.
  destruct (_ <? 0); [discriminate |].
  destruct (List.nth_error _ _); discriminate.
Qed.

Lemma modelled_record_at (l : list GfaRecord) (i : nat) :
  modelled (Graph.record_at l i).
Proof.
  unfold modelled, Graph.record_at. destruct (List.nth_error l i); discriminate.
Qed.

Lemma modelled_val_slice (v : PyVal) (lo hi : option Z) :
  modelled (val_slice v lo hi).
Proof. unfold modelled; destruct v; discriminate. Qed.

Lemma modelled_val_split (v : PyVal) : modelled (val_split v).
Proof. unfold modelled; destruct v; discriminate. Qed.

Lemma modelled_py_len (v : PyVal) : modelled (py_len v).
Proof. unfold modelled; destruct v; discriminate. Qed.

Lemma modelled_repeat_N (v : PyVal) : modelled (repeat_N v).
Proof. unfold modelled; destruct v; discriminate. Qed.

Create HintDb modelled.

#[local] Hint Resolve modelled_Ok modelled_dict_getitem modelled_py_getitem
  modelled_record_at modelled_val_slice modelled_val_split modelled_py_len
  modelled_repeat_N : modelled.

Lemma modelled_filterM {A : Type} (p : A -> res bool) (l : list A) :
  (forall x, modelled (p x)) -> modelled (Graph.filterM p l).
Proof.
  intros Hp. induction l as [| x l IH]; cbn [Graph.filterM];
    [apply modelled_Ok |].
  apply modelled_bind; [apply Hp | intros].
  apply modelled_bind; [exact IH | intros; apply modelled_Ok].
Qed.

Lemma modelled_touches (node : string) (edge : GfaRecord) :
  modelled (Graph.touches node edge).
Proof.
  unfold Graph.touches. apply modelled_bind; [auto with modelled | intros a].
  destruct (val_eq_str a node); [apply modelled_Ok |].
  apply modelled_bind; [auto with modelled | intros; apply modelled_Ok].
Qed.

Lemma modelled_get_edges_positions (g : Graph.t) (node : string) :
  modelled (Graph.get_edges_positions g node).
Proof.
  unfold Graph.get_edges_positions.
  apply modelled_bind; [| intros; apply modelled_Ok].
  apply modelled_filterM. intros; apply modelled_touches.
Qed.

Lemma modelled_find_position (p : GfaRecord -> res bool)
  (l : list GfaRecord) :
  (forall rec, modelled (p rec)) ->
  forall i, modelled (Graph.find_position p i l).
Proof.
  intros Hp. induction l as [| rec l IH]; intros i;
    cbn [Graph.find_position]; [apply modelled_Ok |].
  apply modelled_bind; [apply Hp | intros b].
  destruct b; [apply modelled_Ok | apply IH].
Qed.

Lemma modelled_get_segment_position (g : Graph.t) (node : string) :
  modelled (Graph.get_segment_position g node).
Proof.
  unfold Graph.get_segment_position. apply modelled_bind.
  - apply modelled_find_position. intros rec. unfold Graph.name_is.
    apply modelled_bind; [auto with modelled | intros; apply modelled_Ok].
  - intros [i |]; [apply modelled_Ok | discriminate].
Qed.

#[local] Hint Resolve modelled_get_edges_positions
  modelled_get_segment_position : modelled.

Lemma modelledM_ret {A : Type} (a : A) : modelledM (Graph.ret a).
Proof. intros g. discriminate. Qed.

Lemma modelledM_raise {A : Type} (e : exn) :
  e <> OutOfModel -> modelledM (@Graph.raise A e).
Proof. intros He g [= E]. now apply He. Qed.

Lemma modelledM_lift {A : Type} (c : res A) :
  modelled c -> modelledM (Graph.lift c).
Proof. intros H g. exact H. Qed.

Lemma modelledM_read {A : Type} (f : Graph.t -> res A) :
  (forall g, modelled (f g)) -> modelledM (Graph.read f).
Proof. intros H g. apply H. Qed.

Lemma modelledM_bind {A B : Type} (c : Graph.M A) (k : A -> Graph.M B) :
  modelledM c -> (forall a, modelledM (k a)) -> modelledM (Graph.bindM c k).
Proof.
  intros Hc Hk g. unfold Graph.bindM. specialize (Hc g).
  destruct (c g) as [[a | e] g']; cbn [fst] in *; [apply Hk |].
  intros [= ->]. now apply Hc.
Qed.

Lemma modelledM_for_each {A : Type} (l : list A) (body : A -> Graph.M unit) :
  (forall x, modelledM (body x)) -> modelledM (Graph.for_each l body).
Proof.
  intros Hb. induction l as [| x l IH]; cbn [Graph.for_each].
  - apply modelledM_ret.
  - apply modelledM_bind; [apply Hb | intros _; exact IH].
Qed.

Lemma modelledM_set_segment_field (i : nat) (k : string) (v : PyVal) :
  modelledM (Graph.set_segment_field i k v).
Proof.
  intros g. unfold Graph.set_segment_field.
  destruct (List.nth_error _ _); discriminate.
Qed.

Lemma modelledM_set_line_field (i : nat) (k : string) (v : PyVal) :
  modelledM (Graph.set_line_field i k v).
Proof.
  intros g. unfold Graph.set_line_field.
  destruct (List.nth_error _ _); discriminate.
Qed.

(** One step of a proof that a chain of method steps is within the
    model. *)
Ltac modelled_step :=
  lazymatch goal with
  | |- modelledM (if ?b then _ else _) => destruct b
  | |- modelled (if ?b then _ else _) => destruct b
  | |- modelledM (Graph.ret _) => apply modelledM_ret
  | |- modelledM (Graph.segment_at _) =>
      apply modelledM_read; intros; apply modelled_record_at
  | |- modelledM (Graph.line_at _) =>
      apply modelledM_read; intros; apply modelled_record_at
  | |- modelledM (Graph.set_segment_field _ _ _) =>
      apply modelledM_set_segment_field
  | |- modelledM (Graph.set_line_field _ _ _) =>
      apply modelledM_set_line_field
  | |- modelledM (Graph.bindM _ _) => apply modelledM_bind; [| intros]
  | |- modelledM (Graph.lift _) => apply modelledM_lift
  | |- modelledM (Graph.read _) => apply modelledM_read; intros
  | |- modelled (bind _ _) => apply modelled_bind; [| intros]
  | |- modelled _ => solve [auto with modelled]
  end.

Lemma modelledM_split_edges (segment_name : string) (names : list string)
  (edges : list nat) :
  forall orient,
    modelledM (Graph.split_edges segment_name names edges orient).
Proof.
  induction edges as [| e tl IH]; intros orient; cbn [Graph.split_edges].
  - apply modelledM_ret.
  - repeat modelled_step; apply IH.
Qed.

(** The first round of the main loop stops at [new_seg.datas], before the
    loop over the paths. *)
Lemma modelledM_split_step (segment_name : string) (names : list string)
  (sequence : PyVal) (orient : string) (positions : list Z) (ipos : nat * Z) :
  modelledM
    (Graph.split_step segment_name names sequence orient positions ipos).
Proof.
  destruct ipos as [i pos1]. unfold Graph.split_step.
  apply modelledM_bind; [repeat modelled_step | intros pos2].
  apply modelledM_bind; [repeat modelled_step | intros name_i].
  intros g. cbn. discriminate.
Qed.

Lemma modelledM_split_segments (segment_name : string)
  (names : Graph.names_arg) (positions : Graph.positions_arg) :
  modelledM (Graph.split_segments segment_name names positions).
Proof.
  unfold Graph.split_segments.
  apply modelledM_bind; [repeat modelled_step | intros node].
  destruct (negb _); [apply modelledM_raise; discriminate |].
  repeat first
    [ modelled_step
    | apply modelledM_split_edges
    | apply modelledM_split_step
    | apply modelledM_for_each; intros ].
Qed.

(** No call to [split_segments] returns: whatever the graph and the
    arguments, the call raises an exception. *)
Theorem split_segments_always_raises (segment_name : string)
  (names : Graph.names_arg) (positions : Graph.positions_arg) (g : Graph.t) :
  exists e,
    fst (Graph.split_segments segment_name names positions g) = Raise e
    /\ e <> OutOfModel.
Proof.
  pose proof (split_segments_fails segment_name names positions g) as Hf.
  pose proof (modelledM_split_segments segment_name names positions g) as Hm.
  destruct (fst (Graph.split_segments segment_name names positions g))
    as [u | e]; [discriminate |].
  exists e. split; [reflexivity |]. intros ->. now apply Hm.
Qed.

(** ** The split scenario *)

(** C4 (the code departs from it).  On a graph whose segment [1] stores
    [ACGT], [split_segments("1", ["10"], [2])] does not succeed: it raises
    [AttributeError] once segment [1] is cut to [AC]; no segment [10] and no
    edge were added. *)
Theorem split_scenario_raises :
  Graph.split_segments "1" (Graph.NameList ["10"]) (Graph.PosList [2])
    one_segment_graph
  = (Raise AttributeError, one_segment_graph_after_split)
  /\ Graph.get_segment_position one_segment_graph_after_split "10"
     = Raise ValueError
  /\ Graph.lines one_segment_graph_after_split = [].
Proof.
  repeat split.
Qed.

(** ** The length of a stored sequence *)

(** C6 (the code departs from it).  The segments of [one_segment_graph]
    satisfy the invariant; after [split_segments("1", ["10"], [2])] segment
    [1] stores [AC] under ['seq'] and still 4 under ['length']. *)
Theorem split_breaks_length_invariant :
  List.Forall length_matches_seq (Graph.segments one_segment_graph)
  /\ ~ List.Forall length_matches_seq
         (Graph.segments
            (snd (Graph.split_segments "1" (Graph.NameList ["10"])
                    (Graph.PosList [2]) one_segment_graph))).
Proof.
  split.
  - constructor; [| constructor]. intros s [= <-]. reflexivity.
  - intros H. inversion H as [| rec l Hrec _]; subst.
    specialize (Hrec "AC" eq_refl). discriminate.
Qed.

(** ** Paths under a split *)

(** C1 (the code departs from it).  No split succeeds: on
    [one_segment_graph] the call raises before the path loop and the path
    still reads [1+].  The path loop itself, run on the path [0+,1+,2+] for
    the new name [10], puts [10+] before the occurrence of [1] and keeps
    that occurrence; with two occurrences the second insertion lands at the
    position the occurrence had before the first insertion. *)
Theorem split_path_keeps_original_name :
  Graph.paths
    (snd (Graph.split_segments "1" (Graph.NameList ["10"]) (Graph.PosList [2])
            one_segment_graph))
  = [sample_path GFA1 "p" [("1", FORWARD)]]
  /\ Graph.split_path "1" ["10"] "+"
       [("0", FORWARD); ("1", FORWARD); ("2", FORWARD)]
     = Ok (Some [("0", FORWARD); ("10", FORWARD); ("1", FORWARD);
                 ("2", FORWARD)])
  /\ Graph.split_path "1" ["10"] "+"
       [("1", FORWARD); ("2", FORWARD); ("1", FORWARD)]
     = Ok (Some [("10", FORWARD); ("1", FORWARD); ("10", FORWARD);
                 ("2", FORWARD); ("1", FORWARD)]).
Proof.
  repeat split.
Qed.

(** ** Paths under a merge *)

(** C2 (the code departs from it).  Merging [1], [2], [3] in
    [three_segments_graph]: the path [4+,1+,2+,3+,5+] loses the occurrence
    of the left-most name [1] together with [2] and becomes [4+,3+,5+]; the
    path [1+,2+,3+], where [1] stands at position 0, is not edited and still
    names the removed segment [2]. *)
Theorem merge_path_drops_endpoint :
  fst (Graph.merge_segments ["1"; "2"; "3"] three_segments_graph) = Ok "1"
  /\ Graph.paths
       (snd (Graph.merge_segments ["1"; "2"; "3"] three_segments_graph))
     = [sample_path GFA1 "p" [("4", FORWARD); ("3", FORWARD); ("5", FORWARD)];
        sample_path GFA1 "q" [("1", FORWARD); ("2", FORWARD); ("3", FORWARD)]]
  /\ Graph.get_segment_position
       (snd (Graph.merge_segments ["1"; "2"; "3"] three_segments_graph)) "2"
     = Raise ValueError.
Proof.
  repeat split.
Qed.

(** ** Load and save *)

(** C7 (the code departs from it).  The three-line file loads as
    [two_segments_graph]; saving it writes each S-line with a tab after the
    sequence, so the text differs from the file that was read. *)
Theorem save_adds_trailing_tab (float_repr : spec_float -> string) :
  Graph.init two_segments_file "GFA1" true = Ok two_segments_graph
  /\ Graph.save_graph float_repr two_segments_graph None
     = Ok ["S" ++ TAB ++ "1" ++ TAB ++ "ACGT" ++ TAB ++ NL;
           "S" ++ TAB ++ "2" ++ TAB ++ "GGTT" ++ TAB ++ NL;
           "L" ++ TAB ++ "1" ++ TAB ++ "+" ++ TAB ++ "2" ++ TAB ++ "+" ++ TAB
           ++ "*" ++ NL]
  /\ Graph.save_graph float_repr two_segments_graph None
     <> Ok two_segments_file.
Proof.
  repeat split. vm_compute. discriminate.
Qed.

(** ** Tag values through the codec *)

(** C8 (the code departs from it).  A value [json.loads] returns for a
    [J] tag is written with [str], not as JSON: [None] (read from [null])
    is typed [J] and written [None], a dictionary is written with single
    quotes, and [json.loads] rejects both texts; [True] (read from [true])
    is typed [i] and written [True], which [int] rejects. *)
Theorem structured_tag_not_round_trip (float_repr : spec_float -> string) :
  (json_loads "null" = Ok PNone
   /\ dtype PNone = Ok "J"
   /\ py_str float_repr PNone = "None"
   /\ (cast <- gtype "J" ;; cast (py_str float_repr PNone))
      = Raise JSONDecodeError)
  /\ (dtype (PDict [("a", PInt 1)]) = Ok "J"
      /\ py_str float_repr (PDict [("a", PInt 1)]) = "{'a': 1}"
      /\ (cast <- gtype "J" ;; cast (py_str float_repr (PDict [("a", PInt 1)])))
         = Raise JSONDecodeError)
  /\ (json_loads "true" = Ok (PBool true)
      /\ dtype (PBool true) = Ok "i"
      /\ (cast <- gtype "i" ;; cast (py_str float_repr (PBool true)))
         = Raise ValueError
      /\ (cast <- gtype "J" ;; cast (py_str float_repr (PBool true)))
         = Raise JSONDecodeError).
Proof.
  repeat split.
Qed.

(** *** What does round-trip: integers and strings *)

Lemma digit_not_space (c : ascii) :
  is_digit c = true ->
  is_space_num c = false
  /\ Ascii.eqb c "-" = false /\ Ascii.eqb c "+" = false.
Proof.
  destruct c as [[] [] [] [] [] [] [] []]; try discriminate; now repeat split.
Qed.

Lemma string_of_uint_digits (d : uint) :
  List.Forall (fun c => is_digit c = true) (chars (NilEmpty.string_of_uint d)).
Proof.
  induction d; cbn; constructor; auto.
Qed.

Lemma string_of_uint_length (d : uint) :
  List.length (chars (NilEmpty.string_of_uint d)) = Decimal.nb_digits d.
Proof.
  unfold chars. induction d; cbn in *; congruence.
Qed.

Lemma digitpart_from_digits (l : list ascii) :
  List.Forall (fun c => is_digit c = true) l ->
  digitpart_from true l = Some l.
Proof.
  induction 1 as [| c l Hc _ IH]; cbn [digitpart_from]; [reflexivity |].
  now rewrite Hc, IH.
Qed.

Lemma digitpart_digits (c : ascii) (l : list ascii) :
  List.Forall (fun c => is_digit c = true) (c :: l) ->
  digitpart (c :: l) = Some (c :: l).
Proof.
  intros H. inversion H as [| ? ? Hc Hl]; subst.
  unfold digitpart. cbn [digitpart_from]. rewrite Hc.
  now rewrite digitpart_from_digits.
Qed.

Lemma lstrip_by_none (p : ascii -> bool) (l : list ascii) :
  List.Forall (fun c => p c = false) l -> lstrip_by p l = l.
Proof.
  destruct 1 as [| c l Hc _]; cbn [lstrip_by]; [reflexivity | now rewrite Hc].
Qed.

Lemma strip_by_none (p : ascii -> bool) (l : list ascii) :
  List.Forall (fun c => p c = false) l -> strip_by p l = l.
Proof.
  intros H. unfold strip_by. rewrite (lstrip_by_none p l H).
  rewrite lstrip_by_none by now apply List.Forall_rev.
  apply List.rev_involutive.
Qed.

Lemma digits_value_uint (d : uint) :
  digits_value (chars (NilEmpty.string_of_uint d)) = Some (Z.of_uint d).
Proof.
  unfold digits_value. now rewrite text_chars, NilEmpty.usu.
Qed.

Lemma py_int_digits (d : uint) :
  d <> Nil -> (Decimal.nb_digits d <= max_str_digits)%nat ->
  py_int (NilEmpty.string_of_uint d) = Ok (Z.of_uint d)
  /\ py_int (String "-" (NilEmpty.string_of_uint d)) = Ok (- Z.of_uint d).
Proof.
  intros Hd Hlen.
  pose proof (string_of_uint_digits d) as Hds.
  pose proof (digits_value_uint d) as Hv.
  pose proof (string_of_uint_length d) as Hl.
  unfold py_int. cbn [chars list_ascii_of_string].
  fold (chars (NilEmpty.string_of_uint d)).
  set (ds := chars (NilEmpty.string_of_uint d)) in *.
  assert (Hne : exists c tl, ds = c :: tl).
  { subst ds. destruct d; try contradiction; cbn; eauto. }
  destruct Hne as (c & tl & Eds).
  assert (Hsp : List.Forall (fun c => is_space_num c = false) ds).
  { eapply List.Forall_impl; [| exact Hds]. intros x Hx.
    now destruct (digit_not_space x Hx) as (H1 & _). }
  assert (Hcap : (max_str_digits <? List.length ds)%nat = false).
  { apply Nat.ltb_ge. now rewrite Hl. }
  split.
  - rewrite strip_by_none by apply Hsp.
    rewrite Eds in *. inversion Hds as [| ? ? Hc _]; subst.
    destruct (digit_not_space c Hc) as (_ & Hm & Hp).
    cbn [split_sign]. rewrite Hm, Hp.
    rewrite digitpart_digits by exact Hds. now rewrite Hcap, Hv.
  - rewrite strip_by_none.
    + cbn [split_sign]. cbn [Ascii.eqb Bool.eqb].
      rewrite Eds in *. rewrite digitpart_digits by exact Hds.
      now rewrite Hcap, Hv.
    + constructor; [reflexivity | apply Hsp].
Qed.

(** [int] reads back the text of an integer that [str] can write. *)
Lemma py_int_int_text (z : Z) :
  int_str_ok z = true -> py_int (int_text z) = Ok z.
Proof.
  unfold int_str_ok, int_digits, int_text. intros Hz.
  apply Bool.negb_true_iff, Nat.ltb_ge in Hz.
  destruct z as [| p | p]; [reflexivity | |];
    cbn [Z.to_int NilZero.string_of_int NilZero.string_of_uint Decimal.abs]
      in *;
    pose proof (DecimalPos.Unsigned.to_uint_nonnil p) as Hn;
    destruct (py_int_digits (Pos.to_uint p) Hn Hz) as [H1 H2];
    pose proof (DecimalPos.Unsigned.of_to p) as Hp.
  - replace (NilZero.string_of_uint (Pos.to_uint p))
      with (NilEmpty.string_of_uint (Pos.to_uint p))
      by (destruct (Pos.to_uint p); [contradiction | reflexivity ..]).
    rewrite H1. unfold Z.of_uint. now rewrite Hp.
  - replace (NilZero.string_of_uint (Pos.to_uint p))
      with (NilEmpty.string_of_uint (Pos.to_uint p))
      by (destruct (Pos.to_uint p); [contradiction | reflexivity ..]).
    rewrite H2. unfold Z.of_uint. now rewrite Hp.
Qed.

Lemma py_int_py_str_int (z : Z) (s : string) :
  py_str_int z = Ok s -> py_int s = Ok z.
Proof.
  intros H. apply py_str_int_Ok_inv in H as [-> H].
  now apply py_int_int_text.
Qed.

(** *** The digit limit *)

Lemma int_digits_opp (z : Z) : int_digits (- z) = int_digits z.
Proof. now destruct z. Qed.

Lemma uint_of_string_length (s : string) (u : uint) :
  NilEmpty.uint_of_string s = Some u ->
  Decimal.nb_digits u = String.length s.
Proof.
  revert u. induction s as [| c s IH]; intros u; cbn.
  - now intros [= <-].
  - destruct (NilEmpty.uint_of_string s) as [u' |];
      [| now destruct c as [[] [] [] [] [] [] [] []]].
    specialize (IH u' eq_refl).
    destruct (uint_of_char c (Some u')) as [u0 |] eqn:E; [| discriminate].
    intros [= <-].
    destruct c as [[] [] [] [] [] [] [] []]; cbn in E; try discriminate;
      injection E as <-; cbn; now rewrite IH.
Qed.

Lemma text_length (l : list ascii) :
  String.length (text l) = List.length l.
Proof. unfold text. induction l; cbn in *; congruence. Qed.

Lemma digitpart_nonempty (l ds : list ascii) :
  digitpart l = Some ds -> ds <> [].
Proof.
  unfold digitpart. destruct l as [| c tl]; cbn [digitpart_from];
    [discriminate |].
  destruct (is_digit c).
  - destruct (digitpart_from true tl); cbn; [| discriminate].
    now intros [= <-].
  - rewrite Bool.andb_false_r. discriminate.
Qed.

Lemma int_digits_of_uint (u : uint) :
  u <> Nil -> (int_digits (Z.of_uint u) <= Decimal.nb_digits u)%nat.
Proof.
  intros Hu. unfold int_digits.
  change (Z.of_uint u) with (Z.of_int (Pos u)).
  rewrite DecimalZ.to_of. cbn [Decimal.norm Decimal.abs].
  now apply DecimalFacts.nb_digits_unorm.
Qed.

(** A number [int] returns has no more digits than the limit: [str]
    writes it. *)
Lemma py_int_str_ok (s : string) (z : Z) :
  py_int s = Ok z -> int_str_ok z = true.
Proof.
  unfold py_int.
  destruct (split_sign (strip_by is_space_num (chars s))) as [neg body].
  destruct (digitpart body) as [ds |] eqn:Ed; [| discriminate].
  destruct (max_str_digits <? List.length ds)%nat eqn:Ecap; [discriminate |].
  unfold digits_value.
  destruct (NilEmpty.uint_of_string (text ds)) as [u |] eqn:Eu;
    cbn [option_map]; [| discriminate].
  intros [= <-].
  apply Nat.ltb_ge in Ecap.
  pose proof (uint_of_string_length _ _ Eu) as Hl.
  rewrite text_length in Hl.
  assert (Hu : u <> Nil).
  { intros ->. cbn in Hl. apply (digitpart_nonempty _ _ Ed).
    now destruct ds. }
  pose proof (int_digits_of_uint u Hu) as Hd.
  unfold int_str_ok. apply Bool.negb_true_iff, Nat.ltb_ge.
  destruct neg; [rewrite int_digits_opp |]; lia.
Qed.

(** Blanks on examples: a no-break space and a next-line character are
    skipped at both ends, like a space; a unit separator is not. *)
Lemma py_int_blanks :
  py_int (String (ascii_of_nat 160) "5") = Ok 5
  /\ py_int (String (ascii_of_nat 133) "5 ") = Ok 5
  /\ py_int (String (ascii_of_nat 31) "5") = Raise ValueError
  /\ py_int (String (ascii_of_nat 31)
               (String "5" (String (ascii_of_nat 160) "")))
     = Raise ValueError.
Proof.
  split; [reflexivity |]. split; [reflexivity |]. split; reflexivity.
Qed.

Lemma little_double_digits (d : uint) :
  (Decimal.nb_digits (Decimal.Little.double d) <= S (Decimal.nb_digits d))%nat
  /\ (Decimal.nb_digits (Decimal.Little.succ_double d)
      <= S (Decimal.nb_digits d))%nat.
Proof.
  induction d as [| d [IH1 IH2] | d [IH1 IH2] | d [IH1 IH2] | d [IH1 IH2]
                 | d [IH1 IH2] | d [IH1 IH2] | d [IH1 IH2] | d [IH1 IH2]
                 | d [IH1 IH2] | d [IH1 IH2]]; cbn; split; lia.
Qed.

Lemma to_little_uint_digits (p : positive) :
  (Decimal.nb_digits (Pos.to_little_uint p) <= Pos.size_nat p)%nat.
Proof.
  induction p as [p IH | p IH |]; cbn [Pos.to_little_uint Pos.size_nat].
  - pose proof (proj2 (little_double_digits (Pos.to_little_uint p))). lia.
  - pose proof (proj1 (little_double_digits (Pos.to_little_uint p))). lia.
  - cbn. lia.
Qed.

(** A count or an index (a number up to [sys.maxsize]) is far below the
    limit. *)
Lemma index_str_ok (z : Z) :
  - sys_maxsize <= z <= sys_maxsize -> int_str_ok z = true.
Proof.
  intros Hz. unfold int_str_ok. apply Bool.negb_true_iff, Nat.ltb_ge.
  assert (H : forall p, Zpos p <= sys_maxsize ->
                        (Decimal.nb_digits (Pos.to_uint p) <= 64)%nat).
  { intros p Hp. unfold Pos.to_uint.
    rewrite DecimalFacts.nb_digits_rev.
    pose proof (to_little_uint_digits p) as H1.
    assert (H2 : (Pos.size_nat p <= Pos.size_nat (2 ^ 63))%nat).
    { apply Pos.size_nat_monotone. unfold sys_maxsize in Hp. lia. }
    change (Pos.size_nat (2 ^ 63)) with 64%nat in H2. lia. }
  unfold int_digits, max_str_digits.
  destruct z as [| p | p]; cbn [Z.to_int Decimal.abs].
  - cbn. lia.
  - specialize (H p (proj2 Hz)). lia.
  - assert (Hp : Zpos p <= sys_maxsize) by lia. specialize (H p Hp). lia.
Qed.

(** An integer of at most [max_str_digits] decimal digits is typed
    [i], the serializer writes its decimal text, and the cast of [i] reads
    that text back as the same integer. *)
Lemma int_tag_round_trip (float_repr : spec_float -> string) (z : Z) :
  (int_digits z <= max_str_digits)%nat ->
  dtype (PInt z) = Ok "i"
  /\ format_value float_repr (PInt z) = Ok (int_text z)
  /\ (cast <- gtype "i" ;; cast (int_text z)) = Ok (PInt z).
Proof.
  intros Hz.
  assert (Hok : int_str_ok z = true).
  { unfold int_str_ok. now apply Bool.negb_true_iff, Nat.ltb_ge. }
  split; [reflexivity | split].
  - unfold format_value. cbn [str_ok]. now rewrite Hok.
  - cbn. now rewrite (py_int_int_text z Hok).
Qed.

(** The integer 4300 itself. *)
Lemma int_tag_round_trip_witness :
  (int_digits 4300 <= max_str_digits)%nat
  /\ format_value (fun _ => "") (PInt 4300) = Ok "4300"
  /\ (cast <- gtype "i" ;; cast "4300") = Ok (PInt 4300).
Proof.
  split; [now apply Nat.leb_le |].
  apply (int_tag_round_trip (fun _ => "") 4300). now apply Nat.leb_le.
Defined.

(** A string written by the serializer reads back under [Z] and [A]. *)
Lemma str_tag_round_trip (float_repr : spec_float -> string) (s : string) :
  dtype (PStr s) = Ok "Z"
  /\ (cast <- gtype "Z" ;; cast (py_str float_repr (PStr s))) = Ok (PStr s)
  /\ (cast <- gtype "A" ;; cast (py_str float_repr (PStr s))) = Ok (PStr s).
Proof.
  repeat split.
Qed.

(** *** What a merge leaves alone *)

Lemma merge_path_scan_left_absent (left_most_name right_most_name : string)
  (items : list (nat * (string * Orientation))) :
  (forall item, List.In item items -> fst (snd item) <> left_most_name) ->
  forall s e,
    fst (Graph.merge_path_scan left_most_name right_most_name items s e) = s.
Proof.
  induction items as [| [i [name o]] tl IH]; intros H s e;
    cbn [Graph.merge_path_scan]; [reflexivity |].
  destruct (String.eqb_spec name left_most_name) as [E | _].
  - exfalso. apply (H (i, (name, o))); [now left | exact E].
  - destruct (String.eqb name right_most_name); apply IH;
      intros item Hin; apply H; now right.
Qed.

Lemma merge_path_scan_right_absent (left_most_name right_most_name : string)
  (items : list (nat * (string * Orientation))) :
  (forall item, List.In item items -> fst (snd item) <> right_most_name) ->
  forall s e,
    snd (Graph.merge_path_scan left_most_name right_most_name items s e) = e.
Proof.
  induction items as [| [i [name o]] tl IH]; intros H s e;
    cbn [Graph.merge_path_scan]; [reflexivity |].
  destruct (String.eqb name left_most_name).
  - apply IH. intros item Hin; apply H; now right.
  - destruct (String.eqb_spec name right_most_name) as [E | _].
    + exfalso. apply (H (i, (name, o))); [now left | exact E].
    + apply IH. intros item Hin; apply H; now right.
Qed.

Lemma enumerate_from_In {A : Type} (l : list A) (i : nat) (item : nat * A) :
  List.In item (enumerate_from i l) -> List.In (snd item) l.
Proof.
  revert i; induction l as [| x l IH]; intros i; cbn; [auto |].
  intros [<- | H]; [now left | right; eapply IH; eauto].
Qed.

(** A path that lacks one of the two names is not edited by a merge. *)
Lemma merge_path_one_name (left_most_name right_most_name : string)
  (p : list (string * Orientation)) :
  ~ List.In left_most_name (List.map fst p)
  \/ ~ List.In right_most_name (List.map fst p) ->
  Graph.merge_path left_most_name right_most_name p = None.
Proof.
  intros H. unfold Graph.merge_path.
  destruct (Graph.merge_path_scan left_most_name right_most_name
              (enumerate p) 0 0) as [s e] eqn:E.
  destruct H as [H | H].
  - assert (Hs : s = 0%nat).
    { change s with (fst (s, e)). rewrite <- E.
      apply merge_path_scan_left_absent. intros item Hin Heq. apply H.
      apply enumerate_from_In in Hin. rewrite <- Heq.
      now apply List.in_map. }
    subst s. reflexivity.
  - assert (He : e = 0%nat).
    { change e with (snd (s, e)). rewrite <- E.
      apply merge_path_scan_right_absent. intros item Hin Heq. apply H.
      apply enumerate_from_In in Hin. rewrite <- Heq.
      now apply List.in_map. }
    subst e. now rewrite Bool.andb_false_r.
Qed.

(** The path [4+,1+] holds the left-most name only. *)
Lemma merge_path_one_name_witness :
  Graph.merge_path "1" "3" [("4", FORWARD); ("1", FORWARD)] = None.
Proof.
  apply merge_path_one_name. right. cbn.
  intros [H | [H | []]]; discriminate.
Defined.


(** *** Records and their positions *)

Lemma filterM_by_position (node : string) (l : list GfaRecord) :
  forall pre : list GfaRecord,
    match Graph.filterM (fun ie => Graph.touches node (snd ie))
            (enumerate_from (List.length pre) l) with
    | Ok r =>
        mapM (Graph.record_at (pre ++ l)) (List.map fst r)
        = Graph.filterM (Graph.touches node) l
    | Raise e => Graph.filterM (Graph.touches node) l = Raise e
    end.
Proof.
  induction l as [| x l IH]; intros pre;
    cbn [enumerate_from Graph.filterM snd]; [reflexivity |].
  destruct (Graph.touches node x) as [b | e]; cbn [bind]; [| reflexivity].
  specialize (IH (pre ++ [x])%list).
  rewrite List.length_app, Nat.add_1_r, <- List.app_assoc in IH.
  cbn [List.app] in IH.
  destruct (Graph.filterM _ (enumerate_from (S (List.length pre)) l))
    as [r | e]; cbn [bind].
  - rewrite <- IH. destruct b.
    + cbn [List.map fst mapM]. unfold Graph.record_at at 1.
      rewrite List.nth_error_app2, Nat.sub_diag by lia. reflexivity.
    + now destruct (mapM _ _).
  - now rewrite IH.
Qed.

(** [get_edges] returns the records at the positions
    [get_edges_positions] returns, and raises when it raises. *)
Lemma get_edges_by_position (g : Graph.t) (node : string) :
  match Graph.get_edges_positions g node with
  | Ok ps => mapM (Graph.record_at (Graph.lines g)) ps = Graph.get_edges g node
  | Raise e => Graph.get_edges g node = Raise e
  end.
Proof.
  unfold Graph.get_edges_positions, Graph.get_edges, enumerate.
  pose proof (filterM_by_position node (Graph.lines g) []) as H.
  cbn [List.length List.app] in H.
  destruct (Graph.filterM _ (enumerate_from 0 (Graph.lines g))); exact H.
Qed.

(** *** The path loop of a split, in general *)

Lemma enumerate_from_app {A : Type} (l1 l2 : list A) (i : nat) :
  enumerate_from i (l1 ++ l2)
  = (enumerate_from i l1 ++ enumerate_from (i + List.length l1) l2)%list.
Proof.
  revert i; induction l1 as [| x l1 IH]; intros i; cbn.
  - now rewrite Nat.add_0_r.
  - rewrite IH. now rewrite Nat.add_succ_comm.
Qed.

Lemma split_path_loop_skip (segment_name : string) (names : list string)
  (orient : string) (items1 items2 : list (nat * (string * Orientation)))
  (start : list (string * Orientation))
  (cur : option (list (string * Orientation))) :
  (forall item, List.In item items1 -> fst (snd item) <> segment_name) ->
  Graph.split_path_loop segment_name names orient (items1 ++ items2) start cur
  = Graph.split_path_loop segment_name names orient items2 start cur.
Proof.
  induction items1 as [| [posx [node o]] tl IH]; intros H;
    cbn [List.app Graph.split_path_loop]; [reflexivity |].
  destruct (String.eqb_spec node segment_name) as [E | _].
  - exfalso. apply (H (posx, (node, o))); [now left | exact E].
  - apply IH. intros item Hin. apply H. now right.
Qed.

Lemma mapM_cons {A B : Type} (f : A -> res B) (x : A) (l : list A) :
  mapM f (x :: l) = (y <- f x ;; ys <- mapM f l ;; Ok (y :: ys)).
Proof. reflexivity. Qed.

Lemma mapM_with_orientation (orient : string) (o : Orientation)
  (names : list string) :
  Orientation_of orient = Ok o ->
  mapM (fun nname => o' <- Orientation_of orient ;; Ok (nname, o')) names
  = Ok (List.map (fun nname => (nname, o)) names).
Proof.
  intros H. induction names as [| n tl IH]; [reflexivity |].
  rewrite mapM_cons, IH, H. reflexivity.
Qed.

(** On a path that names the segment once, the loop puts the new names
    (with the carried orientation) before the occurrence and keeps the
    occurrence and everything around it. *)
Lemma split_path_single_occurrence (segment_name : string)
  (names : list string) (orient : string) (o o1 : Orientation)
  (before after : list (string * Orientation)) :
  Orientation_of orient = Ok o ->
  ~ List.In segment_name (List.map fst before) ->
  ~ List.In segment_name (List.map fst after) ->
  Graph.split_path segment_name names orient
    (before ++ (segment_name, o1) :: after)
  = Ok (Some (before ++ List.map (fun nname => (nname, o)) names
              ++ (segment_name, o1) :: after)%list).
Proof.
  intros Ho Hb Ha. unfold Graph.split_path, enumerate.
  rewrite enumerate_from_app, split_path_loop_skip.
  - cbn [enumerate_from Graph.split_path_loop Nat.add].
    rewrite String.eqb_refl, (mapM_with_orientation orient o names Ho).
    cbn [bind].
    rewrite py_slice_to, py_slice_from by lia. rewrite Nat2Z.id.
    rewrite List.firstn_app, Nat.sub_diag, List.firstn_all.
    cbn [List.firstn]. rewrite List.app_nil_r.
    rewrite List.skipn_app, Nat.sub_diag, List.skipn_all.
    cbn [List.skipn List.app].
    rewrite <- (List.app_nil_r (enumerate_from _ after)).
    rewrite split_path_loop_skip; [reflexivity |].
    intros item Hin E. apply Ha. apply enumerate_from_In in Hin.
    rewrite <- E. now apply List.in_map.
  - intros item Hin E. apply Hb. apply enumerate_from_In in Hin.
    rewrite <- E. now apply List.in_map.
Qed.

(** The path [0+,1-,2+] and the new names [10], [11] with orientation [+]. *)
Lemma split_path_single_occurrence_witness :
  Graph.split_path "1" ["10"; "11"] "+"
    [("0", FORWARD); ("1", REVERSE); ("2", FORWARD)]
  = Ok (Some [("0", FORWARD); ("10", FORWARD); ("11", FORWARD);
              ("1", REVERSE); ("2", FORWARD)]).
Proof.
  apply (split_path_single_occurrence "1" ["10"; "11"] "+" FORWARD REVERSE
           [("0", FORWARD)] [("2", FORWARD)]).
  - reflexivity.
  - cbn. intros [H | []]. discriminate.
  - cbn. intros [H | []]. discriminate.
Defined.


(** ** A merge keeps the length of a stored sequence *)

Lemma str_len_app (s t : string) : str_len (s ++ t) = str_len s + str_len t.
Proof.
  unfold str_len. induction s as [| c s IH]; cbn [String.append String.length].
  - reflexivity.
  - rewrite !Nat2Z.inj_succ. lia.
Qed.

Lemma fold_left_add_acc (l : list Z) (a : Z) :
  List.fold_left Z.add l a = a + List.fold_left Z.add l 0.
Proof.
  revert a; induction l as [| x l IH]; intros a; cbn [List.fold_left]; [lia |].
  rewrite (IH (a + x)), (IH (0 + x)). lia.
Qed.

Lemma nth_error_list_update {A : Type} (l : list A) (i j : nat) (x : A) :
  List.nth_error (Graph.list_update l i x) j
  = match List.nth_error l j with
    | Some y => Some (if Nat.eqb i j then x else y)
    | None => None
    end.
Proof.
  revert i j; induction l as [| y l IH]; intros i j.
  - destruct i, j; reflexivity.
  - destruct i, j; cbn [Graph.list_update List.nth_error Nat.eqb];
      try reflexivity.
    + now destruct (List.nth_error l j).
    + apply IH.
Qed.

Lemma Forall_list_update {A : Type} (P : A -> Prop) (l : list A) (i : nat)
  (x : A) :
  List.Forall P l -> P x -> List.Forall P (Graph.list_update l i x).
Proof.
  intros Hl Hx. revert i; induction Hl as [| y l Hy Hl IH]; intros i.
  - destruct i; constructor.
  - destruct i; cbn [Graph.list_update]; constructor; auto.
Qed.

Lemma Forall_keep_positions {A : Type} (P : A -> Prop) (dropped : list nat)
  (l : list A) :
  List.Forall P l -> List.Forall P (Graph.keep_positions dropped l).
Proof.
  unfold Graph.keep_positions, enumerate. generalize 0%nat.
  intros n H; revert n; induction H as [| x l Hx _ IH]; intros n;
    cbn [enumerate_from List.filter fst]; [constructor |].
  destruct (Graph.not_in dropped n); cbn [List.map snd];
    [constructor; auto | apply IH].
Qed.

Lemma bindM_Ok_inv {A B : Type} (c : Graph.M A) (k : A -> Graph.M B)
  (g g' : Graph.t) (b : B) :
  Graph.bindM c k g = (Ok b, g') ->
  exists a g1, c g = (Ok a, g1) /\ k a g1 = (Ok b, g').
Proof.
  unfold Graph.bindM. destruct (c g) as [[a | e] g1]; [eauto | discriminate].
Qed.

Lemma lift_Ok_inv {A : Type} (c : res A) (g g' : Graph.t) (a : A) :
  Graph.lift c g = (Ok a, g') -> c = Ok a /\ g' = g.
Proof. unfold Graph.lift. now intros [= -> ->]. Qed.

Lemma read_Ok_inv {A : Type} (f : Graph.t -> res A) (g g' : Graph.t) (a : A) :
  Graph.read f g = (Ok a, g') -> f g = Ok a /\ g' = g.
Proof. unfold Graph.read. now intros [= -> ->]. Qed.

Section Keeps.

Variable P : GfaRecord -> Prop.

Lemma keeps_same {A : Type} (c : Graph.M A) :
  (forall g, Graph.segments (snd (c g)) = Graph.segments g) -> keeps P c.
Proof. intros H g Hg. now rewrite H. Qed.

Lemma keeps_ret {A : Type} (a : A) : keeps P (Graph.ret a).
Proof. now apply keeps_same. Qed.

Lemma keeps_lift {A : Type} (c : res A) : keeps P (Graph.lift c).
Proof. now apply keeps_same. Qed.

Lemma keeps_read {A : Type} (f : Graph.t -> res A) : keeps P (Graph.read f).
Proof. now apply keeps_same. Qed.

Lemma keeps_set_line_field (i : nat) (k : string) (v : PyVal) :
  keeps P (Graph.set_line_field i k v).
Proof.
  apply keeps_same. intros g. unfold Graph.set_line_field.
  now destruct (List.nth_error _ _).
Qed.

Lemma keeps_each_path (f : GfaRecord -> res GfaRecord) :
  keeps P (Graph.each_path f).
Proof.
  apply keeps_same. intros g. unfold Graph.each_path.
  destruct (Graph.each_record f (Graph.paths g)) as [[[] | e] ps];
    [| reflexivity].
  now destruct (Graph.each_record f (Graph.walks (Graph.set_paths g ps))).
Qed.

Lemma keeps_bind {A B : Type} (c : Graph.M A) (k : A -> Graph.M B) :
  keeps P c -> (forall a, keeps P (k a)) -> keeps P (Graph.bindM c k).
Proof.
  intros Hc Hk g Hg. unfold Graph.bindM. specialize (Hc g Hg).
  destruct (c g) as [[a | e] g1]; cbn [snd] in *; [now apply Hk | exact Hc].
Qed.

Lemma keeps_for_each {A : Type} (l : list A) (body : A -> Graph.M unit) :
  (forall x, keeps P (body x)) -> keeps P (Graph.for_each l body).
Proof.
  intros Hb. induction l as [| x l IH]; cbn [Graph.for_each].
  - apply keeps_ret.
  - apply keeps_bind; [apply Hb | intros _; exact IH].
Qed.

End Keeps.

Lemma dict_getitem_Ok (d : dict) (k : string) (v : PyVal) :
  dict_getitem d k = Ok v <-> dict_get d k = Some v.
Proof.
  unfold dict_getitem. destruct (dict_get d k); split; intros [= ->];
    reflexivity.
Qed.

Lemma record_at_Ok (l : list GfaRecord) (i : nat) (rec : GfaRecord) :
  Graph.record_at l i = Ok rec <-> List.nth_error l i = Some rec.
Proof.
  unfold Graph.record_at. destruct (List.nth_error l i); split;
    intros [= ->]; reflexivity.
Qed.

Lemma py_getitem_first {A : Type} (l : list A) (x : A) :
  py_getitem l 0 = Ok x -> exists tl, l = x :: tl.
Proof.
  unfold py_getitem. cbn. destruct l as [| y tl]; [discriminate |].
  intros [= ->]. eauto.
Qed.

Lemma list_update_twice {A : Type} (l : list A) (i : nat) (x y : A) :
  Graph.list_update (Graph.list_update l i x) i y = Graph.list_update l i y.
Proof.
  revert i; induction l as [| z l IH]; intros [| i]; cbn [Graph.list_update];
    try reflexivity.
  now rewrite IH.
Qed.

(** The lengths and the sequences [merge_segments] collects over the same
    positions add up alike: [now] holds the records the sequences are read
    from, which store the sequences of [before]. *)
Lemma merged_lengths_match (before now : list GfaRecord) (idxs : list nat) :
  List.Forall length_matches_seq before ->
  (forall i r1, List.nth_error now i = Some r1 ->
                exists r, List.nth_error before i = Some r
                          /\ dict_get (datas r1) "seq" = dict_get (datas r) "seq") ->
  forall seqs lengths joined,
    mapM (fun i => s <- Graph.record_at now i ;; dict_getitem (datas s) "seq")
         idxs = Ok seqs ->
    mapM (fun i => seg <- Graph.record_at before i ;;
                   v <- dict_getitem (datas seg) "length" ;; val_int v)
         idxs = Ok lengths ->
    join_vals seqs = Ok joined ->
    str_len joined = List.fold_left Z.add lengths 0.
Proof.
  intros HP Hagree.
  induction idxs as [| i idxs IH]; intros seqs lengths joined Hs Hl Hj.
  - injection Hs as <-. injection Hl as <-. injection Hj as <-. reflexivity.
  - rewrite mapM_cons in Hs. rewrite mapM_cons in Hl.
    apply bind_Ok_inv in Hs as (v & Hv & Hs).
    apply bind_Ok_inv in Hs as (seqs' & Hseqs' & Hs). injection Hs as <-.
    apply bind_Ok_inv in Hl as (n & Hn & Hl).
    apply bind_Ok_inv in Hl as (lengths' & Hlengths' & Hl). injection Hl as <-.
    apply bind_Ok_inv in Hv as (r1 & Hr1 & Hv).
    apply bind_Ok_inv in Hn as (r & Hr & Hn).
    apply bind_Ok_inv in Hn as (len & Hlen & Hn).
    apply record_at_Ok in Hr1, Hr. apply dict_getitem_Ok in Hv, Hlen.
    destruct (Hagree i _ Hr1) as (r' & Hr' & Eseq).
    rewrite Hr in Hr'. injection Hr' as <-. rewrite Hv in Eseq.
    cbn [join_vals] in Hj. destruct v as [| | | | s | | |]; try discriminate.
    apply bind_Ok_inv in Hj as (rest & Hrest & Hj). injection Hj as <-.
    rewrite List.Forall_forall in HP.
    pose proof (HP r (List.nth_error_In _ _ Hr) s (eq_sym Eseq)) as E.
    rewrite Hlen in E. injection E as ->. cbn [val_int] in Hn.
    injection Hn as <-.
    cbn [List.fold_left]. rewrite fold_left_add_acc, str_len_app.
    rewrite (IH _ _ _ Hseqs' Hlengths' Hrest). lia.
Qed.

(** One step of a proof that a chain of method steps keeps [P]. *)
Ltac keeps_step :=
  lazymatch goal with
  | |- keeps _ (Graph.ret _) => apply keeps_ret
  | |- keeps _ (Graph.lift _) => apply keeps_lift
  | |- keeps _ (Graph.read _) => apply keeps_read
  | |- keeps _ (Graph.line_at _) => apply keeps_read
  | |- keeps _ (Graph.set_line_field _ _ _) => apply keeps_set_line_field
  | |- keeps _ (Graph.each_path _) => apply keeps_each_path
  | |- keeps _ (Graph.for_each _ _) => apply keeps_for_each; intros
  | |- keeps _ (Graph.bindM _ _) => apply keeps_bind; [| intros]
  | |- keeps _ (if ?b then _ else _) => destruct b
  end.

(** When the ['length'] of every segment that stores a sequence is the
    length of that sequence, a merge that returns leaves it so for every
    segment of the graph it returns with. *)
Theorem merge_keeps_length (segs : list string) (g g' : Graph.t)
  (name : string) :
  List.Forall length_matches_seq (Graph.segments g) ->
  Graph.merge_segments segs g = (Ok name, g') ->
  List.Forall length_matches_seq (Graph.segments g').
Proof.
  intros HP H. unfold Graph.merge_segments in H.
  apply bindM_Ok_inv in H as (ordered & g1 & H1 & H).
  apply lift_Ok_inv in H1 as [Hord ->].
  apply bindM_Ok_inv in H as (positions & g1 & H1 & H).
  apply read_Ok_inv in H1 as [Hpos ->].
  apply bindM_Ok_inv in H as (left_most & g1 & H1 & H).
  apply lift_Ok_inv in H1 as [Hleft ->].
  apply bindM_Ok_inv in H as (right_most & g1 & H1 & H).
  apply lift_Ok_inv in H1 as [Hright ->].
  apply bindM_Ok_inv in H as (old & g1 & H1 & H).
  apply bindM_Ok_inv in H1 as (segL & g2 & Hseg & Hold).
  apply read_Ok_inv in Hseg as [Hseg ->].
  apply lift_Ok_inv in Hold as [Hold ->].
  apply bindM_Ok_inv in H as (lengths & g1 & H1 & H).
  apply read_Ok_inv in H1 as [Hlengths ->].
  apply bindM_Ok_inv in H as (total & g1 & H1 & H).
  apply lift_Ok_inv in H1 as [Htotal ->].
  apply bindM_Ok_inv in H as (u & g1 & Hset & H).
  apply bindM_Ok_inv in H as (seg' & g2 & Hseg' & H).
  apply read_Ok_inv in Hseg' as [Hseg' ->].
  apply bindM_Ok_inv in H as (u2 & g3 & Hif & H).
  apply record_at_Ok in Hseg.
  unfold Graph.set_segment_field in Hset. rewrite Hseg in Hset.
  injection Hset as _ <-.
  cbn [Graph.segments Graph.set_segments] in Hseg'.
  apply record_at_Ok in Hseg'.
  rewrite nth_error_list_update, Hseg, Nat.eqb_refl in Hseg'.
  injection Hseg' as <-. cbn [datas set_datas] in Hif.
  assert (Hagree : forall i r1,
             List.nth_error
               (Graph.list_update (Graph.segments g) left_most
                  (set_datas segL (dict_set (datas segL) "length" total))) i
             = Some r1 ->
             exists r, List.nth_error (Graph.segments g) i = Some r
                       /\ dict_get (datas r1) "seq" = dict_get (datas r) "seq").
  { intros i r1. rewrite nth_error_list_update.
    destruct (List.nth_error (Graph.segments g) i) as [r |] eqn:Ei;
      [| discriminate].
    intros [= <-]. exists r. split; [reflexivity |].
    destruct (Nat.eqb_spec left_most i) as [-> | _]; [| reflexivity].
    rewrite Hseg in Ei. injection Ei as <-. cbn [datas set_datas].
    now rewrite dict_get_set_other. }
  assert (Hg3 : List.Forall length_matches_seq (Graph.segments g3)).
  { destruct (dict_contains _ "seq") eqn:Ec.
    - apply bindM_Ok_inv in Hif as (seqs & g2 & Hseqs & Hif).
      apply read_Ok_inv in Hseqs as [Hseqs ->].
      apply bindM_Ok_inv in Hif as (joined & g2 & Hj & Hif).
      apply lift_Ok_inv in Hj as [Hj ->].
      unfold Graph.set_segment_field in Hif.
      cbn [Graph.segments Graph.set_segments] in Hif, Hseqs.
      rewrite nth_error_list_update, Hseg, Nat.eqb_refl in Hif.
      injection Hif as _ <-.
      cbn [Graph.segments Graph.set_segments]. rewrite list_update_twice.
      apply Forall_list_update; [exact HP |].
      intros s Hs. cbn [datas set_datas] in *.
      rewrite dict_get_set, String.eqb_refl in Hs. injection Hs as <-.
      rewrite dict_get_set_other by discriminate.
      rewrite dict_get_set, String.eqb_refl. f_equal.
      destruct (py_getitem_first _ _ Hleft) as (tl & ->).
      rewrite py_slice_from in Hlengths by lia.
      cbn [Z.to_nat Pos.to_nat Pos.iter_op Nat.add List.skipn] in Hlengths.
      rewrite mapM_cons in Hseqs.
      apply bind_Ok_inv in Hseqs as (v0 & Hv0 & Hseqs).
      apply bind_Ok_inv in Hseqs as (seqs' & Hseqs' & Hseqs).
      injection Hseqs as <-.
      apply bind_Ok_inv in Hv0 as (r0 & Hr0 & Hv0).
      apply record_at_Ok in Hr0.
      rewrite nth_error_list_update, Hseg, Nat.eqb_refl in Hr0.
      injection Hr0 as <-. cbn [datas set_datas] in Hv0.
      apply dict_getitem_Ok in Hv0.
      rewrite dict_get_set_other in Hv0 by discriminate.
      cbn [join_vals] in Hj. destruct v0 as [| | | | s0 | | |]; try discriminate.
      apply bind_Ok_inv in Hj as (rest & Hrest & Hj). injection Hj as <-.
      rewrite List.Forall_forall in HP.
      pose proof (HP segL (List.nth_error_In _ _ Hseg) s0 Hv0) as E.
      apply dict_getitem_Ok in Hold. rewrite Hold in E. injection E as ->.
      cbn [val_add_int] in Htotal. injection Htotal as <-.
      rewrite str_len_app. f_equal. f_equal.
      symmetry.
      apply (merged_lengths_match (Graph.segments g) _ tl
               (proj2 (List.Forall_forall _ _) HP) Hagree seqs' lengths rest);
        assumption.
    - injection Hif as _ <-. cbn [Graph.segments Graph.set_segments].
      apply Forall_list_update; [exact HP |].
      intros s Hs. cbn [datas set_datas] in *.
      unfold dict_contains in Ec. rewrite Hs in Ec. discriminate. }
  match type of H with
  | ?c g3 = _ => assert (K : keeps length_matches_seq c)
  end.
  { repeat keeps_step.
    intros g0 Hg0. cbn. now apply Forall_keep_positions. }
  specialize (K g3 Hg3). rewrite H in K. exact K.
Qed.

(** The merge of the three segments of [three_segments_graph]. *)
Lemma merge_keeps_length_witness :
  List.Forall length_matches_seq
    (Graph.segments
       (snd (Graph.merge_segments ["1"; "2"; "3"] three_segments_graph))).
Proof.
  apply (merge_keeps_length ["1"; "2"; "3"] three_segments_graph
           (snd (Graph.merge_segments ["1"; "2"; "3"] three_segments_graph))
           "1").
  - repeat constructor; intros s [= <-]; reflexivity.
  - reflexivity.
Defined.

(** ** The sample graphs are loaded graphs *)

Lemma sample_graphs_load :
  Graph.init ["S" ++ TAB ++ "1" ++ TAB ++ "ACGT" ++ NL;
              "P" ++ TAB ++ "p" ++ TAB ++ "1+" ++ NL] "GFA1" true
  = Ok one_segment_graph
  /\ Graph.init ["S" ++ TAB ++ "1" ++ TAB ++ "AC" ++ NL;
                 "S" ++ TAB ++ "2" ++ TAB ++ "GT" ++ NL;
                 "S" ++ TAB ++ "3" ++ TAB ++ "TT" ++ NL;
                 "P" ++ TAB ++ "p" ++ TAB ++ "4+,1+,2+,3+,5+" ++ NL;
                 "P" ++ TAB ++ "q" ++ TAB ++ "1+,2+,3+" ++ NL] "GFA1" true
     = Ok three_segments_graph.
Proof.
  split; reflexivity.
Qed.

(** ** Loading a file *)

Lemma mapM_length {A B : Type} (f : A -> res B) (l : list A) (l' : list B) :
  mapM f l = Ok l' -> List.length l' = List.length l.
Proof.
  revert l'; induction l as [| x l IH]; intros l' H.
  - now injection H as <-.
  - rewrite mapM_cons in H.
    apply bind_Ok_inv in H as (y & _ & H).
    apply bind_Ok_inv in H as (ys & Hys & H). injection H as <-.
    cbn [List.length]. now rewrite (IH ys Hys).
Qed.

Lemma mapM_In {A B : Type} (f : A -> res B) (l : list A) (l' : list B) (x : A) :
  mapM f l = Ok l' -> List.In x l -> exists y, f x = Ok y /\ List.In y l'.
Proof.
  revert l'; induction l as [| x0 l IH]; intros l' H Hin; [destruct Hin |].
  rewrite mapM_cons in H.
  apply bind_Ok_inv in H as (y & Hy & H).
  apply bind_Ok_inv in H as (ys & Hys & H). injection H as <-.
  destruct Hin as [-> | Hin].
  - exists y. split; [exact Hy | now left].
  - destruct (IH ys Hys Hin) as (y' & Hy' & Hin'). exists y'.
    split; [exact Hy' | now right].
Qed.

Lemma mapM_In_inv {A B : Type} (f : A -> res B) (l : list A) (l' : list B)
  (y : B) :
  mapM f l = Ok l' -> List.In y l' -> exists x, List.In x l /\ f x = Ok y.
Proof.
  revert l'; induction l as [| x0 l IH]; intros l' H Hin.
  - injection H as <-. destruct Hin.
  - rewrite mapM_cons in H.
    apply bind_Ok_inv in H as (y0 & Hy0 & H).
    apply bind_Ok_inv in H as (ys & Hys & H). injection H as <-.
    destruct Hin as [<- | Hin].
    + exists x0. split; [now left | exact Hy0].
    + destruct (IH ys Hys Hin) as (x & Hx & Hfx). exists x.
      split; [now right | exact Hfx].
Qed.

Lemma LineClass_eqb_eq (a b : LineClass) : LineClass_eqb a b = true <-> a = b.
Proof.
  destruct a, b; cbn; split; intros H; try reflexivity; discriminate.
Qed.

Lemma records_partition (l : list GfaRecord) :
  (List.length (List.filter (Graph.isinstance Header) l)
   + List.length (List.filter (Graph.isinstance Segment) l)
   + List.length (List.filter (Graph.isinstance Line) l)
   + List.length (List.filter (Graph.isinstance Containment) l)
   + List.length (List.filter (Graph.isinstance Path) l)
   + List.length (List.filter (Graph.isinstance Walk) l)
   + List.length (List.filter (Graph.isinstance Jump) l)
   + List.length (List.filter (Graph.isinstance Other) l))%nat
  = List.length l.
Proof.
  unfold Graph.isinstance.
  induction l as [| rec l IH]; [reflexivity |].
  cbn [List.filter].
  destruct (linetype rec); cbn [LineClass_eqb List.length]; lia.
Qed.

Lemma filter_isinstance (cls : LineClass) (l : list GfaRecord) :
  List.Forall (fun rec => linetype rec = cls)
    (List.filter (Graph.isinstance cls) l).
Proof.
  apply List.Forall_forall. intros rec Hin.
  apply List.filter_In in Hin. destruct Hin as [_ H].
  now apply LineClass_eqb_eq in H.
Qed.

Lemma init_Ok_inv (file : list string) (gfa_type : string) (with_seq : bool)
  (g : Graph.t) :
  Graph.init file gfa_type with_seq = Ok g ->
  exists style gfa_lines,
    GfaStyle_of gfa_type = Ok style
    /\ mapM (fun gfa_line =>
               Record_init gfa_line gfa_type {| ws := Some with_seq |}) file
       = Ok gfa_lines
    /\ g = {| Graph.version := style;
              Graph.headers := List.filter (Graph.isinstance Header) gfa_lines;
              Graph.segments := List.filter (Graph.isinstance Segment) gfa_lines;
              Graph.lines := List.filter (Graph.isinstance Line) gfa_lines;
              Graph.containment :=
                List.filter (Graph.isinstance Containment) gfa_lines;
              Graph.paths := List.filter (Graph.isinstance Path) gfa_lines;
              Graph.walks := List.filter (Graph.isinstance Walk) gfa_lines;
              Graph.jumps := List.filter (Graph.isinstance Jump) gfa_lines;
              Graph.others := List.filter (Graph.isinstance Other) gfa_lines |}.
Proof.
  unfold Graph.init. intros H.
  apply bind_Ok_inv in H as (style & Hs & H).
  apply bind_Ok_inv in H as (u & _ & H).
  apply bind_Ok_inv in H as (gfa_lines & Hl & H). injection H as <-.
  exists style, gfa_lines. auto.
Qed.

Lemma init_Ok_length (file : list string) (gfa_type : string)
  (with_seq : bool) (g : Graph.t) :
  Graph.init file gfa_type with_seq = Ok g ->
  Z.of_nat (List.length file) <= sys_maxsize.
Proof.
  unfold Graph.init. intros H.
  apply bind_Ok_inv in H as (style & Hs & H).
  apply bind_Ok_inv in H as (u & Hu & _).
  destruct (sys_maxsize <? Z.of_nat (List.length file)) eqn:E;
    [discriminate |].
  now apply Z.ltb_ge in E.
Qed.

(** A load that succeeds makes one record per line of the file and files
    each record in the list of its class; the recorded style is the declared
    one. *)
Theorem init_one_record_per_line (file : list string) (gfa_type : string)
  (with_seq : bool) (g : Graph.t) :
  Graph.init file gfa_type with_seq = Ok g ->
  record_count g = List.length file
  /\ GfaStyle_of gfa_type = Ok (Graph.version g)
  /\ List.Forall (fun rec => linetype rec = Header) (Graph.headers g)
  /\ List.Forall (fun rec => linetype rec = Segment) (Graph.segments g)
  /\ List.Forall (fun rec => linetype rec = Line) (Graph.lines g)
  /\ List.Forall (fun rec => linetype rec = Containment) (Graph.containment g)
  /\ List.Forall (fun rec => linetype rec = Path) (Graph.paths g)
  /\ List.Forall (fun rec => linetype rec = Walk) (Graph.walks g)
  /\ List.Forall (fun rec => linetype rec = Jump) (Graph.jumps g)
  /\ List.Forall (fun rec => linetype rec = Other) (Graph.others g).
Proof.
  intros H. apply init_Ok_inv in H as (style & gfa_lines & Hs & Hl & ->).
  unfold record_count.
  cbn [Graph.version Graph.headers Graph.segments Graph.lines
       Graph.containment Graph.paths Graph.walks Graph.jumps Graph.others].
  split; [| split; [exact Hs | repeat split; apply filter_isinstance]].
  rewrite records_partition. now apply mapM_length in Hl.
Qed.

Lemma init_one_record_per_line_witness :
  record_count two_segments_graph = List.length two_segments_file.
Proof.
  exact (proj1 (init_one_record_per_line two_segments_file "GFA1" true
                  two_segments_graph eq_refl)).
Defined.

Lemma str_getitem_first (s k : string) :
  str_getitem s 0 = Ok k ->
  exists c rest, s = String c rest /\ k = String c "".
Proof.
  unfold str_getitem. intros H. apply bind_Ok_inv in H as (c & Hc & H).
  injection H as <-. apply py_getitem_first in Hc. destruct Hc as (tl & Hc).
  destruct s as [| c' rest]; [discriminate |].
  injection Hc as -> _. eauto.
Qed.

(** The class of a record is the one [LineType] gives for the first
    character of its line, and its fields are what the parser of that
    character returns. *)
Lemma Record_init_Ok_inv (gfa_data_line gfa_type : string) (kw : kwargs)
  (rec : GfaRecord) :
  Record_init gfa_data_line gfa_type kw = Ok rec ->
  exists style c rest,
    GfaStyle_of gfa_type = Ok style
    /\ gfa_data_line = String c rest
    /\ linetype rec = snd (LineType (String c ""))
    /\ gfastyle rec = Some style
    /\ fst (LineType (String c ""))
         (str_split tab (str_strip newline gfa_data_line)) style kw
       = Ok (datas rec).
Proof.
  unfold Record_init. intros H.
  apply bind_Ok_inv in H as (style & Hs & H).
  apply bind_Ok_inv in H as (key & Hk & H).
  apply str_getitem_first in Hk. destruct Hk as (c & rest & -> & ->).
  destruct (LineType (String c "")) as [func cls] eqn:E.
  apply bind_Ok_inv in H as (d & Hd & H). injection H as <-.
  exists style, c, rest. cbn [linetype gfastyle datas fst snd].
  rewrite E. cbn [fst snd]. repeat split; assumption.
Qed.

Lemma LineType_cases (c : ascii) :
  (c = "H"%char /\ LineType (String c "") = (header, Header))
  \/ (c = "S"%char /\ LineType (String c "") = (segment, Segment))
  \/ (c = "L"%char /\ LineType (String c "") = (line, Line))
  \/ (c = "C"%char /\ LineType (String c "") = (containment, Containment))
  \/ (c = "P"%char /\ LineType (String c "") = (path, Path))
  \/ (c = "W"%char /\ LineType (String c "") = (walk, Walk))
  \/ (c = "J"%char /\ LineType (String c "") = (jump, Jump))
  \/ (List.existsb (Ascii.eqb c) (chars "HSLCPWJ") = false
      /\ LineType (String c "") = (default, Other)).
Proof.
  unfold LineType. cbn [String.eqb chars list_ascii_of_string List.existsb].
  repeat match goal with
         | |- context [Ascii.eqb c ?x] =>
             destruct (Ascii.eqb_spec c x) as [-> | ?];
             [cbn; tauto |]
         end.
  cbn. tauto.
Qed.

Lemma filter_none {A : Type} (p : A -> bool) (l : list A) :
  List.Forall (fun x => p x = false) l -> List.filter p l = [].
Proof.
  induction 1 as [| x l Hx _ IH]; cbn [List.filter]; [reflexivity |].
  now rewrite Hx.
Qed.

Lemma Record_init_rGFA (gfa_data_line : string) (kw : kwargs)
  (rec : GfaRecord) :
  Record_init gfa_data_line "rGFA" kw = Ok rec ->
  starts_with_one_of "SL" gfa_data_line = true
  /\ (linetype rec = Segment \/ linetype rec = Line).
Proof.
  intros H. apply Record_init_Ok_inv in H.
  destruct H as (style & c & rest & Hs & -> & Hcls & _ & Hd).
  injection Hs as <-. rewrite Hcls. cbn [starts_with_one_of].
  destruct (LineType_cases c)
    as [[-> E] | [[-> E] | [[-> E] | [[-> E] | [[-> E] | [[-> E] | [[-> E]
       | [_ E]]]]]]]];
    rewrite E in *; cbn [fst snd] in *; try discriminate; auto.
Qed.

(** A file that loads under [rGFA] holds S-lines and L-lines only: any
    other line makes its parser raise.  The graph has segments and edges
    only, and [assert_format] finds it to be rGFA and changes nothing. *)
Theorem init_rGFA_segments_and_edges (file : list string) (with_seq : bool)
  (g : Graph.t) :
  Graph.init file "rGFA" with_seq = Ok g ->
  List.Forall (fun gfa_line => starts_with_one_of "SL" gfa_line = true) file
  /\ Graph.headers g = [] /\ Graph.containment g = [] /\ Graph.paths g = []
  /\ Graph.walks g = [] /\ Graph.jumps g = [] /\ Graph.others g = []
  /\ Graph.assert_format g = (RGFA, g).
Proof.
  intros H. apply init_Ok_inv in H as (style & gfa_lines & Hs & Hl & ->).
  injection Hs as <-.
  assert (Hcls : List.Forall
                   (fun rec => linetype rec = Segment \/ linetype rec = Line)
                   gfa_lines).
  { apply List.Forall_forall. intros rec Hin.
    destruct (mapM_In_inv _ _ _ _ Hl Hin) as (gfa_line & _ & Hr).
    now apply Record_init_rGFA in Hr. }
  assert (Hnone : forall cls, cls <> Segment -> cls <> Line ->
                    List.filter (Graph.isinstance cls) gfa_lines = []).
  { intros cls H1 H2. apply filter_none.
    eapply List.Forall_impl; [| exact Hcls]. intros rec Hr.
    unfold Graph.isinstance.
    destruct (LineClass_eqb (linetype rec) cls) eqn:E; [| reflexivity].
    apply LineClass_eqb_eq in E. subst cls. destruct Hr; contradiction. }
  cbn [Graph.headers Graph.containment Graph.paths Graph.walks Graph.jumps
       Graph.others].
  split.
  - apply List.Forall_forall. intros gfa_line Hin.
    destruct (mapM_In _ _ _ _ Hl Hin) as (rec & Hr & _).
    now apply Record_init_rGFA in Hr.
  - unfold Graph.assert_format.
    cbn [Graph.headers Graph.containment Graph.paths Graph.walks Graph.jumps
         Graph.others Graph.version].
    rewrite !Hnone by discriminate. repeat split; reflexivity.
Qed.

Lemma init_rGFA_segments_and_edges_witness :
  Graph.assert_format (sample_graph RGFA
                         [sample_segment RGFA "1" "ACGT";
                          sample_segment RGFA "2" "GGTT"]
                         [sample_line RGFA "1" "+" "2" "+"] [])
  = (RGFA, sample_graph RGFA
             [sample_segment RGFA "1" "ACGT"; sample_segment RGFA "2" "GGTT"]
             [sample_line RGFA "1" "+" "2" "+"] []).
Proof.
  exact (proj2 (proj2 (proj2 (proj2 (proj2 (proj2 (proj2
           (init_rGFA_segments_and_edges two_segments_file true _ eq_refl)))))))).
Defined.

(** A line whose first character is none of [H S L C P W J] (a blank
    line, a comment) is kept as an Other record when the load succeeds, so
    that [assert_format] reports GFA2 whatever else the file holds. *)
Theorem unrecognised_line_infers_GFA2 (file : list string)
  (gfa_type : string) (with_seq : bool) (g : Graph.t) (gfa_line : string) :
  Graph.init file gfa_type with_seq = Ok g ->
  List.In gfa_line file ->
  starts_with_one_of "HSLCPWJ" gfa_line = false ->
  fst (Graph.assert_format g) = GFA2.
Proof.
  intros H Hin Hc. apply init_Ok_inv in H as (style & gfa_lines & Hs & Hl & ->).
  destruct (mapM_In _ _ _ _ Hl Hin) as (rec & Hr & Hrec).
  apply Record_init_Ok_inv in Hr.
  destruct Hr as (style' & c & rest & _ & -> & Hcls & _ & _).
  cbn [starts_with_one_of] in Hc.
  assert (E : linetype rec = Other).
  { rewrite Hcls.
    destruct (LineType_cases c)
      as [[-> E] | [[-> E] | [[-> E] | [[-> E] | [[-> E] | [[-> E] | [[-> E]
         | [_ E]]]]]]]]; try discriminate Hc; now rewrite E. }
  unfold Graph.assert_format. cbn [fst Graph.others].
  assert (Hin' : List.In rec (List.filter (Graph.isinstance Other) gfa_lines)).
  { apply List.filter_In. split; [exact Hrec |].
    unfold Graph.isinstance. now rewrite E. }
  destruct (List.filter (Graph.isinstance Other) gfa_lines);
    [destruct Hin' | reflexivity].
Qed.

(** A blank line between two S-lines, loaded as GFA1. *)
Lemma unrecognised_line_infers_GFA2_witness :
  exists g,
    Graph.init ["S" ++ TAB ++ "1" ++ TAB ++ "ACGT" ++ NL; NL;
                "S" ++ TAB ++ "2" ++ TAB ++ "GGTT" ++ NL] "GFA1" true = Ok g
    /\ fst (Graph.assert_format g) = GFA2.
Proof.
  eexists. split; [reflexivity |].
  apply (unrecognised_line_infers_GFA2
           ["S" ++ TAB ++ "1" ++ TAB ++ "ACGT" ++ NL; NL;
            "S" ++ TAB ++ "2" ++ TAB ++ "GGTT" ++ NL] "GFA1" true _ NL).
  - reflexivity.
  - right; left; reflexivity.
  - reflexivity.
Defined.

(** ** The fields of loaded records *)

Lemma sub_nondigits_digits (s : string) :
  List.Forall (fun c => is_digit c = true) (chars (sub_nondigits s)).
Proof.
  induction s as [| c s IH]; cbn [sub_nondigits]; [constructor |].
  destruct (is_digit c) eqn:E; [| exact IH].
  cbn [chars list_ascii_of_string]. constructor; assumption.
Qed.

(** The keys [supplementary_datas] stores are no field names. *)
Lemma dict_get_merge_field (base extra : dict) (fields : list string) (n : Z)
  (k : string) :
  supplementary_datas fields n = Ok extra ->
  String.length k <> 2%nat -> String.prefix "ARG" k = false ->
  dict_get (dict_merge base extra) k = dict_get base k.
Proof.
  intros H Hlen Hpre. apply dict_get_merge_absent.
  intros kv Hin E.
  destruct (supplementary_datas_keys _ _ _ H kv Hin) as [Hl | Hp];
    rewrite E in *; [contradiction | congruence].
Qed.

Lemma segment_fields (fields : list string) (style : GfaStyle)
  (with_seq : bool) (d : dict) :
  segment fields style {| ws := Some with_seq |} = Ok d ->
  exists d1 d2,
    py_getitem fields 1 = Ok d1 /\ py_getitem fields 2 = Ok d2
    /\ dict_get d "name" = Some (PStr (sub_nondigits d1))
    /\ dict_get d "length" = Some (PInt (str_len d2))
    /\ dict_get d "seq" = if with_seq then Some (PStr d2) else None.
Proof.
  unfold segment, kwargs_ws. cbn [ws]. intros H.
  apply bind_Ok_inv in H as (d1 & H1 & H).
  apply bind_Ok_inv in H as (d2 & H2 & H).
  cbn [bind] in H.
  apply bind_Ok_inv in H as (line_datas & Hld & H).
  apply bind_Ok_inv in H as (extra & He & H). injection H as <-.
  exists d1, d2. split; [exact H1 | split; [exact H2 |]].
  rewrite !(dict_get_merge_field _ _ _ _ _ He) by (cbn; congruence).
  destruct with_seq.
  - rewrite H2 in Hld. cbn [bind] in Hld. injection Hld as <-.
    repeat split; reflexivity.
  - injection Hld as <-. repeat split; reflexivity.
Qed.

Lemma line_fields (fields : list string) (style : GfaStyle) (kw : kwargs)
  (d : dict) :
  line fields style kw = Ok d ->
  exists d1 d2 d3 d4,
    py_getitem fields 1 = Ok d1 /\ py_getitem fields 2 = Ok d2
    /\ py_getitem fields 3 = Ok d3 /\ py_getitem fields 4 = Ok d4
    /\ dict_get d "start" = Some (PStr (sub_nondigits d1))
    /\ dict_get d "end" = Some (PStr (sub_nondigits d3))
    /\ dict_get d "orientation" = Some (PStr (d2 ++ "/" ++ d4))
    /\ dict_get d "stop" = None.
Proof.
  unfold line. intros H.
  apply bind_Ok_inv in H as (d1 & H1 & H).
  apply bind_Ok_inv in H as (d3 & H3 & H).
  apply bind_Ok_inv in H as (d2 & H2 & H).
  apply bind_Ok_inv in H as (d4 & H4 & H).
  apply bind_Ok_inv in H as (extra & He & H). injection H as <-.
  exists d1, d2, d3, d4.
  rewrite !(dict_get_merge_field _ _ _ _ _ He) by (cbn; congruence).
  repeat split; assumption || reflexivity.
Qed.

Lemma mapM_nonempty {A B : Type} (f : A -> res B) (x : A) (l : list A)
  (l' : list B) :
  mapM f (x :: l) = Ok l' -> exists y ys, l' = y :: ys.
Proof.
  rewrite mapM_cons. intros H.
  apply bind_Ok_inv in H as (y & _ & H).
  apply bind_Ok_inv in H as (ys & _ & H). injection H as <-. eauto.
Qed.

Lemma str_split_nonempty (sep : ascii) (s : string) :
  exists x l, str_split sep s = x :: l.
Proof.
  induction s as [| c s (x & l & IH)]; cbn [str_split]; [eauto |].
  destruct (Ascii.eqb c sep); [eauto |]. rewrite IH. eauto.
Qed.

Lemma path_fields (fields : list string) (style : GfaStyle) (kw : kwargs)
  (d : dict) :
  path fields style kw = Ok d ->
  exists name step steps,
    py_getitem fields 1 = Ok name
    /\ dict_get d "name" = Some (PStr name)
    /\ dict_get d "path" = Some (PPath (step :: steps)).
Proof.
  unfold path. destruct (GfaStyle_eqb style RGFA); [discriminate |]. intros H.
  apply bind_Ok_inv in H as (d1 & H1 & H).
  apply bind_Ok_inv in H as (d2 & H2 & H).
  apply bind_Ok_inv in H as (nodes & Hn & H).
  apply bind_Ok_inv in H as (extra & He & H). injection H as <-.
  destruct (str_split_nonempty "," d2) as (x & l & Ex). rewrite Ex in Hn.
  apply mapM_nonempty in Hn. destruct Hn as (step & steps & ->).
  exists d1, step, steps.
  rewrite !(dict_get_merge_field _ _ _ _ _ He) by (cbn; congruence).
  repeat split; assumption || reflexivity.
Qed.

Lemma walk_fields (fields : list string) (style : GfaStyle) (kw : kwargs)
  (d : dict) :
  walk fields style kw = Ok d ->
  exists name step steps,
    py_getitem fields 1 = Ok name
    /\ dict_get d "name" = Some (PStr name)
    /\ dict_get d "path" = Some (PPath (step :: steps)).
Proof.
  unfold walk. destruct (_ || _); [discriminate |]. intros H.
  apply bind_Ok_inv in H as (d3 & H3 & H).
  apply bind_Ok_inv in H as (d2 & H2 & H).
  apply bind_Ok_inv in H as (origin & Ho & H).
  apply bind_Ok_inv in H as (d1 & H1 & H).
  apply bind_Ok_inv in H as (d4 & H4 & H).
  apply bind_Ok_inv in H as (d5 & H5 & H).
  apply bind_Ok_inv in H as (d6 & H6 & H).
  apply bind_Ok_inv in H as (nodes & Hn & H).
  apply bind_Ok_inv in H as (extra & He & H). injection H as <-.
  match type of Hn with
  | mapM _ (str_split ?c ?s) = _ =>
      destruct (str_split_nonempty c s) as (x & l & Ex); rewrite Ex in Hn
  end.
  apply mapM_nonempty in Hn. destruct Hn as (step & steps & ->).
  exists d1, step, steps.
  rewrite !(dict_get_merge_field _ _ _ _ _ He) by (cbn; congruence).
  repeat split; assumption || reflexivity.
Qed.

(** The parser behind a record of a given class. *)
Lemma Record_init_parser (gfa_data_line gfa_type : string) (kw : kwargs)
  (rec : GfaRecord) :
  Record_init gfa_data_line gfa_type kw = Ok rec ->
  exists style fields,
    (linetype rec = Segment -> segment fields style kw = Ok (datas rec))
    /\ (linetype rec = Line -> line fields style kw = Ok (datas rec))
    /\ (linetype rec = Path -> path fields style kw = Ok (datas rec))
    /\ (linetype rec = Walk -> walk fields style kw = Ok (datas rec)).
Proof.
  intros H. apply Record_init_Ok_inv in H.
  destruct H as (style & c & rest & _ & -> & Hcls & _ & Hd).
  exists style, (str_split tab (str_strip newline (String c rest))).
  rewrite Hcls.
  destruct (LineType_cases c)
    as [[-> E] | [[-> E] | [[-> E] | [[-> E] | [[-> E] | [[-> E] | [[-> E]
       | [_ E]]]]]]]];
    rewrite E in *; cbn [fst snd] in *;
    repeat split; intros; try discriminate; assumption.
Qed.

(** Every path and every walk of a loaded graph holds a list of steps
    under ['path']: the condition under which a merge that raises
    [ValueError] leaves the graph as it was. *)
Lemma loaded_paths_hold_steps (file : list string) (gfa_type : string)
  (with_seq : bool) (g : Graph.t) :
  Graph.init file gfa_type with_seq = Ok g -> paths_hold_steps g = true.
Proof.
  intros H. apply init_Ok_inv in H as (style & gfa_lines & Hs & Hl & ->).
  unfold paths_hold_steps, Graph.get_path_list.
  cbn [Graph.paths Graph.walks]. apply List.forallb_forall. intros rec Hin.
  assert (Hrec : (linetype rec = Path \/ linetype rec = Walk)
                 /\ List.In rec gfa_lines).
  { apply List.in_app_or in Hin.
    destruct Hin as [Hin | Hin]; apply List.filter_In in Hin;
      destruct Hin as [Hin Hc]; apply LineClass_eqb_eq in Hc; auto. }
  destruct Hrec as [Hcls Hin'].
  destruct (mapM_In_inv _ _ _ _ Hl Hin') as (gfa_line & _ & Hr).
  apply Record_init_parser in Hr.
  destruct Hr as (style' & fields & _ & _ & Hpath & Hwalk).
  unfold holds_steps. destruct Hcls as [Hc | Hc].
  - apply Hpath, path_fields in Hc.
    destruct Hc as (name & step & steps & _ & _ & ->). reflexivity.
  - apply Hwalk, walk_fields in Hc.
    destruct Hc as (name & step & steps & _ & _ & ->). reflexivity.
Qed.

(** ** The trailing tokens of a parsed line *)

(** Each parser hands the tokens from its own count on to
    [supplementary_datas] and merges what it returns into the fields. *)
Lemma parsed_trailing_tokens (c : ascii) (fields : list string)
  (style : GfaStyle) (kw : kwargs) (d : dict) :
  fst (LineType (String c "")) fields style kw = Ok d ->
  trailing_tokens_stored fields
    (length_condition_of (snd (LineType (String c "")))) d.
Proof.
  intros H.
  destruct (LineType_cases c)
    as [[-> E] | [[-> E] | [[-> E] | [[-> E] | [[-> E] | [[-> E] | [[-> E]
       | [_ E]]]]]]]];
    rewrite E in *; cbn [fst snd length_condition_of] in *.
  - unfold header in H. destruct (GfaStyle_eqb style RGFA); [discriminate |].
    now apply supplementary_datas_trailing_tokens.
  - unfold segment in H.
    repeat (apply bind_Ok_inv in H as (? & ? & H)). injection H as <-.
    now apply trailing_tokens_stored_merge.
  - unfold line in H.
    repeat (apply bind_Ok_inv in H as (? & ? & H)). injection H as <-.
    now apply trailing_tokens_stored_merge.
  - unfold containment in H.
    destruct (GfaStyle_eqb style RGFA); [discriminate |].
    now apply supplementary_datas_trailing_tokens.
  - unfold path in H. destruct (GfaStyle_eqb style RGFA); [discriminate |].
    repeat (apply bind_Ok_inv in H as (? & ? & H)). injection H as <-.
    now apply trailing_tokens_stored_merge.
  - unfold walk in H. destruct (_ || _); [discriminate |].
    repeat (apply bind_Ok_inv in H as (? & ? & H)). injection H as <-.
    now apply trailing_tokens_stored_merge.
  - unfold jump in H. destruct (_ || _); [discriminate |].
    now apply supplementary_datas_trailing_tokens.
  - unfold default in H. destruct (GfaStyle_eqb style RGFA); [discriminate |].
    now apply supplementary_datas_trailing_tokens.
Qed.

(** C10 (the code departs from it on P-lines).  For every line that
    loads, the tokens from the count its parser passes to
    [supplementary_datas] on are handled as claimed: a tag token is decoded
    and stored under its two-letter key, any other token is stored under
    [ARG<n>], [n] starting at that count and advancing on unmatched tokens
    only.  That count is the one of the table of fixed fields for every
    kind of line but the path: [path] passes 7, the count of a walk, where
    a P-line has two fixed fields.  So a P-line of at most seven fields
    keeps none of its trailing tokens: the P-line with the overlap field
    [*] and the tag [XX:i:5] loads as a record that holds its name and its
    steps only, where the S-line with the same two trailing tokens stores
    them under [ARG3] and [XX]. *)
Theorem trailing_tokens_of_parsed_lines :
  (forall (gfa_data_line gfa_type : string) (kw : kwargs) (rec : GfaRecord),
      Record_init gfa_data_line gfa_type kw = Ok rec ->
      trailing_tokens_stored
        (str_split tab (str_strip newline gfa_data_line))
        (length_condition_of (linetype rec)) (datas rec))
  /\ (forall cls,
         length_condition_of cls = spec_fixed_count cls <-> cls <> Path)
  /\ (length_condition_of Path = 7 /\ spec_fixed_count Path = 3)
  /\ (forall (fields : list string) (style : GfaStyle) (kw : kwargs)
             (d : dict),
         (List.length fields <= 7)%nat ->
         path fields style kw = Ok d ->
         List.map fst d = ["name"; "path"])
  /\ Record_init (gfa_line_of ["P"; "p"; "1+,2-"; "*"; "XX:i:5"]) "GFA1"
       {| ws := Some true |}
     = Ok {| gfastyle := Some GFA1; linetype := Path;
             datas := [("name", PStr "p");
                       ("path", PPath [("1", FORWARD); ("2", REVERSE)])] |}
  /\ Record_init (gfa_line_of ["S"; "1"; "ACGT"; "*"; "XX:i:5"]) "GFA1"
       {| ws := Some true |}
     = Ok {| gfastyle := Some GFA1; linetype := Segment;
             datas := [("name", PStr "1"); ("length", PInt 4);
                       ("seq", PStr "ACGT"); ("ARG3", PStr "*");
                       ("XX", PInt 5)] |}.
Proof.
  split; [| split; [| split; [| split; [| split]]]].
  - intros gfa_data_line gfa_type kw rec H.
    apply Record_init_Ok_inv in H.
    destruct H as (style & c & rest & _ & -> & Hcls & _ & Hd).
    rewrite Hcls. now apply parsed_trailing_tokens in Hd.
  - intros cls. destruct cls; cbn; split; intros H;
      congruence || reflexivity || discriminate.
  - now split.
  - intros fields style kw d Hlen H. unfold path in H.
    destruct (GfaStyle_eqb style RGFA); [discriminate |].
    apply bind_Ok_inv in H as (d1 & H1 & H).
    apply bind_Ok_inv in H as (d2 & H2 & H).
    apply bind_Ok_inv in H as (nodes & Hn & H).
    unfold supplementary_datas in H.
    assert (E : (7 <? Z.of_nat (List.length fields)) = false)
      by (apply Z.ltb_ge; lia).
    rewrite E in H. cbn [bind] in H. now injection H as <-.
  - reflexivity.
  - reflexivity.
Qed.

(** Every record of a loaded graph has the fields the look-ups and the
    editors read.  A segment has a name made of digits, the length of its
    sequence text as ['length'] and that text as ['seq'] exactly when
    sequences were asked for; an edge has ['start'], ['end'] (digit names)
    and ['orientation'] but no ['stop']; a path or a walk has a name and a
    list of steps that is not empty.  Trailing tags never replace these
    fields. *)
Theorem init_record_fields (file : list string) (gfa_type : string)
  (with_seq : bool) (g : Graph.t) :
  Graph.init file gfa_type with_seq = Ok g ->
  List.Forall (loaded_segment with_seq) (Graph.segments g)
  /\ List.Forall length_matches_seq (Graph.segments g)
  /\ List.Forall loaded_edge (Graph.lines g)
  /\ List.Forall parsed_edge (Graph.lines g)
  /\ List.Forall loaded_path (Graph.get_path_list g).
Proof.
  intros H. apply init_Ok_inv in H as (style & gfa_lines & Hs & Hl & ->).
  unfold Graph.get_path_list.
  cbn [Graph.segments Graph.lines Graph.paths Graph.walks].
  assert (Hrec : forall cls rec,
             List.In rec (List.filter (Graph.isinstance cls) gfa_lines) ->
             linetype rec = cls
             /\ exists gfa_line,
                 Record_init gfa_line gfa_type {| ws := Some with_seq |}
                 = Ok rec).
  { intros cls rec Hin. apply List.filter_In in Hin. destruct Hin as [Hin Hc].
    apply LineClass_eqb_eq in Hc. split; [exact Hc |].
    destruct (mapM_In_inv _ _ _ _ Hl Hin) as (gfa_line & _ & Hr). eauto. }
  assert (Hseg : List.Forall (loaded_segment with_seq)
                   (List.filter (Graph.isinstance Segment) gfa_lines)).
  { apply List.Forall_forall. intros rec Hin.
    destruct (Hrec _ _ Hin) as (Hc & gfa_line & Hr).
    apply Record_init_parser in Hr.
    destruct Hr as (style' & fields & Hp & _). specialize (Hp Hc).
    apply segment_fields in Hp.
    destruct Hp as (d1 & d2 & _ & _ & Hn & Hlen & Hsq).
    exists (sub_nondigits d1), d2.
    repeat split; try assumption. apply sub_nondigits_digits. }
  assert (Hedge : forall rec,
             List.In rec (List.filter (Graph.isinstance Line) gfa_lines) ->
             loaded_edge rec /\ parsed_edge rec).
  { intros rec Hin. destruct (Hrec _ _ Hin) as (Hc & gfa_line & Hr).
    apply Record_init_parser in Hr.
    destruct Hr as (style' & fields & _ & Hp & _). specialize (Hp Hc).
    split; [| now exists fields, style', {| ws := Some with_seq |}].
    apply line_fields in Hp.
    destruct Hp as (d1 & d2 & d3 & d4 & _ & _ & _ & _ & Ha & Hb & Ho & Hst).
    exists (sub_nondigits d1), (sub_nondigits d3), d2, d4.
    repeat split; try assumption; apply sub_nondigits_digits. }
  split; [exact Hseg | split; [| split; [| split]]].
  - eapply List.Forall_impl; [| exact Hseg].
    intros rec (name & sequence & _ & _ & Hlen & Hsq) s Hs'.
    rewrite Hs' in Hsq. destruct with_seq; [| discriminate].
    now injection Hsq as ->.
  - apply List.Forall_forall. intros rec Hin. now apply Hedge.
  - apply List.Forall_forall. intros rec Hin. now apply Hedge.
  - apply List.Forall_app. split; apply List.Forall_forall; intros rec Hin;
      destruct (Hrec _ _ Hin) as (Hc & gfa_line & Hr);
      apply Record_init_parser in Hr;
      destruct Hr as (style' & fields & _ & _ & Hp & Hw).
    + specialize (Hp Hc). apply path_fields in Hp.
      destruct Hp as (name & step & steps & _ & Hn & Hpa).
      now exists name, step, steps.
    + specialize (Hw Hc). apply walk_fields in Hw.
      destruct Hw as (name & step & steps & _ & Hn & Hpa).
      now exists name, step, steps.
Qed.

Lemma init_record_fields_witness :
  List.Forall (loaded_segment true) (Graph.segments two_segments_graph)
  /\ List.Forall parsed_edge (Graph.lines two_segments_graph).
Proof.
  pose proof (init_record_fields two_segments_file "GFA1" true
                two_segments_graph eq_refl) as H.
  split; [exact (proj1 H) | exact (proj1 (proj2 (proj2 (proj2 H))))].
Defined.

(** ** Look-ups by name *)

Lemma find_position_named (node : string) (l : list GfaRecord) :
  List.Forall has_name l ->
  forall i0,
    match Graph.find_position (Graph.name_is node) i0 l with
    | Ok (Some i) =>
        exists k rec,
          i = (i0 + k)%nat /\ List.nth_error l k = Some rec
          /\ named node rec
          /\ List.Forall (fun r => ~ named node r) (List.firstn k l)
    | Ok None => List.Forall (fun r => ~ named node r) l
    | Raise _ => False
    end.
Proof.
  induction 1 as [| rec l [v Hv] _ IH]; intros i0;
    cbn [Graph.find_position]; [constructor |].
  unfold Graph.name_is at 1, dict_getitem. rewrite Hv. cbn [bind].
  destruct (val_eq_str v node) eqn:E.
  - apply val_eq_str_true in E. subst v. exists 0%nat, rec.
    rewrite Nat.add_0_r. repeat split; [exact Hv | constructor].
  - assert (Hn : ~ named node rec).
    { unfold named. rewrite Hv. intros [= ->].
      cbn in E. now rewrite String.eqb_refl in E. }
    specialize (IH (S i0)).
    destruct (Graph.find_position (Graph.name_is node) (S i0) l)
      as [[i |] | e]; [| now constructor | exact IH].
    destruct IH as (k & rec' & -> & Hk & Hnamed & Hfirst).
    exists (S k), rec'. rewrite Nat.add_succ_r.
    repeat split; [exact Hk | exact Hnamed | now constructor].
Qed.

(** On a graph whose segments all have a name, [get_segment_position]
    returns the position of the first segment named [node] and
    [get_segment] that segment; both raise [ValueError], and nothing else,
    exactly when no segment has that name. *)
Theorem get_segment_first_match (g : Graph.t) (node : string) :
  List.Forall has_name (Graph.segments g) ->
  match Graph.get_segment_position g node with
  | Ok i =>
      exists seg,
        Graph.get_segment g node = Ok seg
        /\ List.nth_error (Graph.segments g) i = Some seg
        /\ named node seg
        /\ List.Forall (fun r => ~ named node r)
             (List.firstn i (Graph.segments g))
  | Raise e =>
      e = ValueError
      /\ Graph.get_segment g node = Raise ValueError
      /\ List.Forall (fun r => ~ named node r) (Graph.segments g)
  end.
Proof.
  intros H. unfold Graph.get_segment, Graph.get_segment_position.
  pose proof (find_position_named node _ H 0%nat) as Hf.
  destruct (Graph.find_position (Graph.name_is node) 0 (Graph.segments g))
    as [[i |] | e]; cbn [bind]; [| auto | destruct Hf].
  destruct Hf as (k & rec & -> & Hk & Hn & Hfirst). cbn [Nat.add].
  exists rec. rewrite Hk. auto.
Qed.

Lemma get_segment_first_match_witness :
  exists seg,
    Graph.get_segment three_segments_graph "2" = Ok seg
    /\ List.nth_error (Graph.segments three_segments_graph) 1 = Some seg
    /\ named "2" seg
    /\ List.Forall (fun r => ~ named "2" r)
         (List.firstn 1 (Graph.segments three_segments_graph)).
Proof.
  apply (get_segment_first_match three_segments_graph "2").
  repeat constructor; eexists; reflexivity.
Defined.

Lemma Forall_firstn_app {A : Type} (P : A -> Prop) (l1 l2 : list A) (k : nat) :
  (List.length l1 <= k)%nat ->
  List.Forall P (List.firstn k (l1 ++ l2)%list) -> List.Forall P l1.
Proof.
  revert k. induction l1 as [| x l1 IH]; intros k Hk H; [constructor |].
  destruct k as [| k]; cbn [List.length] in Hk; [lia |].
  cbn [List.firstn List.app] in H. inversion H as [| ? ? Hx Hl]; subst.
  constructor; [exact Hx | apply (IH k); [lia | exact Hl]].
Qed.

(** On a graph whose paths and walks all have a name, [get_path] returns
    a record of that name, and a P-line before any W-line: a walk is
    returned only when no path has the name.  It raises [ValueError], and
    nothing else, exactly when neither list has the name. *)
Theorem get_path_paths_before_walks (g : Graph.t) (name : string) :
  List.Forall has_name (Graph.paths g) ->
  List.Forall has_name (Graph.walks g) ->
  match Graph.get_path g name with
  | Ok gpath =>
      named name gpath
      /\ (List.In gpath (Graph.paths g)
          \/ (List.Forall (fun r => ~ named name r) (Graph.paths g)
              /\ List.In gpath (Graph.walks g)))
  | Raise e =>
      e = ValueError
      /\ List.Forall (fun r => ~ named name r) (Graph.paths g)
      /\ List.Forall (fun r => ~ named name r) (Graph.walks g)
  end.
Proof.
  intros Hp Hw. unfold Graph.get_path, Graph.get_path_list.
  assert (H : List.Forall has_name (Graph.paths g ++ Graph.walks g)%list)
    by (apply List.Forall_app; now split).
  pose proof (find_position_named name _ H 0%nat) as Hf.
  destruct (Graph.find_position (Graph.name_is name) 0
              (Graph.paths g ++ Graph.walks g)%list)
    as [[i |] | e]; cbn [bind]; [| | destruct Hf].
  - destruct Hf as (k & rec & -> & Hk & Hn & Hfirst). cbn [Nat.add].
    rewrite Hk. split; [exact Hn |].
    destruct (Nat.lt_ge_cases k (List.length (Graph.paths g))) as [Hlt | Hge].
    + left. rewrite List.nth_error_app1 in Hk by exact Hlt.
      eapply List.nth_error_In; exact Hk.
    + right. split; [eapply Forall_firstn_app; eassumption |].
      rewrite List.nth_error_app2 in Hk by exact Hge.
      eapply List.nth_error_In; exact Hk.
  - apply List.Forall_app in Hf. tauto.
Qed.

(** A walk named like a path is never found: the path is. *)
Lemma get_path_paths_before_walks_witness :
  let p := sample_path GFA1_1 "x" [("1", FORWARD)] in
  let w := {| gfastyle := Some GFA1_1; linetype := Walk;
              datas := [("name", PStr "x"); ("path", PPath [("2", FORWARD)])] |} in
  let g := Graph.set_walks (sample_graph GFA1_1 [] [] [p]) [w] in
  Graph.get_path g "x" = Ok p
  /\ named "x" p
  /\ (List.In p (Graph.paths g)
      \/ (List.Forall (fun r => ~ named "x" r) (Graph.paths g)
          /\ List.In p (Graph.walks g))).
Proof.
  intros p w g. split; [reflexivity |].
  apply (get_path_paths_before_walks g "x");
    repeat constructor; eexists; reflexivity.
Defined.

(** ** The declared style bounds the inferred one *)

Lemma Record_init_class_style (gfa_data_line gfa_type : string) (kw : kwargs)
  (rec : GfaRecord) (style : GfaStyle) :
  GfaStyle_of gfa_type = Ok style ->
  Record_init gfa_data_line gfa_type kw = Ok rec ->
  match linetype rec with
  | Header | Containment | Path => (1 <= style_rank style)%nat
  | Walk => (2 <= style_rank style)%nat
  | Jump => (3 <= style_rank style)%nat
  | Other => starts_with_one_of "HSLCPWJ" gfa_data_line = false
  | Segment | Line => True
  end.
Proof.
  intros Hs H. apply Record_init_Ok_inv in H.
  destruct H as (style' & c & rest & Hs' & -> & Hcls & _ & Hd).
  rewrite Hs in Hs'. injection Hs' as <-. rewrite Hcls.
  cbn [starts_with_one_of].
  destruct (LineType_cases c)
    as [[-> E] | [[-> E] | [[-> E] | [[-> E] | [[-> E] | [[-> E] | [[-> E]
       | [Hc E]]]]]]]];
    rewrite E in *; cbn [fst snd] in *; try exact I; try exact Hc;
    unfold header, containment, path, walk, jump in Hd;
    destruct style; cbn in Hd; try discriminate; cbn; lia.
Qed.

(** When a file made of H, S, L, C, P, W and J lines loads under a
    declared style, the style [assert_format] infers is never above the
    declared one: each parser refuses the styles older than its line. *)
Theorem init_declared_style_bounds_inferred (file : list string)
  (gfa_type : string) (with_seq : bool) (g : Graph.t) :
  Graph.init file gfa_type with_seq = Ok g ->
  List.Forall (fun gfa_line => starts_with_one_of "HSLCPWJ" gfa_line = true)
    file ->
  (style_rank (fst (Graph.assert_format g)) <= style_rank (Graph.version g))%nat.
Proof.
  intros H Hfile. apply init_Ok_inv in H as (style & gfa_lines & Hs & Hl & ->).
  assert (Hrec : forall rec cls,
            List.In rec (List.filter (Graph.isinstance cls) gfa_lines) ->
            linetype rec = cls
            /\ exists gfa_line,
                 List.In gfa_line file
                 /\ Record_init gfa_line gfa_type {| ws := Some with_seq |}
                    = Ok rec).
  { intros rec cls Hin. apply List.filter_In in Hin. destruct Hin as [Hin E].
    apply LineClass_eqb_eq in E. split; [exact E |].
    destruct (mapM_In_inv _ _ _ _ Hl Hin) as (gfa_line & Hin' & Hr). eauto. }
  unfold Graph.assert_format.
  cbn [fst Graph.version Graph.others Graph.jumps Graph.walks Graph.headers
       Graph.paths].
  destruct (List.filter (Graph.isinstance Other) gfa_lines) as [| r ?] eqn:Eo.
  2:{ destruct (Hrec r Other) as (E & gfa_line & Hin & Hr);
        [rewrite Eo; now left |].
      pose proof (Record_init_class_style _ _ _ _ _ Hs Hr) as Hc.
      rewrite E in Hc. rewrite List.Forall_forall in Hfile.
      rewrite (Hfile _ Hin) in Hc. discriminate. }
  destruct (List.filter (Graph.isinstance Jump) gfa_lines) as [| r ?] eqn:Ej.
  2:{ destruct (Hrec r Jump) as (E & gfa_line & Hin & Hr);
        [rewrite Ej; now left |].
      pose proof (Record_init_class_style _ _ _ _ _ Hs Hr) as Hc.
      rewrite E in Hc. exact Hc. }
  destruct (List.filter (Graph.isinstance Walk) gfa_lines) as [| r ?] eqn:Ew.
  2:{ destruct (Hrec r Walk) as (E & gfa_line & Hin & Hr);
        [rewrite Ew; now left |].
      pose proof (Record_init_class_style _ _ _ _ _ Hs Hr) as Hc.
      rewrite E in Hc. exact Hc. }
  destruct (List.filter (Graph.isinstance Header) gfa_lines) as [| r ?] eqn:Eh.
  2:{ destruct (Hrec r Header) as (E & gfa_line & Hin & Hr);
        [rewrite Eh; now left |].
      pose proof (Record_init_class_style _ _ _ _ _ Hs Hr) as Hc.
      rewrite E in Hc. exact Hc. }
  destruct (List.filter (Graph.isinstance Path) gfa_lines) as [| r ?] eqn:Ep.
  2:{ destruct (Hrec r Path) as (E & gfa_line & Hin & Hr);
        [rewrite Ep; now left |].
      pose proof (Record_init_class_style _ _ _ _ _ Hs Hr) as Hc.
      rewrite E in Hc. exact Hc. }
  cbn. lia.
Qed.

(** Two segments and an edge declared as GFA1 are found to be rGFA. *)
Lemma init_declared_style_bounds_inferred_witness :
  (style_rank (fst (Graph.assert_format two_segments_graph))
   <= style_rank (Graph.version two_segments_graph))%nat.
Proof.
  apply (init_declared_style_bounds_inferred two_segments_file "GFA1" true).
  - reflexivity.
  - repeat constructor.
Defined.

(** ** Decoded tag values have a type letter *)

Lemma dumps_ok_snoc (acc : list PyVal) (v : PyVal) :
  List.forallb json_dumps_ok acc = true -> json_dumps_ok v = true ->
  List.forallb json_dumps_ok (acc ++ [v])%list = true.
Proof.
  intros Ha Hv. rewrite List.forallb_app, Ha. cbn. now rewrite Hv.
Qed.

Lemma dumps_ok_dict_set (d : dict) (k : string) (v : PyVal) :
  List.forallb (fun kv => json_dumps_ok (snd kv)) d = true ->
  json_dumps_ok v = true ->
  List.forallb (fun kv => json_dumps_ok (snd kv)) (dict_set d k v) = true.
Proof.
  intros Hd Hv. induction d as [| [k' v'] d IH]; cbn [dict_set List.forallb snd].
  - now rewrite Hv.
  - cbn [List.forallb snd] in Hd. apply andb_prop in Hd as [H1 H2].
    destruct (String.eqb k' k); cbn [List.forallb snd].
    + now rewrite Hv, H2.
    + now rewrite H1, IH.
Qed.

Lemma json_atom_dumps_ok (l : list ascii) (r : PyVal * list ascii) :
  json_atom l = Ok r -> json_dumps_ok (fst r) = true.
Proof.
  unfold json_atom. intros H.
  repeat match type of H with
         | match ?x with _ => _ end = _ => destruct x
         | bind ?x _ = _ =>
             let E := fresh "E" in destruct x eqn:E; cbn [bind] in H
         end;
    try discriminate; injection H as <-; try reflexivity.
  cbn [fst json_dumps_ok]. eapply py_int_str_ok; eassumption.
Qed.

Lemma json_scan_dumps_ok (fuel : nat) :
  (forall l r, json_scan fuel l = Ok r -> json_dumps_ok (fst r) = true)
  /\ (forall acc l r,
        List.forallb json_dumps_ok acc = true ->
        json_items fuel acc l = Ok r -> json_dumps_ok (fst r) = true)
  /\ (forall acc l r,
        List.forallb (fun kv => json_dumps_ok (snd kv)) acc = true ->
        json_members fuel acc l = Ok r -> json_dumps_ok (fst r) = true).
Proof.
  induction fuel as [| n (IHs & IHi & IHm)];
    [repeat split; intros; discriminate |].
  split; [| split].
  - intros l r H. cbn [json_scan] in H.
    destruct l as [| c tl]; [now apply json_atom_dumps_ok in H |].
    destruct (Ascii.eqb_spec c "{") as [-> | Hc1].
    { destruct (json_ws tl) as [| c' r'] eqn:E;
        [now apply (IHm [] []) |].
      destruct (Ascii.eqb_spec c' "}") as [-> | Hc'].
      - injection H as <-. reflexivity.
      - apply (IHm [] (c' :: r')); [reflexivity |].
        destruct c' as [[] [] [] [] [] [] [] []]; try exact H.
        now contradiction Hc'. }
    destruct (Ascii.eqb_spec c "[") as [-> | Hc2].
    { destruct (json_ws tl) as [| c' r'] eqn:E;
        [now apply (IHi [] []) |].
      destruct (Ascii.eqb_spec c' "]") as [-> | Hc'].
      - injection H as <-. reflexivity.
      - apply (IHi [] (c' :: r')); [reflexivity |].
        destruct c' as [[] [] [] [] [] [] [] []]; try exact H.
        now contradiction Hc'. }
    assert (H' : (if Ascii.eqb c dquote
                  then r <- json_string tl ;; Ok (PStr (fst r), snd r)
                  else json_atom (c :: tl)) = Ok r).
    { destruct c as [[] [] [] [] [] [] [] []]; try exact H;
        first [now contradiction Hc1 | now contradiction Hc2]. }
    destruct (Ascii.eqb c dquote).
    + destruct (json_string tl); [| discriminate]. injection H' as <-.
      reflexivity.
    + now apply json_atom_dumps_ok in H'.
  - intros acc l r Hacc H. cbn [json_items] in H.
    destruct (json_scan n l) as [v |] eqn:Ev; [| discriminate].
    cbn [bind] in H. apply IHs in Ev.
    pose proof (dumps_ok_snoc acc (fst v) Hacc Ev) as Hacc'.
    destruct (json_ws (snd v)) as [| c r']; [discriminate |].
    destruct (Ascii.eqb_spec c "]") as [-> | Hc1].
    { injection H as <-. exact Hacc'. }
    destruct (Ascii.eqb_spec c ",") as [-> | Hc2].
    { now apply IHi in H. }
    destruct c as [[] [] [] [] [] [] [] []]; try discriminate H;
      first [now contradiction Hc1 | now contradiction Hc2].
  - intros acc l r Hacc H. cbn [json_members] in H.
    destruct l as [| c tl]; [discriminate |].
    destruct (negb (Ascii.eqb c dquote)); [discriminate |].
    destruct (json_string tl) as [k |]; [| discriminate]. cbn [bind] in H.
    destruct (json_ws (snd k)) as [| c1 r1]; [discriminate |].
    assert (H' : (v <- json_scan n (json_ws r1) ;;
                  match json_ws (snd v) with
                  | "}"%char :: r' =>
                      Ok (PDict (dict_set acc (fst k) (fst v)), r')
                  | ","%char :: r' =>
                      json_members n (dict_set acc (fst k) (fst v))
                        (json_ws r')
                  | _ => Raise JSONDecodeError
                  end) = Ok r).
    { destruct c1 as [[] [] [] [] [] [] [] []]; try discriminate H; exact H. }
    clear H. destruct (json_scan n (json_ws r1)) as [v |] eqn:Ev;
      [| discriminate].
    cbn [bind] in H'. apply IHs in Ev.
    pose proof (dumps_ok_dict_set acc (fst k) (fst v) Hacc Ev) as Hacc'.
    destruct (json_ws (snd v)) as [| c2 r']; [discriminate |].
    destruct (Ascii.eqb_spec c2 "}") as [-> | Hc1].
    { injection H' as <-. exact Hacc'. }
    destruct (Ascii.eqb_spec c2 ",") as [-> | Hc2].
    { now apply IHm in H'. }
    destruct c2 as [[] [] [] [] [] [] [] []]; try discriminate H';
      first [now contradiction Hc1 | now contradiction Hc2].
Qed.

Lemma json_loads_dumps_ok (s : string) (v : PyVal) :
  json_loads s = Ok v -> json_dumps_ok v = true.
Proof.
  unfold json_loads. intros H. apply bind_Ok_inv in H as (r & Hr & H).
  apply json_scan_dumps_ok in Hr.
  destruct (json_ws (snd r)); [| discriminate]. now injection H as <-.
Qed.

(** Whatever a tag decodes to, [dtype] gives it a type letter: the letters
    [i] and [f] are found again, [A] and [Z] both give a text filed under
    [Z], and a [J] value is filed under the letter of what it decoded to. *)
Theorem decoded_tag_has_letter (letter s : string)
  (cast : string -> res PyVal) (v : PyVal) :
  gtype letter = Ok cast -> cast s = Ok v ->
  exists t,
    dtype v = Ok t
    /\ (letter = "i" -> t = "i")
    /\ (letter = "f" -> t = "f")
    /\ (letter = "A" \/ letter = "Z" -> t = "Z" /\ v = PStr s).
Proof.
  unfold gtype. intros Hg Hc.
  assert (Hstr : cast = (fun s => Ok (PStr s)) ->
                 letter <> "i" -> letter <> "f" ->
                 exists t, dtype v = Ok t /\ (letter = "i" -> t = "i")
                   /\ (letter = "f" -> t = "f")
                   /\ (letter = "A" \/ letter = "Z" -> t = "Z" /\ v = PStr s)).
  { intros -> Hi Hf. injection Hc as <-. exists "Z".
    split; [reflexivity | split; [| split]]; intros H;
      [contradiction | contradiction | now split]. }
  destruct (String.eqb_spec letter "i") as [-> | Hi].
  { injection Hg as <-. apply bind_Ok_inv in Hc as (n & _ & [= <-]).
    exists "i". split; [reflexivity | split; [| split]]; intros H;
      [reflexivity | discriminate | destruct H; discriminate]. }
  destruct (String.eqb_spec letter "f") as [-> | Hf].
  { injection Hg as <-. apply bind_Ok_inv in Hc as (n & _ & [= <-]).
    exists "f". split; [reflexivity | split; [| split]]; intros H;
      [discriminate | reflexivity | destruct H; discriminate]. }
  destruct (String.eqb_spec letter "A") as [-> | Ha].
  { injection Hg as <-. now apply Hstr. }
  destruct (String.eqb_spec letter "Z") as [-> | Hz].
  { injection Hg as <-. now apply Hstr. }
  cbn [orb] in Hg.
  destruct (String.eqb_spec letter "J") as [-> | Hj].
  { injection Hg as <-. apply json_loads_dumps_ok in Hc.
    assert (exists t, dtype v = Ok t) as [t Ht].
    { unfold dtype. rewrite Hc. destruct v; eauto. }
    exists t. split; [exact Ht | split; [| split]]; intros H;
      [discriminate | discriminate | destruct H; discriminate]. }
  destruct (String.eqb letter "H" || String.eqb letter "B"); discriminate.
Qed.

Lemma decoded_tag_has_letter_witness :
  exists t,
    dtype (PList [PInt 1; PInt 2]) = Ok t
    /\ ("J" = "i" -> t = "i")
    /\ ("J" = "f" -> t = "f")
    /\ ("J" = "A" \/ "J" = "Z" -> t = "Z" /\ PList [PInt 1; PInt 2] = PStr "[1, 2]").
Proof.
  apply (decoded_tag_has_letter "J" "[1, 2]" json_loads); reflexivity.
Defined.

(** ** What [save_graph] writes *)

Lemma str_app_assoc (a b c : string) : ((a ++ b) ++ c = a ++ (b ++ c))%string.
Proof.
  induction a as [| x a IH]; cbn [String.append]; [reflexivity |].
  now rewrite IH.
Qed.

Lemma ends_with_app (suffix a b : string) :
  ends_with suffix b -> ends_with suffix (a ++ b).
Proof.
  intros [body ->]. exists (a ++ body). now rewrite str_app_assoc.
Qed.

Lemma ends_with_cons (suffix : string) (c : ascii) (b : string) :
  ends_with suffix b -> ends_with suffix (String c b).
Proof. intros [body ->]. now exists (String c body). Qed.

Lemma ends_with_refl (s : string) : ends_with s s.
Proof. now exists "". Qed.

Create HintDb ends.

#[local] Hint Resolve ends_with_app ends_with_cons ends_with_refl : ends.

Lemma enumerate_from_In_index {A : Type} (l : list A) (i : nat)
  (item : nat * A) :
  List.In item (enumerate_from i l) ->
  (i <= fst item < i + List.length l)%nat.
Proof.
  revert i; induction l as [| x l IH]; intros i;
    cbn [enumerate_from List.In List.length]; [intros [] |].
  intros [<- | H]; [cbn; lia | apply IH in H; lia].
Qed.

Lemma enumerate_from_length {A : Type} (l : list A) (i : nat) :
  List.length (enumerate_from i l) = List.length l.
Proof.
  revert i; induction l as [| x l IH]; intros i; cbn; [reflexivity |].
  now rewrite IH.
Qed.

Lemma mapM_Forall {A B : Type} (f : A -> res B) (P : B -> Prop) (l : list A)
  (l' : list B) :
  mapM f l = Ok l' -> (forall x y, f x = Ok y -> P y) -> List.Forall P l'.
Proof.
  intros H Hf. apply List.Forall_forall. intros y Hy.
  destruct (mapM_In_inv _ _ _ _ H Hy) as (x & _ & Hx). eauto.
Qed.

Section SavedTexts.

Variable float_repr : spec_float -> string.

Lemma header_text_ends (head : GfaRecord) (s : string) :
  Graph.header_text float_repr head = Ok s -> ends_with NL s.
Proof.
  unfold Graph.header_text. intros H. apply bind_Ok_inv in H as (t & _ & H).
  injection H as <-. auto with ends.
Qed.

Lemma segment_text_ends (seg : GfaRecord) (s : string) :
  Graph.segment_text float_repr seg = Ok s -> ends_with NL s.
Proof.
  unfold Graph.segment_text. intros H.
  repeat (apply bind_Ok_inv in H as (? & _ & H)).
  injection H as <-. auto 10 with ends.
Qed.

Lemma line_text_ends (lin : GfaRecord) (s : string) :
  Graph.line_text float_repr lin = Ok s -> ends_with NL s.
Proof.
  unfold Graph.line_text. intros H.
  apply bind_Ok_inv in H as (o & _ & H).
  apply bind_Ok_inv in H as (parts & _ & H).
  destruct parts as [| ori1 [| ori2 [| ? ?]]]; try discriminate.
  repeat (apply bind_Ok_inv in H as (? & _ & H)).
  injection H as <-. auto 20 with ends.
Qed.

Lemma write_path_ends (way : GfaRecord) (gfa_format : GfaStyle)
  (line_number : Z) (s : string) :
  write_path float_repr way gfa_format line_number = Ok s ->
  match gfa_format with
  | GFA1 => ends_with "*" s
  | GFA1_1 | GFA1_2 | GFA2 => ends_with NL s
  | RGFA | UNK => s = ""
  end.
Proof.
  unfold write_path. intros H.
  destruct gfa_format; cbn [GfaStyle_eqb GfaStyle_value String.eqb Ascii.eqb
                             Bool.eqb orb] in H;
    try (now injection H as <-);
    repeat (apply bind_Ok_inv in H as (? & _ & H));
    injection H as <-; auto 20 with ends.
Qed.

(** When [save_graph] returns, it has written one text per header (none
    under rGFA), segment and edge, each ending with a line end, then one
    text per path and walk: a P-line without line end under GFA1, a W-line
    with its line end under GFA1.1, GFA1.2 and GFA2, and the empty text
    under rGFA and the unknown style.  Containments, jumps and other
    records are not written. *)
Theorem save_graph_output_shape (g : Graph.t)
  (output_format : option GfaStyle) (out : list string) :
  Graph.save_graph float_repr g output_format = Ok out ->
  saved_shape g output_format out.
Proof.
  unfold Graph.save_graph, saved_shape. intros H.
  set (f := match output_format with
            | Some f => f
            | None => Graph.version g
            end) in *.
  apply bind_Ok_inv in H as (hs & Hh & H).
  apply bind_Ok_inv in H as (ss & Hs & H).
  apply bind_Ok_inv in H as (ls & Hl & H).
  apply bind_Ok_inv in H as (ps & Hp & H). injection H as <-.
  exists hs, ss, ls, ps. split; [reflexivity |].
  assert (Hhs : List.length hs
                = (if GfaStyle_eqb f RGFA then 0 else
                     List.length (Graph.headers g))%nat
                /\ List.Forall (ends_with NL) hs).
  { destruct (Graph.headers g) as [| h0 hl] eqn:Eh.
    - cbn in Hh. injection Hh as <-. split; [now destruct GfaStyle_eqb |].
      constructor.
    - cbn [List.length Nat.ltb Nat.leb andb] in Hh.
      destruct (GfaStyle_eqb f RGFA); cbn [negb] in Hh.
      + injection Hh as <-. split; [reflexivity | constructor].
      + split; [now apply mapM_length in Hh |].
        eapply mapM_Forall; [exact Hh |]. intros x y.
        apply header_text_ends. }
  destruct Hhs as [Hhs1 Hhs2].
  split; [| split; [| split; [| split; [| split]]]].
  - rewrite Hhs1. subst f.
    destruct output_format as [[] |]; try reflexivity.
    now destruct (Graph.version g).
  - now apply mapM_length in Hs.
  - now apply mapM_length in Hl.
  - apply mapM_length in Hp. rewrite Hp. unfold enumerate, Graph.get_path_list.
    now rewrite enumerate_from_length, List.length_app.
  - apply List.Forall_app. split; [exact Hhs2 |].
    apply List.Forall_app. split.
    + eapply mapM_Forall; [exact Hs |]. intros x y. apply segment_text_ends.
    + eapply mapM_Forall; [exact Hl |]. intros x y. apply line_text_ends.
  - eapply mapM_Forall; [exact Hp |]. intros [i way] y Hy.
    now apply write_path_ends in Hy.
Qed.

End SavedTexts.

(** Two paths saved as GFA1: two texts, neither with a line end. *)
Lemma save_graph_output_shape_witness :
  let g := sample_graph GFA1 [] []
             [sample_path GFA1 "x" [("1", FORWARD)];
              sample_path GFA1 "y" [("2", REVERSE)]] in
  let out := ["P" ++ TAB ++ "x" ++ TAB ++ "1+" ++ TAB ++ "*";
              "P" ++ TAB ++ "y" ++ TAB ++ "2-" ++ TAB ++ "*"] in
  Graph.save_graph (fun _ => "") g None = Ok out
  /\ saved_shape g None out.
Proof.
  intros g out. split; [reflexivity |].
  apply (save_graph_output_shape (fun _ => "") g None out). reflexivity.
Defined.

(** ** Saving a loaded graph *)

Lemma extra_fields_storable (tokens : list string) :
  forall (mapping : dict) (nargs : Z) (m : dict),
    extra_fields tokens mapping nargs = Ok m ->
    storable mapping = true -> storable m = true.
Proof.
  induction tokens as [| tok tl IH]; intros mapping nargs m H Hm;
    cbn [extra_fields] in H.
  - now injection H as <-.
  - destruct (tag_match tok).
    + apply bind_Ok_inv in H as (letter & _ & H).
      apply bind_Ok_inv in H as (cast & Hg & H).
      apply bind_Ok_inv in H as (v & Hv & H).
      apply (IH _ _ _ H). apply dumps_ok_dict_set; [exact Hm |].
      unfold gtype in Hg.
      repeat match type of Hg with
             | (if ?b then _ else _) = _ => destruct b
             end; try discriminate; injection Hg as <-.
      * apply bind_Ok_inv in Hv as (n & Hn & [= <-]).
        cbn [json_dumps_ok]. now apply py_int_str_ok in Hn.
      * apply bind_Ok_inv in Hv as (n & _ & [= <-]). reflexivity.
      * now injection Hv as <-.
      * now apply json_loads_dumps_ok in Hv.
    + apply bind_Ok_inv in H as (n & _ & H).
      apply (IH _ _ _ H). now apply dumps_ok_dict_set.
Qed.

Lemma supplementary_datas_storable (fields : list string) (n : Z) (m : dict) :
  supplementary_datas fields n = Ok m -> storable m = true.
Proof.
  unfold supplementary_datas. destruct (_ <? _).
  - intros H. now apply extra_fields_storable in H.
  - now intros [= <-].
Qed.

Lemma dict_merge_storable (d2 d1 : dict) :
  storable d1 = true -> storable d2 = true ->
  storable (dict_merge d1 d2) = true.
Proof.
  unfold dict_merge. revert d1.
  induction d2 as [| [k v] d2 IH]; intros d1 H1 H2; cbn [List.fold_left];
    [exact H1 |].
  cbn [storable List.forallb snd] in H2. apply andb_prop in H2 as [Hv H2].
  apply IH; [| exact H2]. now apply dumps_ok_dict_set.
Qed.

Lemma dumps_ok_str_ok :
  forall v : PyVal, json_dumps_ok v = true -> str_ok v = true.
Proof.
  fix IH 1.
  intros [| b | n | f | s | l | d | p]; cbn [json_dumps_ok str_ok];
    try reflexivity; try (intros H; exact H).
  - induction l as [| x l IHl]; cbn [List.forallb]; [reflexivity |].
    intros H. apply andb_prop in H as [H1 H2].
    rewrite (IH x H1). now apply IHl.
  - induction d as [| [k x] d IHd]; cbn [List.forallb snd]; [reflexivity |].
    intros H. apply andb_prop in H as [H1 H2].
    rewrite (IH x H1). now apply IHd.
Qed.

Lemma storable_writable (skip : list string) (d : dict) :
  storable d = true -> writable skip d = true.
Proof.
  unfold storable, writable. rewrite !List.forallb_forall.
  intros H kv Hin. rewrite (H kv Hin). apply Bool.orb_true_r.
Qed.

Lemma writable_dict_set (skip : list string) (d : dict) (k : string)
  (v : PyVal) :
  writable skip d = true ->
  List.existsb (String.eqb k) skip || json_dumps_ok v = true ->
  writable skip (dict_set d k v) = true.
Proof.
  intros Hd Hv. unfold writable in *.
  induction d as [| [k' v'] d IH]; cbn [dict_set List.forallb fst snd].
  - now rewrite Hv.
  - cbn [List.forallb fst snd] in Hd. apply andb_prop in Hd as [H1 H2].
    destruct (String.eqb_spec k' k) as [-> | Hne]; cbn [List.forallb fst snd].
    + now rewrite Hv, H2.
    + now rewrite H1, IH.
Qed.

Lemma writable_merge (skip : list string) (d2 d1 : dict) :
  writable skip d1 = true -> writable skip d2 = true ->
  writable skip (dict_merge d1 d2) = true.
Proof.
  unfold dict_merge. revert d1.
  induction d2 as [| [k v] d2 IH]; intros d1 H1 H2; cbn [List.fold_left];
    [exact H1 |].
  cbn [writable List.forallb fst snd] in H2. apply andb_prop in H2 as [Hv H2].
  apply IH; [| exact H2]. now apply writable_dict_set.
Qed.

(** The fields of a segment that [json.dumps] need not accept (the length
    is an [int] of any size) are the three the serializer leaves out of
    the tags. *)
Lemma segment_writable (fields : list string) (style : GfaStyle)
  (kw : kwargs) (d : dict) :
  segment fields style kw = Ok d ->
  writable ["length"; "seq"; "name"] d = true.
Proof.
  unfold segment. intros H.
  apply bind_Ok_inv in H as (d1 & H1 & H).
  apply bind_Ok_inv in H as (d2 & H2 & H).
  apply bind_Ok_inv in H as (b & _ & H).
  apply bind_Ok_inv in H as (line_datas & Hld & H).
  apply bind_Ok_inv in H as (extra & He & H). injection H as <-.
  apply supplementary_datas_storable in He.
  apply writable_merge; [| now apply storable_writable].
  destruct b.
  - rewrite H2 in Hld. cbn [bind] in Hld. now injection Hld as <-.
  - now injection Hld as <-.
Qed.

Lemma parsed_fields_storable (c : ascii) (fields : list string)
  (style : GfaStyle) (kw : kwargs) (d : dict) :
  fst (LineType (String c "")) fields style kw = Ok d ->
  snd (LineType (String c "")) <> Segment ->
  snd (LineType (String c "")) <> Path ->
  snd (LineType (String c "")) <> Walk ->
  storable d = true.
Proof.
  intros H Hs Hp Hw.
  destruct (LineType_cases c)
    as [[-> E] | [[-> E] | [[-> E] | [[-> E] | [[-> E] | [[-> E] | [[-> E]
       | [_ E]]]]]]]];
    rewrite E in *; cbn [fst snd] in *; try congruence.
  - unfold header in H. destruct (GfaStyle_eqb style RGFA); [discriminate |].
    now apply supplementary_datas_storable in H.
  - unfold line in H.
    apply bind_Ok_inv in H as (d1 & H1 & H).
    apply bind_Ok_inv in H as (d3 & H3 & H).
    apply bind_Ok_inv in H as (d2 & H2 & H).
    apply bind_Ok_inv in H as (d4 & H4 & H).
    apply bind_Ok_inv in H as (extra & He & H). injection H as <-.
    apply supplementary_datas_storable in He.
    now apply dict_merge_storable.
  - unfold containment in H.
    destruct (GfaStyle_eqb style RGFA); [discriminate |].
    now apply supplementary_datas_storable in H.
  - unfold jump in H. destruct (_ || _); [discriminate |].
    now apply supplementary_datas_storable in H.
  - unfold default in H. destruct (GfaStyle_eqb style RGFA); [discriminate |].
    now apply supplementary_datas_storable in H.
Qed.

Lemma str_split_length (c : ascii) (s : string) :
  List.length (str_split c s) = S (count_char c s).
Proof.
  induction s as [| a s IH]; cbn [str_split count_char]; [reflexivity |].
  destruct (Ascii.eqb a c); cbn [List.length Nat.add]; [now rewrite IH |].
  destruct (str_split c s); cbn [List.length] in *; [discriminate | exact IH].
Qed.

Lemma mapM_all_Ok {A B : Type} (f : A -> res B) (l : list A) :
  List.Forall (fun x => exists y, f x = Ok y) l -> exists l', mapM f l = Ok l'.
Proof.
  induction 1 as [| x l [y Hy] _ [l' IH]]; [now exists [] |].
  exists (y :: l'). now rewrite mapM_cons, Hy, IH.
Qed.

Lemma mapM_Ok_or_Raise {A B : Type} (f : A -> res B) (e : exn) (l : list A) :
  List.Forall (fun x => (exists y, f x = Ok y) \/ f x = Raise e) l ->
  (exists l', mapM f l = Ok l'
              /\ List.Forall (fun x => exists y, f x = Ok y) l)
  \/ (mapM f l = Raise e /\ List.Exists (fun x => f x = Raise e) l).
Proof.
  induction 1 as [| x l Hx _ IH]; [left; exists []; now split |].
  rewrite mapM_cons. destruct Hx as [[y Hy] | Hx].
  - rewrite Hy. cbn [bind]. destruct IH as [(l' & -> & Hall) | [-> Hex]].
    + left. exists (y :: l'). split; [reflexivity |]. constructor; eauto.
    + right. split; [reflexivity | now apply List.Exists_cons_tl].
  - right. rewrite Hx. split; [reflexivity | now apply List.Exists_cons_hd].
Qed.

Section SavingLoaded.

Variable float_repr : spec_float -> string.

Lemma format_value_storable (v : PyVal) :
  json_dumps_ok v = true ->
  format_value float_repr v = Ok (py_str float_repr v).
Proof.
  intros H. unfold format_value. now rewrite (dumps_ok_str_ok v H).
Qed.

Lemma format_value_str (s : string) :
  format_value float_repr (PStr s) = Ok s.
Proof. reflexivity. Qed.

Lemma tags_text_Ok (skip : list string) (d : dict) :
  writable skip d = true -> exists s, tags_text float_repr skip d = Ok s.
Proof.
  intros Hd. unfold tags_text.
  destruct (mapM_all_Ok (tag_text float_repr)
              (List.filter
                 (fun kv => negb (List.existsb (String.eqb (fst kv)) skip)) d))
    as [l Hl].
  - apply List.Forall_forall. intros [k v] Hin.
    apply List.filter_In in Hin. destruct Hin as [Hin Hk].
    unfold writable in Hd. rewrite List.forallb_forall in Hd.
    specialize (Hd _ Hin). cbn [fst snd] in Hd, Hk.
    apply Bool.negb_true_iff in Hk. rewrite Hk in Hd. cbn [orb] in Hd.
    unfold tag_text. rewrite (format_value_storable v Hd).
    destruct (negb (str_startswith "ARG" k)); [| eauto].
    unfold dtype. rewrite Hd. destruct v; cbn [bind]; eauto.
  - rewrite Hl. cbn [bind]. eauto.
Qed.

(** The fields of a loaded path, and of a loaded walk, that [write_path]
    looks for. *)
Lemma path_written_fields (fields : list string) (style : GfaStyle)
  (kw : kwargs) (d : dict) :
  path fields style kw = Ok d ->
  dict_get d "origin" = None
  /\ dict_get d "start_offset" = None
  /\ dict_get d "stop_offset" = None.
Proof.
  unfold path. destruct (GfaStyle_eqb style RGFA); [discriminate |]. intros H.
  apply bind_Ok_inv in H as (d1 & H1 & H).
  apply bind_Ok_inv in H as (d2 & H2 & H).
  apply bind_Ok_inv in H as (nodes & Hn & H).
  apply bind_Ok_inv in H as (extra & He & H). injection H as <-.
  rewrite !(dict_get_merge_field _ _ _ _ _ He) by (cbn; congruence).
  repeat split; reflexivity.
Qed.

Lemma walk_written_fields (fields : list string) (style : GfaStyle)
  (kw : kwargs) (d : dict) :
  walk fields style kw = Ok d ->
  exists d2 origin d4 d5,
    py_int d2 = Ok origin
    /\ dict_get d "origin" = Some (PInt origin)
    /\ dict_get d "start_offset" = Some (PStr d4)
    /\ dict_get d "stop_offset" = Some (PStr d5).
Proof.
  unfold walk. destruct (_ || _); [discriminate |]. intros H.
  apply bind_Ok_inv in H as (d3 & H3 & H).
  apply bind_Ok_inv in H as (d2 & H2 & H).
  apply bind_Ok_inv in H as (origin & Ho & H).
  apply bind_Ok_inv in H as (d1 & H1 & H).
  apply bind_Ok_inv in H as (d4 & H4 & H).
  apply bind_Ok_inv in H as (d5 & H5 & H).
  apply bind_Ok_inv in H as (d6 & H6 & H).
  apply bind_Ok_inv in H as (nodes & Hn & H).
  apply bind_Ok_inv in H as (extra & He & H). injection H as <-.
  exists d2, origin, d4, d5.
  rewrite !(dict_get_merge_field _ _ _ _ _ He) by (cbn; congruence).
  repeat split; assumption || reflexivity.
Qed.

(** What saving makes of one loaded record. *)
Lemma Record_init_saves (gfa_data_line gfa_type : string) (with_seq : bool)
  (rec : GfaRecord) :
  Record_init gfa_data_line gfa_type {| ws := Some with_seq |} = Ok rec ->
  match linetype rec with
  | Header => exists s, Graph.header_text float_repr rec = Ok s
  | Segment => exists s, Graph.segment_text float_repr rec = Ok s
  | Line =>
      (one_slash rec /\ exists s, Graph.line_text float_repr rec = Ok s)
      \/ (~ one_slash rec
          /\ Graph.line_text float_repr rec = Raise ValueError)
  | Path | Walk =>
      forall gfa_format line_number,
      0 <= line_number <= sys_maxsize ->
      exists s, write_path float_repr rec gfa_format line_number = Ok s
  | _ => True
  end.
Proof.
  intros H. pose proof (Record_init_parser _ _ _ _ H) as Hp.
  destruct Hp as (style' & fields & Hseg & Hline & Hpath & Hwalk).
  apply Record_init_Ok_inv in H.
  destruct H as (style & c & rest & _ & -> & Hcls & _ & Hd).
  pose proof (parsed_fields_storable _ _ _ _ _ Hd) as Hst.
  rewrite <- Hcls in Hst.
  destruct (linetype rec) eqn:Ec; try exact I.
  - unfold Graph.header_text.
    destruct (tags_text_Ok [] (datas rec)) as [t Ht];
      [apply storable_writable, Hst; discriminate |].
    rewrite Ht. cbn [bind]. eauto.
  - specialize (Hseg eq_refl).
    pose proof (segment_writable _ _ _ _ Hseg) as Hwr.
    apply segment_fields in Hseg.
    destruct Hseg as (d1 & d2 & _ & _ & Hn & Hlen & Hsq).
    unfold Graph.segment_text, dict_getitem, dict_contains.
    rewrite Hn, Hsq, Hlen. cbn [bind].
    destruct (tags_text_Ok ["length"; "seq"; "name"] (datas rec)) as [t Ht];
      [exact Hwr |].
    destruct with_seq; cbn [bind repeat_N]; rewrite !format_value_str, Ht;
      cbn [bind]; eauto.
  - specialize (Hline eq_refl). apply line_fields in Hline.
    destruct Hline as (d1 & d2 & d3 & d4 & _ & _ & _ & _ & Ha & Hb & Ho & _).
    unfold Graph.line_text, dict_getitem, one_slash.
    rewrite Ho, Ha, Hb. cbn [bind val_split].
    pose proof (str_split_length "/" (d2 ++ "/" ++ d4)) as Hlen.
    destruct (tags_text_Ok ["orientation"; "start"; "end"] (datas rec))
      as [t Ht]; [apply storable_writable, Hst; discriminate |].
    rewrite !format_value_str, Ht. cbn [bind].
    destruct (Nat.eq_dec (count_char "/" (d2 ++ "/" ++ d4)) 1) as [E | E].
    + left. split; [eauto |]. rewrite E in Hlen.
      destruct (str_split "/" (d2 ++ "/" ++ d4)) as [| o1 [| o2 [| ? ?]]];
        try discriminate. eauto.
    + right. split.
      * intros (o & [= <-] & Hc). contradiction.
      * destruct (str_split "/" (d2 ++ "/" ++ d4)) as [| o1 [| o2 [| ? ?]]];
          try reflexivity.
        cbn [List.length] in Hlen. congruence.
  - specialize (Hpath eq_refl).
    destruct (path_written_fields _ _ _ _ Hpath) as (Hor & Hst1 & Hst2).
    apply path_fields in Hpath.
    destruct Hpath as (name & step & steps & _ & Hn & Hpa).
    intros gfa_format line_number Hnum. unfold write_path, dict_getitem.
    rewrite Hn, Hpa, Hor, Hst1, Hst2. cbn [bind val_path].
    rewrite !format_value_str. cbn [bind].
    destruct (GfaStyle_eqb gfa_format GFA1); [eauto |].
    destruct (_ || _); [| eauto].
    unfold format_value. cbn [str_ok].
    rewrite index_str_ok by lia. cbn [bind]. eauto.
  - specialize (Hwalk eq_refl).
    destruct (walk_written_fields _ _ _ _ Hwalk)
      as (d2 & origin & d4 & d5 & Hint & Hor & Hst1 & Hst2).
    apply walk_fields in Hwalk.
    destruct Hwalk as (name & step & steps & _ & Hn & Hpa).
    intros gfa_format line_number Hnum. unfold write_path, dict_getitem.
    rewrite Hn, Hpa, Hor, Hst1, Hst2. cbn [bind val_path].
    rewrite !format_value_str. cbn [bind].
    destruct (GfaStyle_eqb gfa_format GFA1); [eauto |].
    destruct (_ || _); [| eauto].
    unfold format_value. cbn [str_ok].
    rewrite (py_int_str_ok _ _ Hint). cbn [bind]. eauto.
Qed.

(** Saving a graph as it was loaded, in any output style, raises nothing
    but [ValueError], and that exactly when the orientation text of some
    edge does not hold one [/], which is when an orientation field of an
    L-line had a [/] in it.  Otherwise every text is written. *)
Theorem save_loaded_graph (file : list string) (gfa_type : string)
  (with_seq : bool) (g : Graph.t) (output_format : option GfaStyle) :
  Graph.init file gfa_type with_seq = Ok g ->
  match Graph.save_graph float_repr g output_format with
  | Ok out => List.Forall one_slash (Graph.lines g)
  | Raise e =>
      e = ValueError
      /\ List.Exists (fun rec => ~ one_slash rec) (Graph.lines g)
  end.
Proof.
  intros H. pose proof (init_Ok_length _ _ _ _ H) as Hsize.
  apply init_Ok_inv in H as (style & gfa_lines & Hs & Hl & ->).
  rewrite <- (mapM_length _ _ _ Hl), <- (records_partition gfa_lines) in Hsize.
  assert (Hrec : forall cls rec,
             List.In rec (List.filter (Graph.isinstance cls) gfa_lines) ->
             linetype rec = cls
             /\ exists gfa_line,
                 Record_init gfa_line gfa_type {| ws := Some with_seq |}
                 = Ok rec).
  { intros cls rec Hin. apply List.filter_In in Hin. destruct Hin as [Hin Hc].
    apply LineClass_eqb_eq in Hc. split; [exact Hc |].
    destruct (mapM_In_inv _ _ _ _ Hl Hin) as (gfa_line & _ & Hr). eauto. }
  assert (Hsaves : forall cls rec,
             List.In rec (List.filter (Graph.isinstance cls) gfa_lines) ->
             linetype rec = cls
             /\ match linetype rec with
                | Header => exists s, Graph.header_text float_repr rec = Ok s
                | Segment => exists s, Graph.segment_text float_repr rec = Ok s
                | Line =>
                    (one_slash rec
                     /\ exists s, Graph.line_text float_repr rec = Ok s)
                    \/ (~ one_slash rec
                        /\ Graph.line_text float_repr rec = Raise ValueError)
                | Path | Walk =>
                    forall gfa_format line_number,
                    0 <= line_number <= sys_maxsize ->
                    exists s,
                      write_path float_repr rec gfa_format line_number = Ok s
                | _ => True
                end).
  { intros cls rec Hin. destruct (Hrec _ _ Hin) as (Hc & gfa_line & Hr).
    split; [exact Hc |]. now apply Record_init_saves in Hr. }
  clear Hrec. unfold Graph.save_graph, Graph.get_path_list.
  cbn [Graph.version Graph.headers Graph.segments Graph.lines Graph.paths
       Graph.walks].
  set (f := match output_format with Some f => f | None => style end).
  assert (Hh : exists hs,
             (if (0 <? List.length
                         (List.filter (Graph.isinstance Header) gfa_lines))%nat
                 && negb (GfaStyle_eqb f RGFA)
              then mapM (Graph.header_text float_repr)
                     (List.filter (Graph.isinstance Header) gfa_lines)
              else Ok []) = Ok hs).
  { destruct (_ && _); [| eauto]. apply mapM_all_Ok.
    apply List.Forall_forall. intros rec Hin.
    destruct (Hsaves _ _ Hin) as (Hc & Hrec). now rewrite Hc in Hrec. }
  destruct Hh as [hs ->]. cbn [bind].
  destruct (mapM_all_Ok (Graph.segment_text float_repr)
              (List.filter (Graph.isinstance Segment) gfa_lines)) as [ss ->].
  { apply List.Forall_forall. intros rec Hin.
    destruct (Hsaves _ _ Hin) as (Hc & Hrec). now rewrite Hc in Hrec. }
  cbn [bind].
  assert (Hlines : List.Forall
                     (fun rec =>
                        (one_slash rec
                         /\ exists s, Graph.line_text float_repr rec = Ok s)
                        \/ (~ one_slash rec
                            /\ Graph.line_text float_repr rec
                               = Raise ValueError))
                     (List.filter (Graph.isinstance Line) gfa_lines)).
  { apply List.Forall_forall. intros rec Hin.
    destruct (Hsaves _ _ Hin) as (Hc & Hrec). now rewrite Hc in Hrec. }
  destruct (mapM_Ok_or_Raise (Graph.line_text float_repr) ValueError
              (List.filter (Graph.isinstance Line) gfa_lines))
    as [(ls & -> & Hall) | [-> Hex]].
  { eapply List.Forall_impl; [| exact Hlines].
    intros rec [[_ ?] | [_ ?]]; auto. }
  - cbn [bind].
    destruct (mapM_all_Ok
                (fun np => write_path float_repr (snd np) f
                             (Z.of_nat (fst np)))
                (enumerate
                   (List.filter (Graph.isinstance Path) gfa_lines
                    ++ List.filter (Graph.isinstance Walk) gfa_lines)%list))
      as [ps ->].
    { apply List.Forall_forall. intros [i way] Hin.
      pose proof (enumerate_from_In_index _ _ _ Hin) as Hi.
      rewrite List.length_app in Hi.
      apply enumerate_from_In in Hin. cbn [snd fst] in *.
      apply List.in_app_or in Hin.
      destruct Hin as [Hin | Hin]; destruct (Hsaves _ _ Hin) as (Hc & Hrec);
        rewrite Hc in Hrec; apply Hrec; lia. }
    cbn [bind].
    eapply List.Forall_impl; [| apply (List.Forall_and Hlines Hall)].
    intros rec [[[Ho _] | [_ Hr]] [s Hs']]; [exact Ho | congruence].
  - cbn [bind]. split; [reflexivity |].
    apply List.Exists_exists in Hex. destruct Hex as (rec & Hin & Hr).
    apply List.Exists_exists. exists rec. split; [exact Hin |].
    rewrite List.Forall_forall in Hlines.
    destruct (Hlines _ Hin) as [[_ [s Hok]] | [Hno _]];
      [congruence | exact Hno].
Qed.

End SavingLoaded.

Lemma save_loaded_graph_witness :
  List.Forall one_slash (Graph.lines two_segments_graph).
Proof.
  exact (save_loaded_graph (fun _ => "") two_segments_file "GFA1" true
           two_segments_graph None eq_refl).
Defined.

(** ** Lines read and written back *)

Lemma count_char_app (c : ascii) (a b : string) :
  count_char c (a ++ b) = (count_char c a + count_char c b)%nat.
Proof.
  induction a as [| x a IH]; cbn [String.append count_char]; [reflexivity |].
  rewrite IH. lia.
Qed.

Lemma str_split_none (c : ascii) (s : string) :
  count_char c s = 0%nat -> str_split c s = [s].
Proof.
  induction s as [| a s IH]; cbn [count_char str_split]; [reflexivity |].
  destruct (Ascii.eqb a c); [discriminate |]. cbn [Nat.add]. intros H.
  now rewrite (IH H).
Qed.

Lemma str_split_app (c : ascii) (a b : string) :
  count_char c a = 0%nat ->
  str_split c (a ++ String c b) = a :: str_split c b.
Proof.
  induction a as [| x a IH]; cbn [count_char String.append].
  - intros _. cbn [str_split]. now rewrite Ascii.eqb_refl.
  - cbn [str_split]. destruct (Ascii.eqb x c); [discriminate |].
    cbn [Nat.add]. intros H. now rewrite (IH H).
Qed.

Lemma str_split_join (fields : list string) :
  fields <> [] ->
  List.Forall (fun s => count_char tab s = 0%nat) fields ->
  str_split tab (str_join TAB fields) = fields.
Proof.
  intros Hne H. induction H as [| s l Hs Hl IH]; [contradiction |].
  destruct l as [| s' l']; cbn [str_join].
  - now apply str_split_none.
  - unfold TAB at 1. cbn [String.append].
    rewrite (str_split_app tab s _ Hs). f_equal. apply IH. discriminate.
Qed.

Lemma str_join_cons (sep x y : string) (l : list string) :
  str_join sep (x :: y :: l) = x ++ sep ++ str_join sep (y :: l).
Proof. reflexivity. Qed.

Lemma str_join_split (c : ascii) (s : string) :
  str_join (String c "") (str_split c s) = s.
Proof.
  induction s as [| a s IH]; cbn [str_split]; [reflexivity |].
  destruct (str_split_nonempty c s) as (x & l & E). rewrite E in *.
  destruct (Ascii.eqb_spec a c) as [-> | Hne].
  - rewrite str_join_cons, IH. reflexivity.
  - destruct l as [| y l].
    + cbn [str_join] in *. now rewrite IH.
    + rewrite str_join_cons in *. rewrite <- IH. reflexivity.
Qed.

Lemma str_rstrip_line_end (s : string) :
  count_char newline s = 0%nat -> str_rstrip newline (s ++ NL) = s.
Proof.
  induction s as [| a s IH]; cbn [count_char String.append str_rstrip].
  - intros _. reflexivity.
  - destruct (Ascii.eqb a newline) eqn:E; [discriminate |].
    cbn [Nat.add]. intros H. rewrite (IH H).
    now destruct s.
Qed.

Lemma count_char_join (c : ascii) (fields : list string) :
  count_char c TAB = 0%nat ->
  List.Forall (fun s => count_char c s = 0%nat) fields ->
  count_char c (str_join TAB fields) = 0%nat.
Proof.
  intros Hc H. induction H as [| s l Hs Hl IH]; [reflexivity |].
  destruct l as [| s' l']; cbn [str_join]; [exact Hs |].
  rewrite !count_char_app, Hs, Hc. exact IH.
Qed.

(** The fields [Record.__init__] cuts out of a line are the fields the
    line was made of. *)
Lemma Record_init_fields (c : ascii) (k : string) (fields : list string)
  (gfa_type : string) (kw : kwargs) :
  Ascii.eqb c newline = false ->
  field_texts (String c k :: fields) ->
  Record_init (gfa_line_of (String c k :: fields)) gfa_type kw
  = (style <- GfaStyle_of gfa_type ;;
     d <- fst (LineType (String c "")) (String c k :: fields) style kw ;;
     Ok {| gfastyle := Some style;
           linetype := snd (LineType (String c ""));
           datas := d |}).
Proof.
  intros Hc Hf. unfold Record_init, gfa_line_of, str_strip.
  assert (E : exists rest,
             str_join TAB (String c k :: fields) = String c rest).
  { destruct fields; cbn [str_join String.append]; eauto. }
  destruct E as [rest E].
  assert (Hl : str_lstrip newline (str_join TAB (String c k :: fields) ++ NL)
               = str_join TAB (String c k :: fields) ++ NL).
  { rewrite E. cbn [String.append str_lstrip]. now rewrite Hc. }
  rewrite Hl, str_rstrip_line_end, str_split_join.
  - destruct (GfaStyle_of gfa_type) as [style |]; [| reflexivity].
    cbn [bind]. rewrite E. cbn [String.append].
    unfold str_getitem. cbn [chars list_ascii_of_string].
    replace (py_getitem (c :: list_ascii_of_string (rest ++ NL)) 0)
      with (Ok c) by reflexivity.
    cbn [bind]. now destruct (LineType (String c "")).
  - discriminate.
  - eapply List.Forall_impl; [| exact Hf]. now intros s [? _].
  - apply count_char_join; [reflexivity |].
    eapply List.Forall_impl; [| exact Hf]. now intros s [_ ?].
Qed.

Lemma sub_nondigits_id (s : string) : digits_only s -> sub_nondigits s = s.
Proof.
  unfold digits_only.
  induction s as [| c s IH]; cbn [sub_nondigits chars list_ascii_of_string];
    [reflexivity |].
  intros H. inversion H as [| ? ? Hc Hs]; subst. rewrite Hc.
  f_equal. now apply IH.
Qed.

Section LinesWrittenBack.

Variable float_repr : spec_float -> string.

(** An L-line with its overlap field, between segments named by digits and
    with orientation fields that hold no [/], loads under any style and is
    written back by [save_graph] character for character. *)
Theorem edge_line_round_trip (a oa b ob ov gfa_type : string)
  (style : GfaStyle) (kw : kwargs) :
  GfaStyle_of gfa_type = Ok style ->
  field_texts [a; oa; b; ob; ov] ->
  digits_only a -> digits_only b ->
  count_char "/" oa = 0%nat -> count_char "/" ob = 0%nat ->
  tag_match ov = false ->
  exists rec,
    Record_init (gfa_line_of ["L"; a; oa; b; ob; ov]) gfa_type kw = Ok rec
    /\ linetype rec = Line
    /\ Graph.line_text float_repr rec
       = Ok (gfa_line_of ["L"; a; oa; b; ob; ov]).
Proof.
  intros Hs Hf Ha Hb Hoa Hob Hov.
  rewrite Record_init_fields;
    [| reflexivity | constructor; [split; reflexivity | exact Hf]].
  rewrite Hs. cbn [bind LineType String.eqb Ascii.eqb Bool.eqb fst snd].
  unfold line.
  replace (py_getitem ["L"; a; oa; b; ob; ov] 1) with (Ok a) by reflexivity.
  replace (py_getitem ["L"; a; oa; b; ob; ov] 2) with (Ok oa) by reflexivity.
  replace (py_getitem ["L"; a; oa; b; ob; ov] 3) with (Ok b) by reflexivity.
  replace (py_getitem ["L"; a; oa; b; ob; ov] 4) with (Ok ob) by reflexivity.
  replace (supplementary_datas ["L"; a; oa; b; ob; ov] 5)
    with (Ok [("ARG5", PStr ov)]).
  2:{ unfold supplementary_datas.
      replace (py_slice ["L"; a; oa; b; ob; ov] (Some 5) None) with [ov]
        by reflexivity.
      cbn [List.length Z.of_nat]. cbn [extra_fields Z.ltb Z.compare
        Pos.of_succ_nat Pos.succ Pos.compare Pos.compare_cont].
      rewrite Hov. reflexivity. }
  cbn [bind]. rewrite (sub_nondigits_id a Ha), (sub_nondigits_id b Hb).
  eexists. split; [reflexivity |]. split; [reflexivity |].
  unfold Graph.line_text. cbn [datas].
  cbn [dict_set dict_merge List.fold_left fst snd String.eqb Ascii.eqb
       Bool.eqb dict_getitem dict_get bind val_split].
  assert (Hsplit : str_split "/" (oa ++ "/" ++ ob) = [oa; ob]).
  { cbn [String.append]. rewrite (str_split_app "/" oa ob Hoa).
    now rewrite (str_split_none "/" ob Hob). }
  rewrite Hsplit. unfold tags_text.
  cbn [List.filter fst List.existsb String.eqb Ascii.eqb Bool.eqb negb orb
       mapM tag_text str_startswith String.prefix bind py_str str_join].
  unfold gfa_line_of. cbn [str_join]. now rewrite !str_app_assoc.
Qed.

End LinesWrittenBack.

Lemma edge_line_round_trip_witness :
  exists rec,
    Record_init (gfa_line_of ["L"; "1"; "+"; "2"; "-"; "*"]) "GFA1"
      {| ws := Some true |} = Ok rec
    /\ linetype rec = Line
    /\ Graph.line_text (fun _ => "") rec
       = Ok (gfa_line_of ["L"; "1"; "+"; "2"; "-"; "*"]).
Proof.
  apply (edge_line_round_trip (fun _ => "") "1" "+" "2" "-" "*" "GFA1" GFA1);
    try reflexivity; repeat constructor.
Defined.

(** ** Paths and walks written back *)

Lemma text_app (a b : list ascii) : text (a ++ b) = text a ++ text b.
Proof.
  unfold text. induction a as [| x a IH];
    cbn [List.app string_of_list_ascii String.append]; [reflexivity |].
  now rewrite IH.
Qed.

Lemma py_getitem_last {A : Type} (l : list A) (x : A) :
  py_getitem l (-1) = Ok x -> exists init, l = (init ++ [x])%list.
Proof.
  unfold py_getitem. cbn [Z.ltb Z.compare].
  destruct (Z.of_nat (List.length l) + -1 <? 0) eqn:E; [discriminate |].
  destruct (List.nth_error l (Z.to_nat (Z.of_nat (List.length l) + -1)))
    as [y |] eqn:En; [| discriminate].
  intros [= ->]. apply List.nth_error_split in En.
  destruct En as (l1 & l2 & -> & Hlen). exists l1.
  rewrite List.length_app in Hlen. cbn [List.length] in Hlen.
  destruct l2; [reflexivity | cbn [List.length] in Hlen; lia].
Qed.

Lemma Orientation_of_value (s : string) (o : Orientation) :
  Orientation_of s = Ok o -> s = Orientation_value o.
Proof.
  unfold Orientation_of.
  destruct (String.eqb_spec s "+") as [-> | _]; [now intros [= <-] |].
  destruct (String.eqb_spec s "-") as [-> | _]; [now intros [= <-] |].
  discriminate.
Qed.

(** A step of a P-line is its name followed by its sign. *)
Lemma path_node_written (node : string) (no : string * Orientation) :
  path_node node = Ok no -> fst no ++ Orientation_value (snd no) = node.
Proof.
  unfold path_node, str_getitem, str_slice. intros H.
  apply bind_Ok_inv in H as (last & Hl & H).
  apply bind_Ok_inv in Hl as (c & Hc & [= <-]).
  apply bind_Ok_inv in H as (o & Ho & [= <-]). cbn [fst snd].
  apply py_getitem_last in Hc. destruct Hc as [init Hc].
  rewrite Hc, py_slice_drop_last. apply Orientation_of_value in Ho.
  rewrite <- Ho. rewrite <- (text_chars node), Hc, text_app. reflexivity.
Qed.

Lemma mapM_map_back {A B : Type} (f : A -> res B) (g : B -> A) (l : list A)
  (l' : list B) :
  mapM f l = Ok l' -> (forall x y, f x = Ok y -> g y = x) ->
  List.map g l' = l.
Proof.
  intros H Hf. revert l' H. induction l as [| x l IH]; intros l' H.
  - now injection H as <-.
  - rewrite mapM_cons in H. apply bind_Ok_inv in H as (y & Hy & H).
    apply bind_Ok_inv in H as (ys & Hys & H). injection H as <-.
    cbn [List.map]. now rewrite (Hf _ _ Hy), (IH _ Hys).
Qed.

(** The two replacements [walk] makes in the steps of a W-line. *)
Lemma walk_steps_replace (a : ascii) (r : string) :
  str_replace "<" ",-" (str_replace ">" ",+" (String a r))
  = if Ascii.eqb a ">" then
      String "," (String "+"
        (str_replace "<" ",-" (str_replace ">" ",+" r)))
    else if Ascii.eqb a "<" then
      String "," (String "-"
        (str_replace "<" ",-" (str_replace ">" ",+" r)))
    else String a (str_replace "<" ",-" (str_replace ">" ",+" r)).
Proof.
  cbn [str_replace].
  destruct (Ascii.eqb_spec a ">") as [-> | H1]; [reflexivity |].
  cbn [str_replace]. now destruct (Ascii.eqb a "<").
Qed.

Lemma walk_node_cons (sg : ascii) (cur : string) (o : Orientation) :
  Orientation_of (String sg "") = Ok o ->
  walk_node (String sg cur) = Ok (cur, o).
Proof.
  intros Ho. unfold walk_node, str_getitem, str_slice.
  cbn [chars list_ascii_of_string].
  replace (py_getitem (sg :: list_ascii_of_string cur) 0) with (Ok sg)
    by reflexivity.
  cbn [bind]. rewrite Ho. cbn [bind].
  rewrite (py_slice_from (sg :: list_ascii_of_string cur) 1) by lia.
  change (List.skipn (Z.to_nat 1) (sg :: list_ascii_of_string cur))
    with (chars cur).
  now rewrite text_chars.
Qed.

Lemma walk_steps_written (rest : string) :
  forall (cur : string) (sg : ascii) (o : Orientation),
    Orientation_of (String sg "") = Ok o ->
    count_char "," rest = 0%nat -> count_char "," cur = 0%nat ->
    exists nodes,
      mapM walk_node
        (str_split ","
           (String sg
              (cur ++ str_replace "<" ",-" (str_replace ">" ",+" rest))))
      = Ok nodes
      /\ str_join ""
           (List.map (fun no => match snd no with
                                | FORWARD => ">"
                                | REVERSE => "<"
                                end ++ fst no) nodes)
         = match o with FORWARD => ">" | REVERSE => "<" end ++ cur ++ rest.
Proof.
  induction rest as [| a r IH]; intros cur sg o Ho Hr Hc.
  - cbn [str_replace]. assert (Hsg : Ascii.eqb sg "," = false).
    { apply Orientation_of_value in Ho.
      destruct o; injection Ho as ->; reflexivity. }
    assert (E : (cur ++ "")%string = cur).
    { clear. induction cur as [| x c IH]; cbn [String.append];
        [reflexivity | now rewrite IH]. }
    rewrite E, str_split_none by (cbn [count_char]; now rewrite Hsg).
    exists [(cur, o)]. split; [| cbn; now destruct o].
    cbn [mapM]. now rewrite (walk_node_cons sg cur o Ho).
  - rewrite walk_steps_replace. cbn [count_char] in Hr.
    destruct (Ascii.eqb a ",") eqn:Ea; [discriminate |]. cbn [Nat.add] in Hr.
    assert (Hsg : Ascii.eqb sg "," = false).
    { apply Orientation_of_value in Ho.
      destruct o; injection Ho as ->; reflexivity. }
    assert (Hstep : forall sg' o',
               Orientation_of (String sg' "") = Ok o' ->
               exists nodes,
                 mapM walk_node
                   (str_split ","
                      (String sg
                         (cur ++ String ","
                            (String sg'
                               (str_replace "<" ",-"
                                  (str_replace ">" ",+" r))))))
                 = Ok nodes
                 /\ str_join ""
                      (List.map (fun no => match snd no with
                                           | FORWARD => ">"
                                           | REVERSE => "<"
                                           end ++ fst no) nodes)
                    = match o with FORWARD => ">" | REVERSE => "<" end
                      ++ cur
                      ++ match o' with FORWARD => ">" | REVERSE => "<" end
                      ++ r).
    { intros sg' o' Ho'.
      destruct (IH "" sg' o' Ho' Hr eq_refl) as (nodes & Hn & Hw).
      cbn [String.append] in Hn, Hw.
      change (String sg (cur ++ String "," ?t))
        with (String sg cur ++ String "," t).
      rewrite str_split_app by (cbn [count_char]; now rewrite Hsg).
      rewrite mapM_cons, Hn. exists ((cur, o) :: nodes).
      rewrite (walk_node_cons sg cur o Ho). cbn [bind].
      split; [reflexivity |].
      destruct nodes as [| n0 nodes'].
      { cbn in Hw. destruct o'; discriminate. }
      cbn [List.map fst snd] in Hw |- *. rewrite str_join_cons, Hw.
      cbn [String.append]. rewrite !str_app_assoc. reflexivity. }
    destruct (Ascii.eqb_spec a ">") as [-> | H1].
    { destruct (Hstep "+"%char FORWARD eq_refl) as (nodes & Hn & Hw).
      exists nodes. split; [exact Hn |]. rewrite Hw. reflexivity. }
    destruct (Ascii.eqb_spec a "<") as [-> | H2].
    { destruct (Hstep "-"%char REVERSE eq_refl) as (nodes & Hn & Hw).
      exists nodes. split; [exact Hn |]. rewrite Hw. reflexivity. }
    destruct (IH (cur ++ String a "") sg o Ho Hr) as (nodes & Hn & Hw).
    { rewrite count_char_app. cbn [count_char]. rewrite Ea, Hc. reflexivity. }
    rewrite str_app_assoc in Hn, Hw. cbn [String.append] in Hn, Hw.
    exists nodes. split; [exact Hn | exact Hw].
Qed.
Section PathsWrittenBack.

Variable float_repr : spec_float -> string.

(** A P-line that loads is written back under GFA1 with its name and its
    steps character for character; the overlap field and any tag are
    replaced by one [*], and no line end is written. *)
Theorem path_line_written_back (name steps gfa_type : string)
  (rest : list string) (kw : kwargs) (rec : GfaRecord) (line_number : Z) :
  field_texts (name :: steps :: rest) ->
  Record_init (gfa_line_of ("P" :: name :: steps :: rest)) gfa_type kw
  = Ok rec ->
  linetype rec = Path
  /\ write_path float_repr rec GFA1 line_number
     = Ok (str_join TAB ["P"; name; steps; "*"]).
Proof.
  intros Hf H. rewrite Record_init_fields in H;
    [| reflexivity | constructor; [split; reflexivity | exact Hf]].
  apply bind_Ok_inv in H as (style & _ & H).
  cbn [LineType String.eqb Ascii.eqb Bool.eqb fst snd] in H.
  apply bind_Ok_inv in H as (d & Hd & H). injection H as <-.
  split; [reflexivity |]. unfold path in Hd.
  destruct (GfaStyle_eqb style RGFA); [discriminate |].
  replace (py_getitem ("P" :: name :: steps :: rest) 1) with (Ok name) in Hd
    by reflexivity.
  replace (py_getitem ("P" :: name :: steps :: rest) 2) with (Ok steps) in Hd
    by reflexivity.
  cbn [bind] in Hd.
  apply bind_Ok_inv in Hd as (nodes & Hn & Hd).
  apply bind_Ok_inv in Hd as (extra & He & Hd). injection Hd as <-.
  unfold write_path, dict_getitem.
  change (GfaStyle_eqb GFA1 GFA1) with true. cbn [datas].
  rewrite !(dict_get_merge_field _ _ _ _ _ He) by (cbn; congruence).
  cbn [dict_set dict_get String.eqb Ascii.eqb Bool.eqb bind val_path py_str].
  apply (mapM_map_back path_node
           (fun no => fst no ++ Orientation_value (snd no))) in Hn;
    [| exact path_node_written].
  replace (List.map (fun no => fst no ++ match snd no with
                                         | FORWARD => "+"
                                         | REVERSE => "-"
                                         end) nodes)
    with (List.map (fun no => fst no ++ Orientation_value (snd no)) nodes)
    by reflexivity.
  rewrite Hn. change "," with (String "," "") at 1.
  now rewrite str_join_split.
Qed.

(** A W-line without tags whose steps start with [>] or [<] and hold no
    comma loads under a style that has walks, and is written back with
    the same steps; the haplotype index is written as the integer it was
    read as, the sequence identifier is replaced by the sample name, and
    a field [*] is added. *)
Theorem walk_line_written_back (name hap id st en w gfa_type : string)
  (c : ascii) (origin : Z) (style gfa_format : GfaStyle) (kw : kwargs)
  (line_number : Z) :
  GfaStyle_of gfa_type = Ok style ->
  (2 <= style_rank style)%nat ->
  gfa_format = GFA1_1 \/ gfa_format = GFA1_2 \/ gfa_format = GFA2 ->
  field_texts [name; hap; id; st; en; String c w] ->
  py_int hap = Ok origin ->
  c = ">"%char \/ c = "<"%char ->
  count_char "," w = 0%nat ->
  exists rec,
    Record_init (gfa_line_of ["W"; name; hap; id; st; en; String c w])
      gfa_type kw = Ok rec
    /\ linetype rec = Walk
    /\ write_path float_repr rec gfa_format line_number
       = Ok (gfa_line_of
               ["W"; name; int_text origin; name; st; en; String c w; "*"]).
Proof.
  intros Hs Hrank Hfmt Hf Hint Hc Hw.
  rewrite Record_init_fields;
    [| reflexivity | constructor; [split; reflexivity | exact Hf]].
  rewrite Hs. cbn [bind LineType String.eqb Ascii.eqb Bool.eqb fst snd].
  unfold walk.
  assert (Hst : GfaStyle_eqb style RGFA || GfaStyle_eqb style GFA1 = false).
  { destruct style; cbn in Hrank; try lia; reflexivity. }
  rewrite Hst.
  replace (py_getitem ["W"; name; hap; id; st; en; String c w] 3)
    with (Ok id) by reflexivity.
  replace (py_getitem ["W"; name; hap; id; st; en; String c w] 2)
    with (Ok hap) by reflexivity.
  replace (py_getitem ["W"; name; hap; id; st; en; String c w] 1)
    with (Ok name) by reflexivity.
  replace (py_getitem ["W"; name; hap; id; st; en; String c w] 4)
    with (Ok st) by reflexivity.
  replace (py_getitem ["W"; name; hap; id; st; en; String c w] 5)
    with (Ok en) by reflexivity.
  replace (py_getitem ["W"; name; hap; id; st; en; String c w] 6)
    with (Ok (String c w)) by reflexivity.
  replace (supplementary_datas ["W"; name; hap; id; st; en; String c w] 7)
    with (Ok (@nil (string * PyVal))) by reflexivity.
  cbn [bind]. rewrite Hint. cbn [bind].
  assert (Hsteps : exists sg o,
             Orientation_of (String sg "") = Ok o
             /\ String c "" = match o with FORWARD => ">" | REVERSE => "<" end
             /\ str_slice
                  (str_replace "<" ",-" (str_replace ">" ",+" (String c w)))
                  (Some 1) None
                = String sg
                    (str_replace "<" ",-" (str_replace ">" ",+" w))).
  { destruct Hc as [-> | ->].
    - exists "+"%char, FORWARD. repeat split. rewrite walk_steps_replace.
      cbn [Ascii.eqb Bool.eqb]. unfold str_slice.
      rewrite py_slice_from by lia. cbn [chars list_ascii_of_string].
      change (List.skipn (Z.to_nat 1) ("," :: ?l)%char) with l.
      cbn [text string_of_list_ascii]. fold (text).
      now rewrite string_of_list_ascii_of_string.
    - exists "-"%char, REVERSE. repeat split. rewrite walk_steps_replace.
      cbn [Ascii.eqb Bool.eqb]. unfold str_slice.
      rewrite py_slice_from by lia. cbn [chars list_ascii_of_string].
      change (List.skipn (Z.to_nat 1) ("," :: ?l)%char) with l.
      cbn [text string_of_list_ascii].
      now rewrite string_of_list_ascii_of_string. }
  destruct Hsteps as (sg & o & Ho & Harrow & ->).
  destruct (walk_steps_written w "" sg o Ho Hw eq_refl) as (nodes & Hn & Hwr).
  cbn [String.append] in Hn, Hwr. rewrite Hn. cbn [bind].
  eexists. split; [reflexivity |]. split; [reflexivity |].
  unfold write_path, dict_getitem. cbn [datas].
  assert (Hfmt1 : GfaStyle_eqb gfa_format GFA1 = false)
    by (destruct Hfmt as [-> | [-> | ->]]; reflexivity).
  assert (Hfmt2 : GfaStyle_eqb gfa_format GFA1_1
                  || GfaStyle_eqb gfa_format GFA1_2
                  || GfaStyle_eqb gfa_format GFA2 = true)
    by (destruct Hfmt as [-> | [-> | ->]]; reflexivity).
  rewrite Hfmt1, Hfmt2.
  cbn [dict_merge List.fold_left dict_set dict_get String.eqb Ascii.eqb
       Bool.eqb bind val_path].
  unfold format_value. cbn [str_ok bind py_str py_repr].
  rewrite (py_int_str_ok _ _ Hint). cbn [bind].
  rewrite Hwr, <- Harrow. unfold gfa_line_of. cbn [str_join String.append].
  repeat (rewrite str_app_assoc; cbn [String.append]). reflexivity.
Qed.

(** An S-line without tags loads under any style and is written back with
    its name stripped of what is no digit, with its sequence, or as many
    [N] when the sequences were not kept, and with one more tab before the
    line end. *)
Theorem segment_line_written_back (name sq gfa_type : string)
  (style : GfaStyle) (with_seq : bool) :
  GfaStyle_of gfa_type = Ok style ->
  field_texts [name; sq] ->
  exists rec,
    Record_init (gfa_line_of ["S"; name; sq]) gfa_type
      {| ws := Some with_seq |} = Ok rec
    /\ linetype rec = Segment
    /\ Graph.segment_text float_repr rec
       = Ok (gfa_line_of
               ["S"; sub_nondigits name;
                if with_seq then sq else str_repeat "N" (str_len sq); ""]).
Proof.
  intros Hs Hf.
  rewrite Record_init_fields;
    [| reflexivity | constructor; [split; reflexivity | exact Hf]].
  rewrite Hs. cbn [bind LineType String.eqb Ascii.eqb Bool.eqb fst snd].
  unfold segment, kwargs_ws. cbn [ws].
  replace (py_getitem ["S"; name; sq] 1) with (Ok name) by reflexivity.
  replace (py_getitem ["S"; name; sq] 2) with (Ok sq) by reflexivity.
  replace (supplementary_datas ["S"; name; sq] 3)
    with (Ok (@nil (string * PyVal))) by reflexivity.
  cbn [bind].
  destruct with_seq; cbn [bind]; (eexists; split; [reflexivity |]);
    (split; [reflexivity |]);
    unfold Graph.segment_text, dict_getitem, dict_contains, tags_text;
    cbn [datas dict_merge List.fold_left dict_set dict_get String.eqb
         Ascii.eqb Bool.eqb bind repeat_N py_str List.filter fst snd
         List.existsb negb orb mapM str_join];
    unfold gfa_line_of; cbn [str_join String.append];
    now rewrite !str_app_assoc.
Qed.

End PathsWrittenBack.

Lemma path_line_written_back_witness :
  exists rec,
    Record_init (gfa_line_of ["P"; "x"; "1+,2-"; "4M"]) "GFA1"
      {| ws := Some true |} = Ok rec
    /\ linetype rec = Path
    /\ write_path (fun _ => "") rec GFA1 0
       = Ok (str_join TAB ["P"; "x"; "1+,2-"; "*"]).
Proof.
  eexists. split; [reflexivity |].
  apply (path_line_written_back (fun _ => "") "x" "1+,2-" "GFA1" ["4M"]
           {| ws := Some true |}).
  - repeat constructor.
  - reflexivity.
Defined.

Lemma walk_line_written_back_witness :
  exists rec,
    Record_init (gfa_line_of ["W"; "s"; "01"; "chr"; "0"; "8"; ">1<2"])
      "GFA1.1" {| ws := Some true |} = Ok rec
    /\ linetype rec = Walk
    /\ write_path (fun _ => "") rec GFA1_1 0
       = Ok (gfa_line_of ["W"; "s"; int_text 1; "s"; "0"; "8"; ">1<2"; "*"]).
Proof.
  apply (walk_line_written_back (fun _ => "") "s" "01" "chr" "0" "8" "1<2"
           "GFA1.1" ">"%char 1 GFA1_1 GFA1_1 {| ws := Some true |} 0);
    try reflexivity.
  - now left.
  - repeat constructor.
  - now left.
Defined.

Lemma segment_line_written_back_witness :
  exists rec,
    Record_init (gfa_line_of ["S"; "s1"; "ACGT"]) "GFA1"
      {| ws := Some false |} = Ok rec
    /\ linetype rec = Segment
    /\ Graph.segment_text (fun _ => "") rec
       = Ok (gfa_line_of ["S"; sub_nondigits "s1"; str_repeat "N" (str_len "ACGT"); ""]).
Proof.
  apply (segment_line_written_back (fun _ => "") "s1" "ACGT" "GFA1" GFA1
           false).
  - reflexivity.
  - repeat constructor.
Defined.

(** ** Merging two segments *)

Lemma same_names_refl (g : Graph.t) : same_names g g.
Proof. now split. Qed.

Lemma same_names_trans (g1 g2 g3 : Graph.t) :
  same_names g1 g2 -> same_names g2 g3 -> same_names g1 g3.
Proof. intros [H1 H2] [H3 H4]. split; congruence. Qed.

Lemma stable_same {A : Type} (c : Graph.M A) :
  (forall g, snd (c g) = g) -> stable c.
Proof. intros H g. rewrite H. apply same_names_refl. Qed.

Lemma stable_bind {A B : Type} (c : Graph.M A) (k : A -> Graph.M B) :
  stable c -> (forall a, stable (k a)) -> stable (Graph.bindM c k).
Proof.
  intros Hc Hk g. unfold Graph.bindM. specialize (Hc g).
  destruct (c g) as [[a | e] g1]; cbn [snd] in *; [| exact Hc].
  eapply same_names_trans; [apply Hk | exact Hc].
Qed.

Lemma stable_for_each {A : Type} (l : list A) (body : A -> Graph.M unit) :
  (forall x, stable (body x)) -> stable (Graph.for_each l body).
Proof.
  intros Hb. induction l as [| x l IH]; cbn [Graph.for_each].
  - now apply stable_same.
  - apply stable_bind; [apply Hb | intros _; exact IH].
Qed.

Lemma length_list_update {A : Type} (l : list A) (i : nat) (x : A) :
  List.length (Graph.list_update l i x) = List.length l.
Proof.
  revert i; induction l as [| y l IH]; intros [| i];
    cbn [Graph.list_update List.length]; try reflexivity.
  now rewrite IH.
Qed.

Lemma map_list_update {A B : Type} (f : A -> B) (l : list A) (i : nat)
  (x y : A) :
  List.nth_error l i = Some y -> f x = f y ->
  List.map f (Graph.list_update l i x) = List.map f l.
Proof.
  revert i; induction l as [| z l IH]; intros [| i] Hy Hf;
    cbn [Graph.list_update List.map List.nth_error] in *; try discriminate.
  - injection Hy as ->. now rewrite Hf.
  - now rewrite (IH i Hy Hf).
Qed.

Lemma stable_set_line_field (i : nat) (k : string) (v : PyVal) :
  stable (Graph.set_line_field i k v).
Proof.
  intros g. unfold Graph.set_line_field.
  destruct (List.nth_error (Graph.lines g) i); [| apply same_names_refl].
  split; [reflexivity |]. cbn. apply length_list_update.
Qed.

Lemma stable_set_segment_field (i : nat) (k : string) (v : PyVal) :
  k <> "name" -> stable (Graph.set_segment_field i k v).
Proof.
  intros Hk g. unfold Graph.set_segment_field.
  destruct (List.nth_error (Graph.segments g) i) as [seg |] eqn:E;
    [| apply same_names_refl].
  split; [| reflexivity]. cbn [snd Graph.segments Graph.set_segments].
  apply (map_list_update record_name _ _ _ seg E).
  unfold record_name. cbn [datas set_datas].
  apply dict_get_set_other. congruence.
Qed.

Lemma stable_each_path (f : GfaRecord -> res GfaRecord) :
  stable (Graph.each_path f).
Proof.
  intros g. unfold Graph.each_path.
  destruct (Graph.each_record f (Graph.paths g)) as [[[] | e] ps];
    [| now split].
  destruct (Graph.each_record f (Graph.walks (Graph.set_paths g ps)));
    now split.
Qed.

Lemma enumerate_from_snd {A : Type} (l : list A) (i : nat) :
  List.map snd (enumerate_from i l) = l.
Proof.
  revert i; induction l as [| x l IH]; intros i; cbn; [reflexivity |].
  now rewrite IH.
Qed.

Lemma keep_positions_nil {A : Type} (l : list A) :
  Graph.keep_positions [] l = l.
Proof.
  unfold Graph.keep_positions, Graph.not_in, enumerate. cbn [List.existsb negb].
  generalize 0%nat. induction l as [| x l IH]; intros n;
    cbn [enumerate_from List.filter List.map snd]; [reflexivity |].
  now rewrite IH.
Qed.

(** [sorted] on two names: the one with the smaller key first, the first
    one when the keys are equal. *)
Lemma sorted_by_int_pair (a b : string) (ordered : list string) :
  Graph.sorted_by_int [a; b] = Ok ordered ->
  exists ka kb,
    py_int a = Ok ka /\ py_int b = Ok kb
    /\ ordered = if ka <=? kb then [a; b] else [b; a].
Proof.
  unfold Graph.sorted_by_int. intros H.
  apply bind_Ok_inv in H as (keys & Hk & H). injection H as <-.
  rewrite mapM_cons in Hk. apply bind_Ok_inv in Hk as (ka & Ha & Hk).
  apply bind_Ok_inv in Hk as (ks & Hks & Hk). injection Hk as <-.
  rewrite mapM_cons in Hks. apply bind_Ok_inv in Hks as (kb & Hb & Hks).
  apply bind_Ok_inv in Hks as (ks' & Hks' & Hks). injection Hks as <-.
  injection Hks' as <-. exists ka, kb. split; [exact Ha | split; [exact Hb |]].
  cbn [List.combine List.fold_right Graph.insert_by_key fst].
  now destruct (ka <=? kb).
Qed.

Lemma find_position_found (node : string) (l : list GfaRecord) :
  forall i0 i,
    Graph.find_position (Graph.name_is node) i0 l = Ok (Some i) ->
    exists k rec,
      i = (i0 + k)%nat /\ List.nth_error l k = Some rec
      /\ record_name rec = Some (PStr node).
Proof.
  induction l as [| rec l IH]; intros i0 i H; cbn [Graph.find_position] in H;
    [discriminate |].
  apply bind_Ok_inv in H as (b & Hb & H).
  unfold Graph.name_is in Hb. apply bind_Ok_inv in Hb as (v & Hv & Hb).
  injection Hb as <-. apply dict_getitem_Ok in Hv.
  destruct (val_eq_str v node) eqn:E.
  - injection H as <-. apply val_eq_str_true in E. subst v.
    exists 0%nat, rec. rewrite Nat.add_0_r. now repeat split.
  - destruct (IH _ _ H) as (k & rec' & -> & Hk & Hn).
    exists (S k), rec'. rewrite Nat.add_succ_r. now repeat split.
Qed.

Lemma find_position_names (node : string) (l l' : list GfaRecord) :
  List.map record_name l = List.map record_name l' ->
  forall i0,
    Graph.find_position (Graph.name_is node) i0 l
    = Graph.find_position (Graph.name_is node) i0 l'.
Proof.
  revert l'. induction l as [| rec l IH]; intros [| rec' l'] H i0;
    try discriminate; [reflexivity |].
  cbn [List.map] in H. injection H as Hn Hl.
  cbn [Graph.find_position]. unfold Graph.name_is at 1 3, dict_getitem.
  unfold record_name in Hn. rewrite Hn.
  destruct (dict_get (datas rec') "name"); cbn [bind]; [| reflexivity].
  now rewrite (IH _ Hl).
Qed.

(** Merging two segments removes neither of them: when the call returns,
    every look-up of a segment by name gives what it gave before, the graph
    has as many edges as before, and the name returned is the one of the
    two whose integer value is smaller (the first when they are equal). *)
Theorem merge_pair_keeps_both (a b name : string) (g g' : Graph.t) :
  Graph.merge_segments [a; b] g = (Ok name, g') ->
  (forall node,
      Graph.get_segment_position g' node = Graph.get_segment_position g node)
  /\ List.length (Graph.segments g') = List.length (Graph.segments g)
  /\ List.length (Graph.lines g') = List.length (Graph.lines g)
  /\ exists ka kb,
       py_int a = Ok ka /\ py_int b = Ok kb
       /\ name = if ka <=? kb then a else b.
Proof.
  intros H. unfold Graph.merge_segments in H.
  apply bindM_Ok_inv in H as (ordered & g1 & H1 & H).
  apply lift_Ok_inv in H1 as [Hord ->].
  apply sorted_by_int_pair in Hord. destruct Hord as (ka & kb & Ha & Hb & Hord).
  apply bindM_Ok_inv in H as (positions & g1 & H1 & H).
  apply read_Ok_inv in H1 as [Hpos ->].
  assert (Hpair : exists x y p0 p1,
             ordered = [x; y] /\ positions = [p0; p1]
             /\ x = (if ka <=? kb then a else b)
             /\ Graph.get_segment_position g x = Ok p0).
  { destruct (ka <=? kb); subst ordered;
      rewrite mapM_cons in Hpos;
      apply bind_Ok_inv in Hpos as (p0 & Hp0 & Hpos);
      apply bind_Ok_inv in Hpos as (ps & Hps & Hpos); injection Hpos as <-;
      rewrite mapM_cons in Hps;
      apply bind_Ok_inv in Hps as (p1 & Hp1 & Hps);
      apply bind_Ok_inv in Hps as (ps' & Hps' & Hps); injection Hps as <-;
      injection Hps' as <-; eauto 10. }
  destruct Hpair as (x & y & p0 & p1 & -> & -> & Hx & Hp0). clear Hpos.
  apply bindM_Ok_inv in H as (left_most & g1 & H1 & H).
  apply lift_Ok_inv in H1 as [Hleft ->]. injection Hleft as <-.
  apply bindM_Ok_inv in H as (right_most & g1 & H1 & H).
  apply lift_Ok_inv in H1 as [Hright ->]. injection Hright as <-.
  apply bindM_Ok_inv in H as (old & g1 & H1 & H).
  apply bindM_Ok_inv in H1 as (segL & g2 & Hseg & Hold).
  apply read_Ok_inv in Hseg as [Hseg ->].
  apply lift_Ok_inv in Hold as [Hold ->].
  apply bindM_Ok_inv in H as (lengths & g1 & H1 & H).
  apply read_Ok_inv in H1 as [Hlengths ->].
  apply bindM_Ok_inv in H as (total & g1 & H1 & H).
  apply lift_Ok_inv in H1 as [Htotal ->].
  apply bindM_Ok_inv in H as (u & g1 & Hset & H).
  assert (S1 : same_names g1 g).
  { pose proof (stable_set_segment_field p0 "length" total
                  ltac:(discriminate) g) as S.
    now rewrite Hset in S. }
  apply bindM_Ok_inv in H as (seg' & g2 & Hseg' & H).
  apply read_Ok_inv in Hseg' as [Hseg' ->].
  apply bindM_Ok_inv in H as (u2 & g3 & Hif & H).
  assert (S3 : same_names g3 g1).
  { destruct (dict_contains (datas seg') "seq").
    - apply bindM_Ok_inv in Hif as (seqs & g2 & Hseqs & Hif).
      apply read_Ok_inv in Hseqs as [Hseqs ->].
      apply bindM_Ok_inv in Hif as (joined & g2 & Hj & Hif).
      apply lift_Ok_inv in Hj as [Hj ->].
      pose proof (stable_set_segment_field p0 "seq" (PStr joined)
                    ltac:(discriminate) g1) as S.
      now rewrite Hif in S.
    - injection Hif as _ <-. apply same_names_refl. }
  apply bindM_Ok_inv in H as (right_most_name & g2 & H1 & H).
  apply read_Ok_inv in H1 as [Hrn ->].
  apply bindM_Ok_inv in H as (edges_to_edit & g2 & H1 & H).
  apply read_Ok_inv in H1 as [Hee ->].
  apply bindM_Ok_inv in H as (left_most_name & g2 & H1 & H).
  apply read_Ok_inv in H1 as [Hln ->].
  apply bindM_Ok_inv in H as (u3 & g4 & Hfor & H).
  assert (S4 : same_names g4 g3).
  { match type of Hfor with
    | ?c g3 = _ => assert (K : stable c)
    end.
    { apply stable_for_each. intros edge_pos.
      apply stable_bind; [now apply stable_same |]. intros edge.
      apply stable_bind; [now apply stable_same |]. intros st.
      destruct (val_eq_str st right_most_name); apply stable_set_line_field. }
    specialize (K g3). now rewrite Hfor in K. }
  apply bindM_Ok_inv in H as (edges_to_delete & g2 & H1 & H).
  apply read_Ok_inv in H1 as [Hed ->].
  replace (py_slice [p0; p1] (Some 1) (Some (-1))) with (@nil nat) in *
    by reflexivity.
  cbn [mapM bind List.concat] in Hed. injection Hed as <-.
  apply bindM_Ok_inv in H as (u4 & g5 & Hpaths & H).
  assert (S5 : same_names g5 g4).
  { pose proof (stable_each_path
                  (Graph.on_path
                     (fun p => Ok (Graph.merge_path left_most_name
                                     right_most_name p))) g4) as S.
    now rewrite Hpaths in S. }
  apply bindM_Ok_inv in H as (u5 & g6 & Hfinal & H).
  injection Hfinal as _ <-. injection H as <- <-.
  rewrite !keep_positions_nil.
  assert (S : same_names g5 g).
  { eapply same_names_trans; [exact S5 |].
    eapply same_names_trans; [exact S4 |].
    eapply same_names_trans; [exact S3 | exact S1]. }
  destruct S as [Sn Sl].
  cbn [Graph.segments Graph.lines Graph.set_lines Graph.set_segments].
  split; [| split; [| split]].
  - intros node. unfold Graph.get_segment_position.
    cbn [Graph.segments Graph.set_lines Graph.set_segments].
    now rewrite (find_position_names node _ _ Sn).
  - rewrite <- (List.length_map record_name (Graph.segments g5)), Sn.
    apply List.length_map.
  - exact Sl.
  - exists ka, kb. split; [exact Ha | split; [exact Hb |]].
    rewrite <- Hx.
    unfold Graph.get_segment_position in Hp0.
    apply bind_Ok_inv in Hp0 as (r & Hr & Hp0).
    destruct r as [i |]; [| discriminate]. injection Hp0 as ->.
    apply find_position_found in Hr.
    destruct Hr as (k & rec & -> & Hk & Hn). cbn [Nat.add] in *.
    unfold Graph.segment_name_at in Hln.
    apply bind_Ok_inv in Hln as (seg3 & Hseg3 & Hln).
    apply bind_Ok_inv in Hln as (v & Hv & Hln).
    apply record_at_Ok in Hseg3. apply dict_getitem_Ok in Hv.
    assert (Sn3 : List.map record_name (Graph.segments g3)
                  = List.map record_name (Graph.segments g)).
    { destruct S3 as [E3 _]. destruct S1 as [E1 _]. congruence. }
    assert (E : record_name seg3 = record_name rec).
    { apply (List.map_nth_error record_name) in Hseg3, Hk.
      rewrite Sn3, Hk in Hseg3. now injection Hseg3. }
    unfold record_name in E at 1. rewrite Hv, Hn in E. injection E as ->.
    now injection Hln.
Qed.

(** Merging [3] and [1] in [three_segments_graph]: the three segments
    are still there. *)
Lemma merge_pair_keeps_both_witness :
  exists g',
    Graph.merge_segments ["3"; "1"] three_segments_graph = (Ok "1", g')
    /\ List.length (Graph.segments g') = 3%nat
    /\ Graph.get_segment_position g' "3" = Ok 2%nat.
Proof.
  eexists. split; [reflexivity |].
  pose proof (merge_pair_keeps_both "3" "1" "1" three_segments_graph _
                eq_refl) as (Hpos & Hlen & _).
  split; [exact Hlen | exact (Hpos "3")].
Defined.

(** ** Edges and their positions *)

Lemma filterM_enumerate {A : Type} (p : A -> res bool) (l : list A) :
  forall i,
    match Graph.filterM (fun ie => p (snd ie)) (enumerate_from i l) with
    | Ok r =>
        Graph.filterM p l = Ok (List.map snd r)
        /\ List.Forall
             (fun ie => (i <= fst ie)%nat
                        /\ List.nth_error l (fst ie - i) = Some (snd ie)) r
    | Raise e => Graph.filterM p l = Raise e
    end.
Proof.
  induction l as [| x l IH]; intros i;
    cbn [enumerate_from Graph.filterM snd]; [now split |].
  destruct (p x) as [b | e]; cbn [bind]; [| reflexivity].
  specialize (IH (S i)).
  destruct (Graph.filterM _ (enumerate_from (S i) l)) as [r | e];
    cbn [bind]; [| now rewrite IH].
  destruct IH as [-> Hr]. cbn [bind].
  assert (Hr' : List.Forall
                  (fun ie => (i <= fst ie)%nat
                             /\ List.nth_error (x :: l) (fst ie - i)
                                = Some (snd ie)) r).
  { eapply List.Forall_impl; [| exact Hr]. intros [j y] [Hj Hy].
    cbn [fst snd] in *. split; [lia |].
    replace (j - i)%nat with (S (j - S i)) by lia. exact Hy. }
  destruct b; cbn [List.map snd]; split; try reflexivity; try exact Hr'.
  constructor; [| exact Hr']. cbn [fst snd]. split; [lia |].
  now rewrite Nat.sub_diag.
Qed.

(** [get_edges_positions] and [get_edges] agree: when one returns so does
    the other, the positions are those of the records, in the same order,
    and when one raises the other raises the same exception. *)
Theorem get_edges_positions_agree (g : Graph.t) (node : string) :
  match Graph.get_edges_positions g node with
  | Ok ps =>
      exists es,
        Graph.get_edges g node = Ok es
        /\ List.map (List.nth_error (Graph.lines g)) ps = List.map Some es
  | Raise e => Graph.get_edges g node = Raise e
  end.
Proof.
  unfold Graph.get_edges_positions, Graph.get_edges, enumerate.
  pose proof (filterM_enumerate (Graph.touches node) (Graph.lines g) 0) as H.
  destruct (Graph.filterM _ (enumerate_from 0 (Graph.lines g))) as [r | e];
    cbn [bind]; [| exact H].
  destruct H as [-> Hr]. exists (List.map snd r). split; [reflexivity |].
  rewrite !List.map_map. apply List.map_ext_in. intros [j y] Hin.
  rewrite List.Forall_forall in Hr. destruct (Hr _ Hin) as [_ Hy].
  cbn [fst snd] in *. now rewrite Nat.sub_0_r in Hy.
Qed.

(** ** Lines that are too short *)

Lemma py_int_raises (s : string) (e : exn) :
  py_int s = Raise e -> e = ValueError.
Proof.
  unfold py_int. destruct (split_sign _) as [neg body].
  destruct (digitpart body) as [ds |]; [| now intros [= <-]].
  destruct (_ <? _)%nat; [now intros [= <-] |].
  destruct (digits_value ds); [discriminate | now intros [= <-]].
Qed.

Lemma py_str_int_raises (n : Z) (e : exn) :
  py_str_int n = Raise e -> e = ValueError.
Proof.
  unfold py_str_int. destruct (_ <? _)%nat; [now intros [= <-] | discriminate].
Qed.

Lemma py_float_raises (s : string) (e : exn) :
  py_float s = Raise e -> e = ValueError.
Proof.
  unfold py_float. destruct (negb _); [now intros [= <-] |].
  destruct (split_sign _) as [neg r].
  destruct (_ || _); [discriminate |].
  destruct (String.eqb _ "nan"); [discriminate |].
  destruct (parse_decimal r) as [[ds x] |]; [| now intros [= <-]].
  destruct (digits_value ds); [discriminate | now intros [= <-]].
Qed.

Lemma json_string_raises (n : nat) :
  forall (l : list ascii) (e : exn),
    (List.length l <= n)%nat ->
    json_string l = Raise e -> e <> IndexError.
Proof.
  induction n as [| n IH]; intros l e Hlen H.
  - destruct l; [| cbn in Hlen; lia]. cbn in H. now injection H as <-.
  - destruct l as [| c tl]; [cbn in H; now injection H as <- |].
    cbn [List.length] in Hlen. cbn [json_string] in H.
    destruct (Ascii.eqb c dquote); [discriminate |].
    assert (Hrec : forall (x : ascii) (r : list ascii),
               (List.length r <= n)%nat ->
               (r' <- json_string r ;; Ok (String x (fst r'), snd r'))
               = Raise e -> e <> IndexError).
    { intros x r Hr Hb. destruct (json_string r) eqn:Er; [discriminate |].
      cbn [bind] in Hb. injection Hb as <-. now apply (IH r). }
    destruct (Ascii.eqb c "\").
    + destruct tl as [| x tl']; [now injection H as <- |].
      cbn [List.length] in Hlen.
      destruct (Ascii.eqb_spec x "u") as [-> | Hx].
      * destruct tl' as [| h1 [| h2 [| h3 [| h4 tl'']]]];
          try (cbn in H; now injection H as <-).
        cbn [List.length] in Hlen.
        destruct (hex_value h1) as [a |]; [| now injection H as <-].
        destruct (hex_value h2) as [b |]; [| now injection H as <-].
        destruct (hex_value h3) as [c' |]; [| now injection H as <-].
        destruct (hex_value h4) as [d |]; [| now injection H as <-].
        destruct ((a =? 0) && (b =? 0))%nat; [| now injection H as <-].
        apply (Hrec (ascii_of_nat (16 * c' + d)) tl''); [lia | exact H].
      * assert (H' : match json_escape x with
                     | Some y =>
                         r <- json_string tl' ;; Ok (String y (fst r), snd r)
                     | None => Raise JSONDecodeError
                     end = Raise e).
        { destruct x as [[] [] [] [] [] [] [] []]; try exact H.
          now contradiction Hx. }
        destruct (json_escape x) as [a |]; [| now injection H' as <-].
        apply (Hrec a tl'); [lia | exact H'].
    + destruct (nat_of_ascii c <? 32)%nat; [now injection H as <- |].
      apply (Hrec c tl); [lia | exact H].
Qed.

Lemma json_atom_raises (l : list ascii) (e : exn) :
  json_atom l = Raise e -> e <> IndexError.
Proof.
  unfold json_atom. intros H.
  repeat match type of H with
         | match ?x with _ => _ end = _ => destruct x eqn:?
         end; try discriminate.
  - destruct (py_float _) eqn:E; [discriminate |]. cbn [bind] in H.
    injection H as <-. apply py_float_raises in E. now subst.
  - destruct (py_int _) eqn:E; [discriminate |]. cbn [bind] in H.
    injection H as <-. apply py_int_raises in E. now subst.
  - now injection H as <-.
Qed.

Lemma json_scan_raises (fuel : nat) :
  (forall l e, json_scan fuel l = Raise e -> e <> IndexError)
  /\ (forall acc l e, json_items fuel acc l = Raise e -> e <> IndexError)
  /\ (forall acc l e, json_members fuel acc l = Raise e -> e <> IndexError).
Proof.
  induction fuel as [| n (IHs & IHi & IHm)];
    [repeat split; intros; cbn in *; injection H as <-; discriminate |].
  split; [| split].
  - intros l e H. cbn [json_scan] in H.
    destruct l as [| c tl]; [now apply json_atom_raises in H |].
    destruct (Ascii.eqb_spec c "{") as [-> | Hc1].
    { destruct (json_ws tl) as [| c' r'] eqn:E;
        [now apply (IHm [] []) |].
      destruct (Ascii.eqb_spec c' "}") as [-> | Hc']; [discriminate |].
      apply (IHm [] (c' :: r')).
      destruct c' as [[] [] [] [] [] [] [] []]; try exact H.
      now contradiction Hc'. }
    destruct (Ascii.eqb_spec c "[") as [-> | Hc2].
    { destruct (json_ws tl) as [| c' r'] eqn:E;
        [now apply (IHi [] []) |].
      destruct (Ascii.eqb_spec c' "]") as [-> | Hc']; [discriminate |].
      apply (IHi [] (c' :: r')).
      destruct c' as [[] [] [] [] [] [] [] []]; try exact H.
      now contradiction Hc'. }
    assert (H' : (if Ascii.eqb c dquote
                  then r <- json_string tl ;; Ok (PStr (fst r), snd r)
                  else json_atom (c :: tl)) = Raise e).
    { destruct c as [[] [] [] [] [] [] [] []]; try exact H;
        first [now contradiction Hc1 | now contradiction Hc2]. }
    destruct (Ascii.eqb c dquote).
    + destruct (json_string tl) eqn:Es; [discriminate |].
      cbn [bind] in H'. injection H' as <-.
      now apply (json_string_raises (List.length tl) tl).
    + now apply json_atom_raises in H'.
  - intros acc l e H. cbn [json_items] in H.
    destruct (json_scan n l) as [v | e0] eqn:Ev.
    2:{ cbn [bind] in H. injection H as <-. now apply IHs in Ev. }
    cbn [bind] in H.
    destruct (json_ws (snd v)) as [| c r']; [now injection H as <- |].
    destruct (Ascii.eqb_spec c "]") as [-> | Hc1]; [discriminate |].
    destruct (Ascii.eqb_spec c ",") as [-> | Hc2]; [now apply IHi in H |].
    assert (H' : @Raise (PyVal * list ascii) JSONDecodeError = Raise e).
    { destruct c as [[] [] [] [] [] [] [] []]; try exact H;
        first [now contradiction Hc1 | now contradiction Hc2]. }
    now injection H' as <-.
  - intros acc l e H. cbn [json_members] in H.
    destruct l as [| c tl]; [now injection H as <- |].
    destruct (negb (Ascii.eqb c dquote)); [now injection H as <- |].
    destruct (json_string tl) as [k | e0] eqn:Ek.
    2:{ cbn [bind] in H. injection H as <-.
        now apply (json_string_raises (List.length tl) tl). }
    cbn [bind] in H.
    destruct (json_ws (snd k)) as [| c1 r1]; [now injection H as <- |].
    destruct (Ascii.eqb_spec c1 ":") as [-> | Hc].
    2:{ assert (H' : @Raise (PyVal * list ascii) JSONDecodeError = Raise e).
        { destruct c1 as [[] [] [] [] [] [] [] []]; try exact H.
          now contradiction Hc. }
        now injection H' as <-. }
    destruct (json_scan n (json_ws r1)) as [v | e0] eqn:Ev.
    2:{ cbn [bind] in H. injection H as <-. now apply IHs in Ev. }
    cbn [bind] in H.
    destruct (json_ws (snd v)) as [| c2 r']; [now injection H as <- |].
    destruct (Ascii.eqb_spec c2 "}") as [-> | Hc1]; [discriminate |].
    destruct (Ascii.eqb_spec c2 ",") as [-> | Hc2]; [now apply IHm in H |].
    assert (H' : @Raise (PyVal * list ascii) JSONDecodeError = Raise e).
    { destruct c2 as [[] [] [] [] [] [] [] []]; try exact H;
        first [now contradiction Hc1 | now contradiction Hc2]. }
    now injection H' as <-.
Qed.

Lemma json_loads_raises (s : string) (e : exn) :
  json_loads s = Raise e -> e <> IndexError.
Proof.
  unfold json_loads. intros H.
  destruct (json_scan _ _) as [r | e0] eqn:E; cbn [bind] in H.
  - destruct (json_ws (snd r)); [discriminate | now injection H as <-].
  - injection H as <-. now apply json_scan_raises in E.
Qed.

Lemma tag_match_getitem (tok : string) :
  tag_match tok = true -> exists letter, str_getitem tok 3 = Ok letter.
Proof.
  unfold tag_match, str_getitem.
  destruct (chars tok) as [| k1 [| k2 [| c1 [| t [| c2 rest]]]]];
    try discriminate.
  intros _. now exists (String t "").
Qed.

Lemma extra_fields_raises (tokens : list string) :
  forall (mapping : dict) (nargs : Z) (e : exn),
    extra_fields tokens mapping nargs = Raise e -> e <> IndexError.
Proof.
  induction tokens as [| tok tl IH]; intros mapping nargs e H;
    cbn [extra_fields] in H; [discriminate |].
  destruct (tag_match tok) eqn:Et.
  2:{ destruct (py_str_int nargs) eqn:En; cbn [bind] in H;
        [now apply IH in H |].
      injection H as <-. apply py_str_int_raises in En. now subst. }
  destruct (tag_match_getitem tok Et) as [letter Hl]. rewrite Hl in H.
  cbn [bind] in H. unfold gtype in H.
  destruct (String.eqb letter "i").
  { cbn [bind] in H. destruct (py_int _) eqn:E; cbn [bind] in H;
      [now apply IH in H |].
    injection H as <-. apply py_int_raises in E. now subst. }
  destruct (String.eqb letter "f").
  { cbn [bind] in H. destruct (py_float _) eqn:E; cbn [bind] in H;
      [now apply IH in H |].
    injection H as <-. apply py_float_raises in E. now subst. }
  destruct (String.eqb letter "A" || String.eqb letter "Z").
  { cbn [bind] in H. now apply IH in H. }
  destruct (String.eqb letter "J").
  { cbn [bind] in H. destruct (json_loads _) eqn:E; cbn [bind] in H;
      [now apply IH in H |].
    injection H as <-. now apply json_loads_raises in E. }
  destruct (String.eqb letter "H" || String.eqb letter "B");
    cbn [bind] in H; now injection H as <-.
Qed.

Lemma supplementary_datas_raises (fields : list string) (n : Z) (e : exn) :
  supplementary_datas fields n = Raise e -> e <> IndexError.
Proof.
  unfold supplementary_datas. destruct (_ <? _); [| discriminate].
  apply extra_fields_raises.
Qed.

(** The parser of an S-line raises [IndexError] exactly when the line has
    fewer than three fields, and the parser of an L-line exactly when it
    has fewer than five: whatever follows the fields that are read, no tag
    makes them raise it. *)
Theorem short_line_raises_IndexError (fields : list string)
  (style : GfaStyle) (with_seq : bool) (kw : kwargs) :
  (segment fields style {| ws := Some with_seq |} = Raise IndexError
   <-> (List.length fields < 3)%nat)
  /\ (line fields style kw = Raise IndexError
      <-> (List.length fields < 5)%nat).
Proof.
  split; split.
  - intros H. destruct fields as [| f0 [| f1 [| f2 rest]]];
      cbn [List.length]; try lia.
    exfalso. unfold segment, kwargs_ws in H. cbn [ws] in H.
    replace (py_getitem (f0 :: f1 :: f2 :: rest) 1) with (Ok f1) in H
      by reflexivity.
    replace (py_getitem (f0 :: f1 :: f2 :: rest) 2) with (Ok f2) in H
      by reflexivity.
    cbn [bind] in H.
    destruct with_seq; cbn [bind] in H;
      (destruct (supplementary_datas _ 3) eqn:E; cbn [bind] in H;
       [discriminate |]);
      injection H as ->; now apply supplementary_datas_raises in E.
  - intros H. destruct fields as [| f0 [| f1 [| f2 rest]]];
      cbn [List.length] in H; try lia; reflexivity.
  - intros H.
    destruct fields as [| f0 [| f1 [| f2 [| f3 [| f4 rest]]]]];
      cbn [List.length]; try lia.
    exfalso. unfold line in H.
    replace (py_getitem (f0 :: f1 :: f2 :: f3 :: f4 :: rest) 1)
      with (Ok f1) in H by reflexivity.
    replace (py_getitem (f0 :: f1 :: f2 :: f3 :: f4 :: rest) 2)
      with (Ok f2) in H by reflexivity.
    replace (py_getitem (f0 :: f1 :: f2 :: f3 :: f4 :: rest) 3)
      with (Ok f3) in H by reflexivity.
    replace (py_getitem (f0 :: f1 :: f2 :: f3 :: f4 :: rest) 4)
      with (Ok f4) in H by reflexivity.
    cbn [bind] in H.
    destruct (supplementary_datas _ 5) eqn:E; cbn [bind] in H;
      [discriminate |].
    injection H as ->. now apply supplementary_datas_raises in E.
  - intros H.
    destruct fields as [| f0 [| f1 [| f2 [| f3 [| f4 rest]]]]];
      cbn [List.length] in H; try lia; reflexivity.
Qed.

(** ** Merging on a loaded graph *)

Lemma set_segment_field_Ok (i : nat) (k : string) (v : PyVal)
  (g g1 : Graph.t) (u : unit) :
  Graph.set_segment_field i k v g = (Ok u, g1) ->
  Graph.lines g1 = Graph.lines g
  /\ (k <> "name" ->
      List.map record_name (Graph.segments g1)
      = List.map record_name (Graph.segments g)).
Proof.
  intros H. split.
  - unfold Graph.set_segment_field in H.
    destruct (List.nth_error (Graph.segments g) i); [| discriminate].
    now injection H as _ <-.
  - intros Hk. pose proof (stable_set_segment_field i k v Hk g) as [S _].
    now rewrite H in S.
Qed.

Lemma filterM_Ok_all {A : Type} (p : A -> res bool) (l r : list A) :
  Graph.filterM p l = Ok r -> List.Forall (fun x => exists b, p x = Ok b) l.
Proof.
  revert r. induction l as [| x l IH]; intros r H; [constructor |].
  cbn [Graph.filterM] in H. apply bind_Ok_inv in H as (b & Hb & H).
  apply bind_Ok_inv in H as (r' & Hr' & H). constructor; eauto.
Qed.

Lemma get_edges_positions_parsed (g : Graph.t) (node : string)
  (ps : list nat) :
  List.Forall parsed_edge (Graph.lines g) ->
  Graph.get_edges_positions g node = Ok ps ->
  List.Forall (starts_at node) (Graph.lines g).
Proof.
  intros Hp H. unfold Graph.get_edges_positions, enumerate in H.
  pose proof (filterM_enumerate (Graph.touches node) (Graph.lines g) 0) as Hf.
  destruct (Graph.filterM _ (enumerate_from 0 (Graph.lines g))) as [r | e];
    [| discriminate].
  destruct Hf as [Hf _]. apply filterM_Ok_all in Hf.
  rewrite List.Forall_forall in *. intros edge Hin.
  destruct (Hf edge Hin) as [b Hb].
  destruct (touches_parsed_cases node edge (Hp edge Hin)) as [[Hs _] | [_ Hr]];
    [exact Hs | congruence].
Qed.

Lemma insert_by_key_In (x : Z * string) (l : list (Z * string))
  (y : Z * string) :
  List.In y (Graph.insert_by_key x l) -> y = x \/ List.In y l.
Proof.
  induction l as [| z l IH]; cbn [Graph.insert_by_key].
  - intros [<- | []]. now left.
  - destruct (fst x <=? fst z).
    + intros [<- | H]; [now left | now right].
    + intros [<- | H]; [right; now left |].
      destruct (IH H) as [-> | H']; [now left | right; now right].
Qed.

Lemma sorted_by_int_In (segs ordered : list string) (x : string) :
  Graph.sorted_by_int segs = Ok ordered -> List.In x ordered ->
  List.In x segs.
Proof.
  unfold Graph.sorted_by_int. intros H Hin.
  apply bind_Ok_inv in H as (keys & Hk & H). injection H as <-.
  apply List.in_map_iff in Hin. destruct Hin as ([k s] & <- & Hin).
  cbn [snd]. clear Hk.
  assert (Hc : List.In (k, s) (List.combine keys segs)).
  { revert Hin. generalize (List.combine keys segs). intros l.
    induction l as [| z l IH]; cbn [List.fold_right]; [auto |].
    intros H. apply insert_by_key_In in H. destruct H as [-> | H];
      [now left | right; auto]. }
  now apply List.in_combine_r in Hc.
Qed.

Lemma insert_by_key_In_iff (x : Z * string) (l : list (Z * string))
  (y : Z * string) :
  List.In y (Graph.insert_by_key x l) <-> y = x \/ List.In y l.
Proof.
  split; [apply insert_by_key_In |].
  induction l as [| z l IH]; cbn [Graph.insert_by_key].
  - intros [-> | []]. now left.
  - destruct (fst x <=? fst z).
    + intros [-> | H]; [now left | now right].
    + intros [-> | [-> | H]];
        [right; apply IH; now left | now left | right; apply IH; now right].
Qed.

Lemma insert_by_key_sorted (x : Z * string) (l : list (Z * string)) :
  StronglySorted (fun a b => fst a <= fst b) l ->
  StronglySorted (fun a b => fst a <= fst b) (Graph.insert_by_key x l).
Proof.
  induction 1 as [| z l Hl IH Hz]; cbn [Graph.insert_by_key].
  - constructor; constructor.
  - destruct (Z.leb_spec (fst x) (fst z)) as [Hle | Hgt].
    + constructor; [now constructor |].
      constructor; [exact Hle |].
      eapply List.Forall_impl; [| exact Hz]. cbn beta. intros; lia.
    + constructor; [exact IH |].
      apply List.Forall_forall. intros y Hy.
      apply insert_by_key_In in Hy. destruct Hy as [-> | Hy]; [lia |].
      rewrite List.Forall_forall in Hz. now apply Hz.
Qed.

Lemma sorted_last_max (l : list (Z * string)) (z : Z * string) :
  StronglySorted (fun a b => fst a <= fst b) (l ++ [z])%list ->
  List.Forall (fun y => fst y <= fst z) l.
Proof.
  induction l as [| a l IH]; cbn [List.app]; intros H; [constructor |].
  inversion H as [| ? ? Hl Ha]; subst.
  constructor; [| now apply IH].
  rewrite List.Forall_forall in Ha. apply Ha.
  apply List.in_or_app. right. now left.
Qed.

Lemma mapM_combine {A B : Type} (f : A -> res B) (l : list A) (l' : list B) :
  mapM f l = Ok l' ->
  (forall y x, List.In (y, x) (List.combine l' l) -> f x = Ok y)
  /\ (forall x, List.In x l -> exists y, List.In (y, x) (List.combine l' l)).
Proof.
  revert l'. induction l as [| x0 l IH]; intros l' H.
  - injection H as <-. split; [intros y x [] | intros x []].
  - rewrite mapM_cons in H.
    apply bind_Ok_inv in H as (y0 & Hy0 & H).
    apply bind_Ok_inv in H as (ys & Hys & H). injection H as <-.
    destruct (IH ys Hys) as [H1 H2]. cbn [List.combine]. split.
    + intros y x [[= <- <-] | Hin]; [exact Hy0 | now apply H1].
    + intros x [<- | Hin]; [exists y0; now left |].
      destruct (H2 x Hin) as [y Hy]. exists y. now right.
Qed.

Lemma mapM_last_inv {A B : Type} (f : A -> res B) (l : list A) :
  forall (init' : list B) (r : B),
    mapM f l = Ok (init' ++ [r])%list ->
    exists init y, l = (init ++ [y])%list /\ f y = Ok r.
Proof.
  induction l as [| x l IH]; intros init' r H.
  - injection H as H. now destruct init'.
  - rewrite mapM_cons in H.
    apply bind_Ok_inv in H as (y0 & Hy0 & H).
    apply bind_Ok_inv in H as (ys & Hys & H). injection H as H.
    destruct init' as [| a init'']; cbn [List.app] in H.
    + injection H as -> ->. apply mapM_length in Hys.
      destruct l; [| discriminate]. exists [], x. now split.
    + injection H as -> ->. destruct (IH _ _ Hys) as (init & y & -> & Hy).
      exists (x :: init), y. now split.
Qed.

(** The last name of [sorted(segs, key=int)] is one [int] reads as a
    number no smaller than any other. *)
Lemma sorted_by_int_last (segs init : list string) (y : string) :
  Graph.sorted_by_int segs = Ok (init ++ [y])%list ->
  exists k,
    py_int y = Ok k
    /\ forall s, List.In s segs -> exists ks, py_int s = Ok ks /\ ks <= k.
Proof.
  unfold Graph.sorted_by_int. intros H.
  apply bind_Ok_inv in H as (keys & Hk & H). injection H as H.
  destruct (mapM_combine _ _ _ Hk) as [Hkey Hall].
  set (pairs := List.combine keys segs) in *.
  assert (Hs : StronglySorted (fun a b => fst a <= fst b)
                 (List.fold_right Graph.insert_by_key [] pairs)).
  { clear. induction pairs as [| p l IH]; cbn [List.fold_right];
      [constructor | now apply insert_by_key_sorted]. }
  assert (Hin : forall p, List.In p pairs <->
                          List.In p (List.fold_right Graph.insert_by_key []
                                       pairs)).
  { clear. intros p. induction pairs as [| q l IH]; cbn [List.fold_right];
      [reflexivity |].
    rewrite insert_by_key_In_iff. cbn [List.In]. rewrite IH.
    split; intros [E | E]; auto. }
  apply List.map_eq_app in H. destruct H as (sinit & slast & Hsort & _ & Hl).
  destruct slast as [| [k y'] [| ? ?]]; try discriminate.
  cbn [List.map snd] in Hl. injection Hl as ->.
  rewrite Hsort in Hs, Hin. exists k. split.
  - apply Hkey. apply Hin. apply List.in_or_app. right. now left.
  - intros s Hs'. destruct (Hall s Hs') as [ks Hks]. exists ks.
    split; [now apply Hkey |].
    apply Hin in Hks. apply List.in_app_or in Hks.
    destruct Hks as [Hks | [[= <- _] | []]]; [| lia].
    apply sorted_last_max in Hs. rewrite List.Forall_forall in Hs.
    exact (Hs _ Hks).
Qed.

(** On a graph whose edges were parsed from L-lines, [merge_segments]
    returns only when every edge of the graph starts at one and the same
    segment, the right-most of the segments to merge, which is one of the
    names passed in that [int] reads as the largest number: the call looks
    for the edges of that segment under the key ['stop'], which no parsed
    edge has. *)
Theorem merge_on_parsed_edges (segs : list string) (g g' : Graph.t)
  (name : string) :
  List.Forall parsed_edge (Graph.lines g) ->
  Graph.merge_segments segs g = (Ok name, g') ->
  exists right_most_name k,
    List.In right_most_name segs
    /\ py_int right_most_name = Ok k
    /\ (forall s, List.In s segs -> exists ks, py_int s = Ok ks /\ ks <= k)
    /\ List.Forall (starts_at right_most_name) (Graph.lines g).
Proof.
  intros Hp H. unfold Graph.merge_segments in H.
  apply bindM_Ok_inv in H as (ordered & g1 & H1 & H).
  apply lift_Ok_inv in H1 as [Hord ->].
  apply bindM_Ok_inv in H as (positions & g1 & H1 & H).
  apply read_Ok_inv in H1 as [Hpos ->].
  apply bindM_Ok_inv in H as (left_most & g1 & H1 & H).
  apply lift_Ok_inv in H1 as [Hleft ->].
  apply bindM_Ok_inv in H as (right_most & g1 & H1 & H).
  apply lift_Ok_inv in H1 as [Hright ->].
  apply bindM_Ok_inv in H as (old & g1 & H1 & H).
  apply bindM_Ok_inv in H1 as (segL & g2 & Hseg & Hold).
  apply read_Ok_inv in Hseg as [Hseg ->].
  apply lift_Ok_inv in Hold as [Hold ->].
  apply bindM_Ok_inv in H as (lengths & g1 & H1 & H).
  apply read_Ok_inv in H1 as [Hlengths ->].
  apply bindM_Ok_inv in H as (total & g1 & H1 & H).
  apply lift_Ok_inv in H1 as [Htotal ->].
  apply bindM_Ok_inv in H as (u & g1 & Hset & H).
  apply set_segment_field_Ok in Hset. destruct Hset as [L1 N1].
  specialize (N1 ltac:(discriminate)).
  apply bindM_Ok_inv in H as (seg' & g2 & Hseg' & H).
  apply read_Ok_inv in Hseg' as [Hseg' ->].
  apply bindM_Ok_inv in H as (u2 & g3 & Hif & H).
  assert (S3 : Graph.lines g3 = Graph.lines g1
               /\ List.map record_name (Graph.segments g3)
                  = List.map record_name (Graph.segments g1)).
  { destruct (dict_contains (datas seg') "seq").
    - apply bindM_Ok_inv in Hif as (seqs & g2 & Hseqs & Hif).
      apply read_Ok_inv in Hseqs as [Hseqs ->].
      apply bindM_Ok_inv in Hif as (joined & g2 & Hj & Hif).
      apply lift_Ok_inv in Hj as [Hj ->].
      apply set_segment_field_Ok in Hif. destruct Hif as [L N].
      split; [exact L | apply N; discriminate].
    - injection Hif as _ <-. now split. }
  destruct S3 as [L3 N3].
  apply bindM_Ok_inv in H as (right_most_name & g2 & H1 & H).
  apply read_Ok_inv in H1 as [Hrn ->].
  apply bindM_Ok_inv in H as (edges_to_edit & g2 & H1 & H).
  apply read_Ok_inv in H1 as [Hee ->].
  apply py_getitem_last in Hright. destruct Hright as [init ->].
  apply mapM_last_inv in Hpos. destruct Hpos as (oinit & x & -> & Hpx).
  assert (E : right_most_name = x).
  { unfold Graph.get_segment_position in Hpx.
    apply bind_Ok_inv in Hpx as (r & Hr & Hpx).
    destruct r as [i |]; [| discriminate]. injection Hpx as ->.
    apply find_position_found in Hr.
    destruct Hr as (k & rec & -> & Hk & Hn). cbn [Nat.add] in *.
    unfold Graph.segment_name_at in Hrn.
    apply bind_Ok_inv in Hrn as (seg3 & Hseg3 & Hrn).
    apply bind_Ok_inv in Hrn as (v & Hv & Hrn).
    apply record_at_Ok in Hseg3. apply dict_getitem_Ok in Hv.
    assert (E : record_name seg3 = record_name rec).
    { apply (List.map_nth_error record_name) in Hseg3, Hk.
      rewrite N3, N1, Hk in Hseg3. now injection Hseg3. }
    unfold record_name in E at 1. rewrite Hv, Hn in E. injection E as ->.
    now injection Hrn. }
  subst x. destruct (sorted_by_int_last _ _ _ Hord) as (k & Hk & Hmax).
  exists right_most_name, k. split; [| split; [exact Hk | split;
                                                          [exact Hmax |]]].
  - eapply sorted_by_int_In; [exact Hord |].
    apply List.in_or_app. right. now left.
  - rewrite <- L1, <- L3.
    apply (get_edges_positions_parsed g3 right_most_name edges_to_edit);
      [| exact Hee].
    now rewrite L3, L1.
Qed.

(** Two segments and an edge that starts at the right-most one: the
    merge returns. *)
Lemma merge_on_parsed_edges_witness :
  let g := sample_graph GFA1
             [sample_segment GFA1 "1" "ACGT"; sample_segment GFA1 "2" "GGTT"]
             [sample_line GFA1 "2" "+" "1" "+"] [] in
  fst (Graph.merge_segments ["1"; "2"] g) = Ok "1"
  /\ exists right_most_name k,
       List.In right_most_name ["1"; "2"]
       /\ py_int right_most_name = Ok k
       /\ (forall s, List.In s ["1"; "2"] ->
                     exists ks, py_int s = Ok ks /\ ks <= k)
       /\ List.Forall (starts_at right_most_name) (Graph.lines g).
Proof.
  intros g. split; [reflexivity |].
  apply (merge_on_parsed_edges ["1"; "2"] g
           (snd (Graph.merge_segments ["1"; "2"] g)) "1").
  - constructor; [| constructor].
    exists ["L"; "2"; "+"; "1"; "+"; "*"], GFA1, {| ws := Some true |}.
    reflexivity.
  - reflexivity.
Defined.

(** ** A written line read again *)

Lemma count_char_none (c : ascii) (s : string) :
  List.Forall (fun x => Ascii.eqb x c = false) (chars s) ->
  count_char c s = 0%nat.
Proof.
  induction s as [| a s IH]; cbn [chars list_ascii_of_string count_char];
    [reflexivity |].
  intros H. inversion H as [| ? ? Ha Hs]; subst. rewrite Ha. now apply IH.
Qed.

Lemma digits_only_field (s : string) :
  digits_only s ->
  count_char tab s = 0%nat /\ count_char newline s = 0%nat.
Proof.
  intros H. split; apply count_char_none;
    (eapply List.Forall_impl; [| exact H]); intros x Hx;
    match goal with
    | |- Ascii.eqb x ?c = false =>
        destruct (Ascii.eqb_spec x c) as [-> | _]; [discriminate | reflexivity]
    end.
Qed.

Lemma str_repeat_field (n : Z) :
  count_char tab (str_repeat "N" n) = 0%nat
  /\ count_char newline (str_repeat "N" n) = 0%nat.
Proof.
  unfold str_repeat. generalize (Z.to_nat n). intros k.
  induction k as [| k [IH1 IH2]]; [now split |].
  cbn [List.repeat text string_of_list_ascii count_char].
  fold (text (List.repeat "N"%char k)). now split.
Qed.

Lemma str_len_repeat (c : ascii) (n : Z) :
  0 <= n -> str_len (str_repeat c n) = n.
Proof.
  intros Hn. unfold str_len, str_repeat.
  assert (E : forall k, String.length (text (List.repeat c k)) = k).
  { induction k as [| k IH]; [reflexivity |].
    cbn [List.repeat text string_of_list_ascii String.length].
    fold (text (List.repeat c k)). now rewrite IH. }
  rewrite E. lia.
Qed.

Section WrittenLineReadAgain.

Variable float_repr : spec_float -> string.

(** The text [save_graph] writes for a tag-less S-line is stable: read
    again with the same options, it loads, and it is written back character
    for character. *)
Theorem segment_line_written_is_stable (name sq gfa_type : string)
  (style : GfaStyle) (with_seq : bool) :
  GfaStyle_of gfa_type = Ok style ->
  field_texts [name; sq] ->
  exists rec,
    Record_init
      (gfa_line_of
         ["S"; sub_nondigits name;
          if with_seq then sq else str_repeat "N" (str_len sq); ""])
      gfa_type {| ws := Some with_seq |} = Ok rec
    /\ linetype rec = Segment
    /\ Graph.segment_text float_repr rec
       = Ok (gfa_line_of
               ["S"; sub_nondigits name;
                if with_seq then sq else str_repeat "N" (str_len sq); ""]).
Proof.
  intros Hs Hf.
  set (sq' := if with_seq then sq else str_repeat "N" (str_len sq)).
  assert (Hlen : str_len sq' = str_len sq).
  { subst sq'. destruct with_seq; [reflexivity |].
    apply str_len_repeat. unfold str_len. lia. }
  assert (Hf' : field_texts ["S"; sub_nondigits name; sq'; ""]).
  { inversion Hf as [| ? ? Hn Hf1]; subst.
    inversion Hf1 as [| ? ? Hq _]; subst.
    constructor; [now split |].
    constructor; [apply digits_only_field, sub_nondigits_digits |].
    constructor; [| constructor; [now split | constructor]].
    subst sq'. destruct with_seq; [exact Hq | apply str_repeat_field]. }
  rewrite Record_init_fields; [| reflexivity | exact Hf'].
  rewrite Hs. cbn [bind LineType String.eqb Ascii.eqb Bool.eqb fst snd].
  unfold segment, kwargs_ws. cbn [ws].
  replace (py_getitem ["S"; sub_nondigits name; sq'; ""] 1)
    with (Ok (sub_nondigits name)) by reflexivity.
  replace (py_getitem ["S"; sub_nondigits name; sq'; ""] 2)
    with (Ok sq') by reflexivity.
  replace (supplementary_datas ["S"; sub_nondigits name; sq'; ""] 3)
    with (Ok [("ARG3", PStr "")]) by reflexivity.
  cbn [bind].
  rewrite (sub_nondigits_id _ (sub_nondigits_digits name)).
  destruct with_seq; cbn [bind]; (eexists; split; [reflexivity |]);
    (split; [reflexivity |]);
    unfold Graph.segment_text, dict_getitem, dict_contains, tags_text;
    cbn [datas dict_merge List.fold_left dict_set dict_get String.eqb
         Ascii.eqb Bool.eqb bind repeat_N py_str List.filter fst snd
         List.existsb negb orb mapM tag_text str_startswith String.prefix
         str_join];
    rewrite ?Hlen; subst sq'; cbn beta iota;
    unfold gfa_line_of; cbn [str_join String.append];
    repeat (rewrite str_app_assoc; cbn [String.append]); reflexivity.
Qed.

End WrittenLineReadAgain.

Lemma segment_line_written_is_stable_witness :
  exists rec,
    Record_init
      (gfa_line_of ["S"; sub_nondigits "s1"; str_repeat "N" (str_len "ACGT");
                    ""])
      "GFA1" {| ws := Some false |} = Ok rec
    /\ linetype rec = Segment
    /\ Graph.segment_text (fun _ => "") rec
       = Ok (gfa_line_of
               ["S"; sub_nondigits "s1"; str_repeat "N" (str_len "ACGT"); ""]).
Proof.
  apply (segment_line_written_is_stable (fun _ => "") "s1" "ACGT" "GFA1" GFA1
           false).
  - reflexivity.
  - repeat constructor.
Defined.

(** ** Header tags read and written back *)

Lemma is_upper_field (c : ascii) :
  is_upper c = true ->
  Ascii.eqb c tab = false /\ Ascii.eqb c newline = false.
Proof.
  intros H. split;
    match goal with
    | |- Ascii.eqb c ?x = false =>
        destruct (Ascii.eqb_spec c x) as [-> | _]; [discriminate | reflexivity]
    end.
Qed.

Section HeaderTags.

Variable float_repr : spec_float -> string.

(** An H-line with one tag of type [Z] loads under every style but rGFA and
    is written back character for character; with the type [A] the value
    is kept and written under the type [Z]; with the type [i] and a value
    that is the text [str] returns for an integer (of at most
    [max_str_digits] digits, then), the line is written back character for
    character. *)
Theorem header_tag_written_back (k1 k2 : ascii) (value gfa_type : string)
  (style : GfaStyle) (kw : kwargs) :
  GfaStyle_of gfa_type = Ok style ->
  (1 <= style_rank style)%nat ->
  is_upper k1 = true -> is_upper k2 = true ->
  field_texts [value] ->
  let tag letter :=
    String k1 (String k2 (":" ++ letter ++ ":" ++ value)) in
  (exists rec,
      Record_init (gfa_line_of ["H"; tag "Z"]) gfa_type kw = Ok rec
      /\ Graph.header_text float_repr rec = Ok (gfa_line_of ["H"; tag "Z"]))
  /\ (exists rec,
         Record_init (gfa_line_of ["H"; tag "A"]) gfa_type kw = Ok rec
         /\ Graph.header_text float_repr rec
            = Ok (gfa_line_of ["H"; tag "Z"]))
  /\ (forall z,
         py_str_int z = Ok value ->
         exists rec,
           Record_init (gfa_line_of ["H"; tag "i"]) gfa_type kw = Ok rec
           /\ Graph.header_text float_repr rec
              = Ok (gfa_line_of ["H"; tag "i"])).
Proof.
  intros Hs Hrank Hk1 Hk2 Hf tag.
  assert (Hst : GfaStyle_eqb style RGFA = false)
    by (destruct style; cbn in Hrank; try lia; reflexivity).
  destruct (is_upper_field k1 Hk1) as [Ht1 Hn1].
  destruct (is_upper_field k2 Hk2) as [Ht2 Hn2].
  inversion Hf as [| ? ? [Hvt Hvn] _]; subst.
  assert (Hfields : forall letter : ascii,
             Ascii.eqb letter tab = false ->
             Ascii.eqb letter newline = false ->
             field_texts ["H"; tag (String letter "")]).
  { intros letter Hl1 Hl2. constructor; [now split |].
    constructor; [| constructor]. subst tag.
    cbn [count_char String.append].
    rewrite Ht1, Ht2, Hn1, Hn2, Hl1, Hl2, Hvt, Hvn. now split. }
  assert (Hmatch : forall letter : ascii,
             is_alpha letter = true ->
             tag_match (tag (String letter "")) = true).
  { intros letter Hl. subst tag. unfold tag_match.
    cbn [chars list_ascii_of_string String.append].
    rewrite Hk1, Hk2, Hl. reflexivity. }
  assert (Hload : forall (letter : ascii) cast v,
             Ascii.eqb letter tab = false ->
             Ascii.eqb letter newline = false ->
             is_alpha letter = true ->
             gtype (String letter "") = Ok cast ->
             cast value = Ok v ->
             Record_init (gfa_line_of ["H"; tag (String letter "")])
               gfa_type kw
             = Ok {| gfastyle := Some style; linetype := Header;
                     datas := [(String k1 (String k2 ""), v)] |}).
  { intros letter cast v Hl1 Hl2 Hl Hg Hc.
    rewrite Record_init_fields; [| reflexivity | now apply Hfields].
    rewrite Hs. cbn [bind LineType String.eqb Ascii.eqb Bool.eqb fst snd].
    unfold header. rewrite Hst. unfold supplementary_datas.
    replace (py_slice ["H"; tag (String letter "")] (Some 1) None)
      with [tag (String letter "")] by reflexivity.
    cbn [List.length Z.of_nat Pos.of_succ_nat Pos.succ Z.ltb Z.compare
         Pos.compare Pos.compare_cont extra_fields].
    rewrite (Hmatch letter Hl).
    replace (str_getitem (tag (String letter "")) 3)
      with (Ok (String letter "")) by reflexivity.
    cbn [bind]. rewrite Hg. cbn [bind].
    replace (str_slice (tag (String letter "")) (Some 5) None) with value.
    2:{ subst tag. unfold str_slice. rewrite py_slice_from by lia.
        cbn [chars list_ascii_of_string String.append].
        change (List.skipn (Z.to_nat 5) (k1 :: k2 :: ":"%char :: letter
                                         :: ":"%char :: ?l)) with l.
        fold (chars value). now rewrite text_chars. }
    rewrite Hc. cbn [bind].
    unfold tag. now rewrite tag_key_slice. }
  assert (Hwrite : forall v t,
             dtype v = Ok t -> format_value float_repr v = Ok value ->
             Graph.header_text float_repr
               {| gfastyle := Some style; linetype := Header;
                  datas := [(String k1 (String k2 ""), v)] |}
             = Ok (gfa_line_of ["H"; tag t])).
  { intros v t Hd Hv. unfold Graph.header_text, tags_text.
    cbn [datas List.filter List.existsb negb fst mapM tag_text].
    assert (Hp : str_startswith "ARG" (String k1 (String k2 "")) = false).
    { unfold str_startswith. cbn [String.prefix].
      destruct (Ascii.ascii_dec _ _); [| reflexivity].
      destruct (Ascii.ascii_dec _ _); reflexivity. }
    rewrite Hp. cbn [negb]. rewrite Hd. cbn [bind]. rewrite Hv.
    cbn [bind str_join].
    unfold gfa_line_of, tag. cbn [str_join String.append].
    repeat (rewrite str_app_assoc; cbn [String.append]). reflexivity. }
  split; [| split].
  - eexists. split; [apply (Hload "Z"%char (fun s => Ok (PStr s)));
                      reflexivity |].
    now apply Hwrite.
  - eexists. split; [apply (Hload "A"%char (fun s => Ok (PStr s)));
                      reflexivity |].
    now apply Hwrite.
  - intros z Hzs. pose proof (py_int_py_str_int z value Hzs) as Hz.
    apply py_str_int_Ok_inv in Hzs as [-> Hok]. eexists.
    split; [apply (Hload "i"%char (fun s => n <- py_int s ;; Ok (PInt n))
                     (PInt z));
            try reflexivity; now rewrite Hz |].
    apply Hwrite; [reflexivity |].
    unfold format_value. cbn [str_ok]. now rewrite Hok.
Qed.

End HeaderTags.

(** The tag [VN] with the value [12], under the types [Z] and [i]. *)
Lemma header_tag_written_back_witness :
  (exists rec,
      Record_init (gfa_line_of ["H"; "VN:Z:12"]) "GFA1" {| ws := Some true |}
      = Ok rec
      /\ Graph.header_text (fun _ => "") rec
         = Ok (gfa_line_of ["H"; "VN:Z:12"]))
  /\ py_str_int 12 = Ok "12"
  /\ (exists rec,
         Record_init (gfa_line_of ["H"; "VN:i:12"]) "GFA1"
           {| ws := Some true |} = Ok rec
         /\ Graph.header_text (fun _ => "") rec
            = Ok (gfa_line_of ["H"; "VN:i:12"])).
Proof.
  pose proof (header_tag_written_back (fun _ => "") "V" "N" "12" "GFA1"
                GFA1 {| ws := Some true |} eq_refl (le_n 1) eq_refl eq_refl
                ltac:(repeat constructor)) as (HZ & _ & Hi).
  split; [exact HZ | split; [reflexivity | exact (Hi 12 eq_refl)]].
Defined.
